(** * Session lifecycle of the hospital-management front end

    A shallow embedding of the authentication context
    ([contexts/AuthContext]: reducer, provider callbacks, timeout effect,
    response interceptor, role checks), of the code around it that uses it
    ([App] and its route guards, the side bar, the registration and profile
    pages, the axios instance and the helpers of [utils/api]), and of the
    properties stated about them.

    Conventions of the embedding.
    - JavaScript strings are [string]s whose characters stand for code units
      in the range 0..255.  [null] and [undefined] are both [None] where
      the code treats them alike (truthiness, optional chaining); where it
      compares them ([===], [includes]) they are told apart ([JS.value]).
    - Numbers are doubles, kept as the rationals they stand for; an
      operation that rounds is followed by [JS.double].
    - [Date.now()] is read from an explicit clock, in milliseconds, as a [Z].
      The reads made inside one reducer call return the same value.
    - The provider's mutable surroundings (reducer state, [localStorage],
      the axios default header, the two timer refs, pending timeouts, emitted
      toasts, requests sent) are gathered in one record, [World], threaded
      through every callback.
    - An [async] callback is cut at its [await]: the code after the [await]
      is a function of the settled response ([login_then], [refreshToken_then],
      ...); the composed callback runs the request to completion against a
      scripted server with nothing interleaved.  Interleavings are built from
      the halves.
    - Requests are recorded by method and URL; their bodies and headers, the
      console and the values the callbacks return to the pages beyond
      success or failure are left out. *)

From Stdlib Require Import ZArith List String Ascii Bool Lia QArith.
From Stdlib Require Import DecimalString.
Import ListNotations.

Local Open Scope string_scope.
Local Open Scope Z_scope.

(** ** JavaScript odds and ends *)

Module JS.

(** Truthiness of a value that is a string, [null] or [undefined]. *)
Definition truthy (v : option string) : bool :=
  match v with
  | Some s => negb (s =? "")%string
  | None => false
  end.

(** Truthiness of a value that is a number or [undefined]. *)
Definition truthy_num (v : option Z) : bool :=
  match v with
  | Some n => negb (n =? 0)
  | None => false
  end.

(** [a || b] on strings-or-undefined. *)
Definition or_else (a b : option string) : option string :=
  if truthy a then a else b.

(** [a || 'literal'], whose right operand is a non-empty literal. *)
Definition or_default (a : option string) (d : string) : string :=
  match a with
  | Some s => if (s =? "")%string then d else s
  | None => d
  end.

(** [s.split(sep)] for a one-character separator. *)
Fixpoint split (sep : ascii) (s : string) : list string :=
  match s with
  | EmptyString => [EmptyString]
  | String c s' =>
      if Ascii.eqb c sep then EmptyString :: split sep s'
      else match split sep s' with
           | [] => [String c EmptyString]
           | p :: ps => String c p :: ps
           end
  end.

(** A value that is a string, [null] or [undefined], where the code tells
    the last two apart. *)
Inductive value : Type :=
| Undefined
| Null
| Str (s : string).

(** [x === y] on such values. *)
Definition strict_eq (x y : value) : bool :=
  match x, y with
  | Undefined, Undefined => true
  | Null, Null => true
  | Str a, Str b => (a =? b)%string
  | _, _ => false
  end.

(** [xs.includes(x)], which compares such values as [===] does. *)
Definition includes (xs : list value) (x : value) : bool :=
  existsb (strict_eq x) xs.

(** Numbers as far as comparisons need them: the result of [ToNumber]. *)
Inductive number : Type :=
| NaN
| Infinity (negative : bool)
| Finite (q : Q).

(** The exponent of the unit in the last place of the double nearest to
    [a / d], for positive [a] and [d]: 52 below the binary exponent of
    [a / d], and no less than -1074, where the doubles are evenly spaced. *)
Definition ulp_exponent (a d : Z) : Z :=
  let l := Z.log2 a - Z.log2 d in
  let floor_log2 :=
    if a * 2 ^ Z.max 0 (- l) <? d * 2 ^ Z.max 0 l then l - 1 else l in
  Z.max (floor_log2 - 52) (-1074).

(** The integer nearest to [n / d], the even one of two equally near. *)
Definition nearest_even (n d : Z) : Z :=
  let m := n / d in
  let r := n mod d in
  if 2 * r <? d then m
  else if d <? 2 * r then m + 1
  else if Z.even m then m else m + 1.

(** The double nearest to a rational, the one with the even significand of
    two equally near (binary64: significands of 53 bits, the largest double
    just below [2^1024]); what rounds beyond the largest double is an
    infinity.  The two zeros are not told apart: no comparison does. *)
Definition double (q : Q) : number :=
  let a := Z.abs (Qnum q) in
  let d := Z.pos (Qden q) in
  if a =? 0 then Finite 0
  else
    let e := ulp_exponent a d in
    let m := nearest_even (a * 2 ^ Z.max 0 (- e)) (d * 2 ^ Z.max 0 e) in
    if 1024 <=? e + Z.log2 m then Infinity (Qnum q <? 0)
    else
      let signed := if Qnum q <? 0 then - m else m in
      Finite (Qred (if 0 <=? e then (signed * 2 ^ e) # 1
                    else signed # Z.to_pos (2 ^ (- e)))).

(** [x > y] on numbers; any comparison with [NaN] is false. *)
Definition gt (x y : number) : bool :=
  match x, y with
  | NaN, _ | _, NaN => false
  | Infinity nx, Infinity ny => negb nx && ny
  | Infinity nx, Finite _ => negb nx
  | Finite _, Infinity ny => ny
  | Finite a, Finite b => negb (Qle_bool a b)
  end.

(** Values produced by [JSON.parse]. *)
#[local] Set Warnings "-register-all".
Inductive json : Type :=
| JNull
| JBool (b : bool)
| JNum (n : number)
| JStr (s : string)
| JArr (items : list json)
| JObj (fields : list (string * json)).

Fixpoint assoc (k : string) (fields : list (string * json)) : option json :=
  match fields with
  | [] => None
  | (k', v) :: rest => if (k =? k')%string then Some v else assoc k rest
  end.

(** Outcome of an expression that may throw. *)
Inductive completion (A : Type) : Type :=
| Normal (a : A)
| Throw.
Arguments Normal {A} a.
Arguments Throw {A}.

(** [v.name] for a parsed value [v]: reading a property of [null] throws;
    primitives and arrays have no such own property; [None] is
    [undefined]. *)
Definition get_prop (name : string) (v : json) : completion (option json) :=
  match v with
  | JNull => Throw
  | JObj fields => Normal (assoc name fields)
  | _ => Normal None
  end.

End JS.

(** ** The session record and its reducer *)

(** The profile object carried by server responses, as far as the provider
    reads it: [user.firstName] and [user.role]. *)
Record User : Type := {
  firstName : string;
  role : JS.value
}.

(** [res.data] of the authentication end points. *)
Record Payload : Type := {
  p_token : option string;
  p_user : option User;
  p_expiresIn : option Z;
  p_message : option string
}.

(** The reducer state ([initialState] gives its fields). *)
Record State : Type := {
  user : option User;
  token : option string;
  isAuthenticated : bool;
  loading : bool;
  error : option string;
  isInitialized : bool;
  sessionExpiry : option Z;
  lastActivity : Z
}.

(** [AUTH_ACTIONS], each with the payload its dispatch sites pass. *)
Inductive Action : Type :=
| SET_INITIALIZED
| USER_LOADING
| USER_LOADED (payload : option User)
| AUTH_ERROR (payload : string)
| LOGIN_SUCCESS (payload : Payload)
| LOGIN_FAIL (payload : string)
| LOGOUT
| LOGOUT_SILENT
| CLEAR_ERRORS
| REGISTER_SUCCESS (payload : Payload)
| REGISTER_FAIL (payload : string)
| UPDATE_ACTIVITY
| SESSION_WARNING
| TOKEN_REFRESH (payload : Payload).

(** [localStorage.getItem('token')] and [Date.now()] are read when the module
    is loaded. *)
Definition initialState (stored : option string) (now : Z) : State :=
  {| user := None;
     token := stored;
     isAuthenticated := false;
     loading := true;
     error := None;
     isInitialized := false;
     sessionExpiry := None;
     lastActivity := now |}.

(** [payload.expiresIn ? Date.now() + payload.expiresIn * 1000 : null] *)
Definition expiryOf (now : Z) (p : Payload) : option Z :=
  if JS.truthy_num (p_expiresIn p)
  then match p_expiresIn p with
       | Some e => Some (now + e * 1000)
       | None => None
       end
  else None.

Definition authReducer (now : Z) (state : State) (action : Action) : State :=
  match action with
  | SET_INITIALIZED =>
      {| user := user state; token := token state;
         isAuthenticated := isAuthenticated state;
         loading := false;
         error := error state;
         isInitialized := true;
         sessionExpiry := sessionExpiry state;
         lastActivity := lastActivity state |}
  | USER_LOADING =>
      {| user := user state; token := token state;
         isAuthenticated := isAuthenticated state;
         loading := true;
         error := None;
         isInitialized := isInitialized state;
         sessionExpiry := sessionExpiry state;
         lastActivity := lastActivity state |}
  | USER_LOADED payload =>
      {| user := payload; token := token state;
         isAuthenticated := true;
         loading := false;
         error := None;
         isInitialized := true;
         sessionExpiry := sessionExpiry state;
         lastActivity := now |}
  | LOGIN_SUCCESS payload | REGISTER_SUCCESS payload =>
      {| user := p_user payload; token := p_token payload;
         isAuthenticated := true;
         loading := false;
         error := None;
         isInitialized := true;
         sessionExpiry := expiryOf now payload;
         lastActivity := now |}
  | TOKEN_REFRESH payload =>
      {| user := user state; token := p_token payload;
         isAuthenticated := isAuthenticated state;
         loading := loading state;
         error := error state;
         isInitialized := isInitialized state;
         sessionExpiry := expiryOf now payload;
         lastActivity := now |}
  | AUTH_ERROR payload | LOGIN_FAIL payload | REGISTER_FAIL payload =>
      {| user := None; token := None;
         isAuthenticated := false;
         loading := false;
         error := Some payload;
         isInitialized := true;
         sessionExpiry := None;
         lastActivity := lastActivity state |}
  | LOGOUT =>
      {| user := None; token := None;
         isAuthenticated := false;
         loading := false;
         error := None;
         isInitialized := true;
         sessionExpiry := None;
         lastActivity := lastActivity state |}
  | LOGOUT_SILENT =>
      {| user := None; token := None;
         isAuthenticated := false;
         loading := false;
         error := None;
         isInitialized := isInitialized state;
         sessionExpiry := None;
         lastActivity := lastActivity state |}
  | UPDATE_ACTIVITY =>
      {| user := user state; token := token state;
         isAuthenticated := isAuthenticated state;
         loading := loading state;
         error := error state;
         isInitialized := isInitialized state;
         sessionExpiry := sessionExpiry state;
         lastActivity := now |}
  | CLEAR_ERRORS =>
      {| user := user state; token := token state;
         isAuthenticated := isAuthenticated state;
         loading := loading state;
         error := None;
         isInitialized := isInitialized state;
         sessionExpiry := sessionExpiry state;
         lastActivity := lastActivity state |}
  | SESSION_WARNING =>
      {| user := user state; token := token state;
         isAuthenticated := isAuthenticated state;
         loading := loading state;
         error := Some "Session will expire soon. Please save your work.";
         isInitialized := isInitialized state;
         sessionExpiry := sessionExpiry state;
         lastActivity := lastActivity state |}
  end.

(** ** The provider's surroundings *)

(** The callbacks handed to [setTimeout]: the two of the session-timeout
    effect and the forced re-login of [changePassword]. *)
Inductive TimerKind : Type :=
| WarningTimer   (* dispatches SESSION_WARNING and warns *)
| LogoutTimer    (* calls logoutSilent and tells why *)
| ReloginTimer.  (* calls logout *)

(** A pending timeout: its handle, the clock value at which it is due and
    the callback it runs. *)
Record Timer : Type := {
  tid : nat;
  due : Z;
  kind : TimerKind
}.

Inductive Toast : Type :=
| ToastError (msg : string)
| ToastSuccess (msg : string).

Inductive Request : Type :=
| GET (url : string)
| POST (url : string)
| PUT (url : string).

Record World : Type := {
  state : State;                      (* useReducer state *)
  storage : option string;            (* localStorage item 'token' *)
  authorization : option string;      (* token of the default Authorization header *)
  sessionTimeoutRef : option nat;     (* handle of the warning timeout *)
  activityTimeoutRef : option nat;    (* handle of the auto-logout timeout *)
  timers : list Timer;                (* pending timeouts *)
  nextTimer : nat;                    (* next handle setTimeout returns *)
  toasts : list Toast;                (* notices emitted so far, oldest first *)
  sent : list Request;                (* requests issued so far, oldest first *)
  clock : Z;                          (* Date.now() *)
  timeoutDeps : option (bool * Z);    (* dependencies at the last run of the timeout effect *)
  interceptorAuth : bool              (* state.isAuthenticated as captured by the installed interceptor *)
}.

Definition set_state (s : State) (w : World) : World :=
  {| state := s; storage := storage w; authorization := authorization w;
     sessionTimeoutRef := sessionTimeoutRef w;
     activityTimeoutRef := activityTimeoutRef w;
     timers := timers w; nextTimer := nextTimer w; toasts := toasts w;
     sent := sent w; clock := clock w; timeoutDeps := timeoutDeps w;
     interceptorAuth := interceptorAuth w |}.

Definition set_credential (stored header : option string) (w : World) : World :=
  {| state := state w; storage := stored; authorization := header;
     sessionTimeoutRef := sessionTimeoutRef w;
     activityTimeoutRef := activityTimeoutRef w;
     timers := timers w; nextTimer := nextTimer w; toasts := toasts w;
     sent := sent w; clock := clock w; timeoutDeps := timeoutDeps w;
     interceptorAuth := interceptorAuth w |}.

Definition set_timers (sref aref : option nat) (ts : list Timer) (next : nat)
    (w : World) : World :=
  {| state := state w; storage := storage w; authorization := authorization w;
     sessionTimeoutRef := sref;
     activityTimeoutRef := aref;
     timers := ts; nextTimer := next; toasts := toasts w;
     sent := sent w; clock := clock w; timeoutDeps := timeoutDeps w;
     interceptorAuth := interceptorAuth w |}.

Definition set_toasts (ts : list Toast) (w : World) : World :=
  {| state := state w; storage := storage w; authorization := authorization w;
     sessionTimeoutRef := sessionTimeoutRef w;
     activityTimeoutRef := activityTimeoutRef w;
     timers := timers w; nextTimer := nextTimer w; toasts := ts;
     sent := sent w; clock := clock w; timeoutDeps := timeoutDeps w;
     interceptorAuth := interceptorAuth w |}.

Definition set_sent (rs : list Request) (w : World) : World :=
  {| state := state w; storage := storage w; authorization := authorization w;
     sessionTimeoutRef := sessionTimeoutRef w;
     activityTimeoutRef := activityTimeoutRef w;
     timers := timers w; nextTimer := nextTimer w; toasts := toasts w;
     sent := rs; clock := clock w; timeoutDeps := timeoutDeps w;
     interceptorAuth := interceptorAuth w |}.

Definition set_clock (t : Z) (w : World) : World :=
  {| state := state w; storage := storage w; authorization := authorization w;
     sessionTimeoutRef := sessionTimeoutRef w;
     activityTimeoutRef := activityTimeoutRef w;
     timers := timers w; nextTimer := nextTimer w; toasts := toasts w;
     sent := sent w; clock := t; timeoutDeps := timeoutDeps w;
     interceptorAuth := interceptorAuth w |}.

Definition set_rendered (deps : option (bool * Z)) (captured : bool)
    (w : World) : World :=
  {| state := state w; storage := storage w; authorization := authorization w;
     sessionTimeoutRef := sessionTimeoutRef w;
     activityTimeoutRef := activityTimeoutRef w;
     timers := timers w; nextTimer := nextTimer w; toasts := toasts w;
     sent := sent w; clock := clock w; timeoutDeps := deps;
     interceptorAuth := captured |}.

(** [dispatch(action)]: the reducer runs with the current clock. *)
Definition dispatch (a : Action) (w : World) : World :=
  set_state (authReducer (clock w) (state w) a) w.

Definition toast_error (msg : string) (w : World) : World :=
  set_toasts (toasts w ++ [ToastError msg]) w.

Definition toast_success (msg : string) (w : World) : World :=
  set_toasts (toasts w ++ [ToastSuccess msg]) w.

(** *** Timeouts *)

Definition SESSION_TIMEOUT : Z := 30 * 60 * 1000.
Definition WARNING_TIME : Z := 5 * 60 * 1000.

(** [clearTimeout(id)]: a handle that is not pending is ignored. *)
Definition clearTimeout (id : nat) (w : World) : World :=
  set_timers (sessionTimeoutRef w) (activityTimeoutRef w)
    (filter (fun t => negb (Nat.eqb (tid t) id)) (timers w)) (nextTimer w) w.

(** [if (ref.current) clearTimeout(ref.current)]; handles are positive. *)
Definition clearRef (ref : option nat) (w : World) : World :=
  match ref with
  | Some id => clearTimeout id w
  | None => w
  end.

(** The pair of guarded [clearTimeout] calls shared by the timeout effect,
    its cleanup, [logout] and [logoutSilent]. *)
Definition clearTimeouts (w : World) : World :=
  clearRef (activityTimeoutRef w) (clearRef (sessionTimeoutRef w) w).

(** [setTimeout(callback, delay)], returning the handle with the world. *)
Definition setTimeout (k : TimerKind) (delay : Z) (w : World) : nat * World :=
  let id := nextTimer w in
  (id,
   set_timers (sessionTimeoutRef w) (activityTimeoutRef w)
     (timers w ++ [{| tid := id; due := clock w + delay; kind := k |}])
     (S id) w).

(** *** Token attachment *)

(** [setAuthToken(token)] *)
Definition setAuthToken (tok : option string) (w : World) : bool * World :=
  match tok with
  | Some t =>
      if negb (t =? "")%string then
        let tokenParts := JS.split "." t in
        if Nat.eqb (List.length tokenParts) 3
        then (true, set_credential (Some t) (Some t) w)
        else (false, w)
      else (false, set_credential None None w)
  | None => (false, set_credential None None w)
  end.

(** [localStorage.removeItem('token')] followed by
    [delete axios.defaults.headers.common['Authorization']]. *)
Definition removeCredential (w : World) : World :=
  set_credential None None w.

(** *** Leaving the session *)

Definition logoutSilent (w : World) : World :=
  dispatch LOGOUT_SILENT (clearTimeouts (removeCredential w)).

Definition logout (w : World) : World :=
  toast_success "Logged out successfully"
    (dispatch LOGOUT (clearTimeouts (removeCredential w))).

Definition updateActivity (w : World) : World :=
  dispatch UPDATE_ACTIVITY w.

Definition clearErrors (w : World) : World :=
  dispatch CLEAR_ERRORS w.

(** *** The session-timeout effect and rendering *)

(** Body of the effect, run after a render whose dependencies
    [[state.isAuthenticated, state.lastActivity]] changed. *)
Definition timeoutEffect (w : World) : World :=
  if isAuthenticated (state w) && JS.truthy (token (state w)) then
    let w1 := clearTimeouts w in
    let (warn, w2) := setTimeout WarningTimer (SESSION_TIMEOUT - WARNING_TIME) w1 in
    let w3 := set_timers (Some warn) (activityTimeoutRef w2) (timers w2) (nextTimer w2) w2 in
    let (out, w4) := setTimeout LogoutTimer SESSION_TIMEOUT w3 in
    set_timers (sessionTimeoutRef w4) (Some out) (timers w4) (nextTimer w4) w4
  else w.

(** Cleanup function returned by the effect. *)
Definition timeoutCleanup (w : World) : World := clearTimeouts w.

Definition deps_eqb (a b : bool * Z) : bool :=
  Bool.eqb (fst a) (fst b) && (snd a =? snd b).

(** A render followed by its effects: the timeout effect is cleaned up and
    re-run when its dependencies changed, and the interceptor effect leaves
    the interceptor holding the rendered [state.isAuthenticated]. *)
Definition commit (w : World) : World :=
  let deps := (isAuthenticated (state w), lastActivity (state w)) in
  let w1 :=
    match timeoutDeps w with
    | None => timeoutEffect w
    | Some old =>
        if deps_eqb old deps then w else timeoutEffect (timeoutCleanup w)
    end in
  set_rendered (Some deps) (isAuthenticated (state w)) w1.

(** Unmounting the provider runs the cleanups. *)
Definition unmount (w : World) : World :=
  set_rendered None false (timeoutCleanup w).

(** A pending timeout runs: it is no longer pending and its callback is
    called. *)
Definition fire (t : Timer) (w : World) : World :=
  let w1 := clearTimeout (tid t) w in
  match kind t with
  | WarningTimer =>
      toast_error "Your session will expire in 5 minutes. Please save your work."
        (dispatch SESSION_WARNING w1)
  | LogoutTimer =>
      toast_error "Session expired due to inactivity. Please log in again."
        (logoutSilent w1)
  | ReloginTimer => logout w1
  end.

(** The provider as first rendered: [initialState] reads the persisted token
    and the clock; nothing is attached, no timeout is pending.  The call of
    [loadUser] made by the initialization effect is [initialize] below. *)
Definition mount (stored : option string) (now : Z) : World :=
  commit
    {| state := initialState stored now;
       storage := stored; authorization := None;
       sessionTimeoutRef := None; activityTimeoutRef := None;
       timers := []; nextTimer := 1; toasts := []; sent := [];
       clock := now; timeoutDeps := None; interceptorAuth := false |}.

(** ** Requests, responses and the 401 interceptor *)

(** What comes back for a request: a response with a status and a body, or
    no response at all (network failure, or a timeout whose [code] is
    ['ECONNABORTED']). *)
Inductive Raw : Type :=
| HttpResponse (status : Z) (data : Payload)
| NoResponse (code : option string) (message : string).

(** The value caught by a [catch]: an axios error or a thrown [Error]. *)
Record JsError : Type := {
  response : option (Z * Payload);
  code : option string;
  message : string
}.

Inductive Settled : Type :=
| Resolved (status : Z) (data : Payload)
| Rejected (e : JsError).

(** [new Error(msg)] *)
Definition Error (msg : string) : JsError :=
  {| response := None; code := None; message := msg |}.

(** [error.response?.status === s] *)
Definition status_is (s : Z) (e : JsError) : bool :=
  match response e with
  | Some (status, _) => status =? s
  | None => false
  end.

(** [error.response?.data?.message] *)
Definition response_message (e : JsError) : option string :=
  match response e with
  | Some (_, data) => p_message data
  | None => None
  end.

(** axios resolves the statuses its [validateStatus] accepts and rejects the
    others with an error carrying the response. *)
Definition defaultValidateStatus (status : Z) : bool :=
  (200 <=? status) && (status <? 300).

Definition settle (validateStatus : Z -> bool) (r : Raw) : Settled :=
  match r with
  | HttpResponse status data =>
      if validateStatus status then Resolved status data
      else Rejected
             {| response := Some (status, data);
                code := None;
                message := "Request failed with status code "
                           ++ NilZero.string_of_int (Z.to_int status) |}
  | NoResponse c m => Rejected {| response := None; code := c; message := m |}
  end.

(** A scripted server: the answer to the [n]-th request issued. *)
Definition Server : Type := nat -> Request -> Raw.

Definition refreshRequest : Request := POST "/api/auth/refresh".

(** Code of [refreshToken] after its [await]. *)
Definition refreshToken_then (r : Settled) (w : World) : bool * World :=
  match r with
  | Resolved _ data =>
      if JS.truthy (p_token data) then
        let (ok, w1) := setAuthToken (p_token data) w in
        if ok then (true, dispatch (TOKEN_REFRESH data) w1)
        else (false, logoutSilent w1)
      else (false, logoutSilent w)
  | Rejected _ => (false, logoutSilent w)
  end.

(** The rejection handler the interceptor effect registers, closed over the
    rendered [state.isAuthenticated] and over [refreshToken]. *)
Definition onRejected (refreshToken : World -> option (bool * World))
    (captured : bool) (e : JsError) (w : World) : option World :=
  if status_is 401 e && captured then
    match refreshToken w with
    | None => None
    | Some (success, w1) =>
        if negb success
        then Some (toast_error "Session expired. Please log in again." (logoutSilent w1))
        else Some w1
    end
  else Some w.

(** A request on the global axios instance: it is issued, answered by the
    server and settled; a rejection goes through the interceptor that was
    installed when the request was issued and is then rejected to the
    caller.  [None]: the handler did not finish. *)
Definition axios_with (refreshToken : World -> option (bool * World))
    (srv : Server) (validateStatus : Z -> bool) (req : Request) (w : World)
    : option (Settled * World) :=
  let captured := interceptorAuth w in
  let raw := srv (List.length (sent w)) req in
  let w1 := set_sent (sent w ++ [req]) w in
  match settle validateStatus raw with
  | Resolved status data => Some (Resolved status data, w1)
  | Rejected e =>
      match onRejected refreshToken captured e w1 with
      | None => None
      | Some w2 => Some (Rejected e, w2)
      end
  end.

(** [refreshToken()].  Its own request is made on the same axios instance,
    so the recursion through the interceptor is bounded by [fuel] here. *)
Fixpoint refreshToken (fuel : nat) (srv : Server) (w : World)
    : option (bool * World) :=
  match fuel with
  | O => None
  | S fuel' =>
      match axios_with (refreshToken fuel' srv) srv defaultValidateStatus
              refreshRequest w with
      | None => None
      | Some (r, w1) => Some (refreshToken_then r w1)
      end
  end.

Definition axios (fuel : nat) (srv : Server) :=
  axios_with (refreshToken fuel srv) srv.

(** Number of refresh requests among the requests issued. *)
Definition is_refresh (r : Request) : bool :=
  match r with
  | POST url => (url =? "/api/auth/refresh")%string
  | _ => false
  end.

Definition refreshCount (w : World) : nat :=
  List.length (filter is_refresh (sent w)).

(** ** Local validation of credentials *)

(** The class [\s] on code units below 256. *)
Definition is_space (c : ascii) : bool :=
  let n := nat_of_ascii c in
  (Nat.leb 9 n && Nat.leb n 13) || Nat.eqb n 32 || Nat.eqb n 160.

(** The class [[^\s@]]. *)
Definition email_char (c : ascii) : bool :=
  negb (is_space c) && negb (Ascii.eqb c "@").

(** [[^\s@]+] followed by the rest of the pattern [k]. *)
Fixpoint plus_email_char (k : string -> bool) (s : string) : bool :=
  match s with
  | EmptyString => false
  | String c s' => email_char c && (k s' || plus_email_char k s')
  end.

Definition literal (ch : ascii) (k : string -> bool) (s : string) : bool :=
  match s with
  | EmptyString => false
  | String c s' => Ascii.eqb c ch && k s'
  end.

Definition end_of_input (s : string) : bool :=
  match s with
  | EmptyString => true
  | String _ _ => false
  end.

(** [/^[^\s@]+@[^\s@]+\.[^\s@]+$/.test(s)] *)
Definition emailRegex_test (s : string) : bool :=
  plus_email_char
    (literal "@" (plus_email_char (literal "." (plus_email_char end_of_input)))) s.

(** The checks of [login] before its request: the message of the [Error]
    thrown, if any. *)
Definition login_validate (email password : string) : option string :=
  if (email =? "")%string || (password =? "")%string
  then Some "Email and password are required"
  else if negb (emailRegex_test email)
  then Some "Please enter a valid email address"
  else None.

Record FormData : Type := {
  f_email : string;
  f_password : string;
  f_firstName : string;
  f_lastName : string;
  f_role : string
}.

(** The checks of [register] before its request. *)
Definition register_validate (formData : FormData) : option string :=
  if (f_email formData =? "")%string || (f_password formData =? "")%string
     || (f_firstName formData =? "")%string || (f_lastName formData =? "")%string
     || (f_role formData =? "")%string
  then Some "All required fields must be filled"
  else if negb (emailRegex_test (f_email formData))
  then Some "Please enter a valid email address"
  else if Nat.ltb (String.length (f_password formData)) 8
  then Some "Password must be at least 8 characters long"
  else None.

(** ** Login and registration *)

(** What the callbacks return: [{ success: true, user }] or
    [{ success: false, error }]. *)
Inductive Outcome : Type :=
| Success (u : User)
| Failure (msg : string).

(** Reading [res.data.user.firstName] of a response without a user throws a
    [TypeError]; this is the message V8 gives it. *)
Definition TypeError_firstName : JsError :=
  Error "Cannot read properties of undefined (reading 'firstName')".

(** The [catch] block of [login] and [register]:
    [error.response?.data?.message || error.message || fallback]. *)
Definition auth_catch (fail : string -> Action) (fallback : string)
    (e : JsError) (w : World) : Outcome * World :=
  let msg :=
    JS.or_default (JS.or_else (response_message e) (Some (message e))) fallback in
  (Failure msg, toast_error msg (dispatch (fail msg) w)).

(** The code shared by [login] and [register] after their [await]. *)
Definition auth_then (ok : Payload -> Action) (fail : string -> Action)
    (greeting invalid fallback : string) (r : Settled) (w : World)
    : Outcome * World :=
  match r with
  | Rejected e => auth_catch fail fallback e w
  | Resolved _ data =>
      if JS.truthy (p_token data) then
        let (attached, w1) := setAuthToken (p_token data) w in
        if attached then
          let w2 := dispatch (ok data) w1 in
          match p_user data with
          | Some u =>
              (Success u, toast_success (greeting ++ firstName u ++ "!") w2)
          | None => auth_catch fail fallback TypeError_firstName w2
          end
        else auth_catch fail fallback (Error invalid) w1
      else auth_catch fail fallback (Error invalid) w
  end.

Definition login_then : Settled -> World -> Outcome * World :=
  auth_then LOGIN_SUCCESS LOGIN_FAIL "Welcome back, "
    "Login succeeded but token is invalid" "Login failed".

Definition register_then : Settled -> World -> Outcome * World :=
  auth_then REGISTER_SUCCESS REGISTER_FAIL
    "Welcome to the hospital management system, "
    "Registration succeeded but token is invalid" "Registration failed".

Definition loginRequest : Request := POST "/api/auth/login".
Definition registerRequest : Request := POST "/api/auth/register".

(** [login(email, password)] *)
Definition login (fuel : nat) (srv : Server) (email password : string)
    (w : World) : option (Outcome * World) :=
  let w0 := dispatch USER_LOADING w in
  match login_validate email password with
  | Some msg => Some (auth_catch LOGIN_FAIL "Login failed" (Error msg) w0)
  | None =>
      match axios fuel srv defaultValidateStatus loginRequest w0 with
      | None => None
      | Some (r, w1) => Some (login_then r w1)
      end
  end.

(** [register(formData)] *)
Definition register (fuel : nat) (srv : Server) (formData : FormData)
    (w : World) : option (Outcome * World) :=
  let w0 := dispatch USER_LOADING w in
  match register_validate formData with
  | Some msg => Some (auth_catch REGISTER_FAIL "Registration failed" (Error msg) w0)
  | None =>
      match axios fuel srv defaultValidateStatus registerRequest w0 with
      | None => None
      | Some (r, w1) => Some (register_then r w1)
      end
  end.

(** ** Profile and password *)

Definition profileRequest : Request := PUT "/api/auth/profile".
Definition changePasswordRequest : Request := POST "/api/auth/change-password".

(** Code of [updateProfile] after its [await]. *)
Definition updateProfile_then (r : Settled) (w : World) : World :=
  match r with
  | Resolved _ data =>
      toast_success "Profile updated successfully"
        (dispatch (USER_LOADED (p_user data)) w)
  | Rejected e =>
      toast_error (JS.or_default (response_message e) "Profile update failed") w
  end.

Definition updateProfile (fuel : nat) (srv : Server) (w : World)
    : option World :=
  match axios fuel srv defaultValidateStatus profileRequest w with
  | None => None
  | Some (r, w1) => Some (updateProfile_then r w1)
  end.

(** The [catch] block of [changePassword]. *)
Definition changePassword_catch (e : JsError) (w : World) : bool * World :=
  (false, toast_error (JS.or_default (response_message e) "Password change failed") w).

(** Code of [changePassword] after its [await]: on success the re-login is
    scheduled two seconds later. *)
Definition changePassword_then (r : Settled) (w : World) : bool * World :=
  match r with
  | Resolved _ _ =>
      let w1 := toast_success "Password changed successfully. Please log in again." w in
      (true, snd (setTimeout ReloginTimer 2000 w1))
  | Rejected e => changePassword_catch e w
  end.

Definition changePassword (fuel : nat) (srv : Server)
    (currentPassword newPassword : string) (w : World)
    : option (bool * World) :=
  if Nat.ltb (String.length newPassword) 8
  then Some (changePassword_catch
               (Error "New password must be at least 8 characters long") w)
  else
    match axios fuel srv defaultValidateStatus changePasswordRequest w with
    | None => None
    | Some (r, w1) => Some (changePassword_then r w1)
    end.

(** ** The axios instance of the pages ([utils/api])

    The pages do not use the global axios instance but one created with
    [axios.create], which has interceptors of its own: the provider's
    interceptor does not see their requests. *)

(** Its rejection handler: a 401 removes the persisted token and sends the
    browser to the login page; any other error is shown unless the request
    asked not to.  The second component is the page navigated to. *)
Definition api_onRejected (hideErrorToast : bool) (e : JsError) (w : World)
    : World * option string :=
  let msg := JS.or_default (response_message e) "Something went wrong" in
  if status_is 401 e
  then (set_credential None (authorization w) w, Some "/login")
  else if negb hideErrorToast then (toast_error msg w, None)
  else (w, None).

(** A request on that instance. *)
Definition api_request (srv : Server) (hideErrorToast : bool) (req : Request)
    (w : World) : Settled * World * option string :=
  let raw := srv (List.length (sent w)) req in
  let w1 := set_sent (sent w ++ [req]) w in
  match settle defaultValidateStatus raw with
  | Resolved status data => (Resolved status data, w1, None)
  | Rejected e =>
      let (w2, page) := api_onRejected hideErrorToast e w1 in
      (Rejected e, w2, page)
  end.

(** ** Token validation and the initial profile load *)

Section Builtins.

(** The host functions [isTokenValid] calls.  [atob] and [JSON_parse] give
    [None] where the host throws; [coerce] is [ToNumber] on the values that
    take the string route (strings, arrays, objects). *)
Variable atob : string -> option string.
Variable JSON_parse : string -> option JS.json.
Variable coerce : JS.json -> JS.number.

(** [ToNumber] of a property value ([None] is [undefined]). *)
Definition ToNumber (v : option JS.json) : JS.number :=
  match v with
  | None => JS.NaN
  | Some JS.JNull => JS.Finite 0
  | Some (JS.JBool b) => JS.Finite (if b then 1 else 0)
  | Some (JS.JNum n) => n
  | Some v' => coerce v'
  end.

(** [Date.now() / 1000]: the quotient of two doubles is the double nearest
    to their exact quotient, and [Date.now()] is an integer of milliseconds
    that a double holds exactly. *)
Definition currentTime (now : Z) : JS.number := JS.double (now # 1000).

(** [isTokenValid(token)]; every exception ends in the [catch], which
    returns [false]. *)
Definition isTokenValid (now : Z) (tok : option string) : bool :=
  match tok with
  | None => false
  | Some t =>
      if (t =? "")%string then false
      else
        let tokenParts := JS.split "." t in
        if negb (Nat.eqb (List.length tokenParts) 3) then false
        else
          match atob (nth 1 tokenParts "") with
          | None => false
          | Some decoded =>
              match JSON_parse decoded with
              | None => false
              | Some payload =>
                  match JS.get_prop "exp" payload with
                  | JS.Throw => false
                  | JS.Normal exp => JS.gt (ToNumber exp) (currentTime now)
                  end
              end
          end
  end.

Definition meRequest : Request := GET "/api/auth/me".

(** [validateStatus] of the profile request: 4xx answers are not rejected. *)
Definition meValidateStatus (status : Z) : bool := status <? 500.

(** The [catch] block of [loadUser]. *)
Definition loadUser_catch (e : JsError) (w : World) : World :=
  let w1 :=
    match response e with
    | Some (status, _) => if status =? 401 then removeCredential w else w
    | None => w
    end in
  dispatch
    (AUTH_ERROR (JS.or_default (response_message e) "Authentication verification failed"))
    w1.

(** Code of [loadUser] after its [await]. *)
Definition loadUser_then (r : Settled) (w : World) : World :=
  match r with
  | Resolved status data =>
      match p_user data with
      | Some u =>
          if status =? 200 then dispatch (USER_LOADED (Some u)) w
          else loadUser_catch (Error "Invalid user data received") w
      | None => loadUser_catch (Error "Invalid user data received") w
      end
  | Rejected e => loadUser_catch e w
  end.

(** [loadUser()] *)
Definition loadUser (fuel : nat) (srv : Server) (w : World) : option World :=
  let tok := storage w in
  if negb (JS.truthy tok) then Some (dispatch SET_INITIALIZED w)
  else if negb (isTokenValid (clock w) tok)
  then Some (dispatch SET_INITIALIZED (removeCredential w))
  else
    let (attached, w1) := setAuthToken tok w in
    if negb attached then Some (dispatch SET_INITIALIZED w1)
    else
      let w2 := dispatch USER_LOADING w1 in
      match axios fuel srv meValidateStatus meRequest w2 with
      | None => None
      | Some (r, w3) => Some (loadUser_then r w3)
      end.

(** The provider is mounted and its initialization effect calls
    [loadUser]. *)
Definition initialize (fuel : nat) (srv : Server) (stored : option string)
    (now : Z) : option World :=
  loadUser fuel srv (mount stored now).

End Builtins.

(** ** Role checks *)

(** [state.user?.role] *)
Definition user_role (s : State) : JS.value :=
  match user s with
  | Some u => role u
  | None => JS.Undefined
  end.

(** [hasRole(role)] *)
Definition hasRole (s : State) (r : JS.value) : bool :=
  JS.strict_eq (user_role s) r.

(** [hasAnyRole(roles)] *)
Definition hasAnyRole (s : State) (roles : list JS.value) : bool :=
  JS.includes roles (user_role s).

(** What the component returned by [withRoleAccess(allowedRoles)(Component)]
    renders. *)
Inductive View : Type :=
| AccessDenied
| Wrapped.

Definition withRoleAccess (allowedRoles : list JS.value) (s : State) : View :=
  match user s with
  | None => AccessDenied
  | Some _ => if negb (hasAnyRole s allowedRoles) then AccessDenied else Wrapped
  end.

(** ** A host to run the code on

    Executable stand-ins for the host functions, used to evaluate the
    provider on concrete tokens.  [atob] is the forgiving base64 decoder of
    the HTML standard.  [JSON_parse] reads the JSON grammar, with [\u]
    escapes limited to code units below 256 (others make it fail).  [coerce]
    is [Number] on strings, arrays and objects. *)

Module Host.

Definition is_b64_space (c : ascii) : bool :=
  let n := nat_of_ascii c in
  Nat.eqb n 9 || Nat.eqb n 10 || Nat.eqb n 12 || Nat.eqb n 13 || Nat.eqb n 32.

Definition sextet (c : ascii) : option nat :=
  let n := nat_of_ascii c in
  if Nat.leb 65 n && Nat.leb n 90 then Some (n - 65)%nat
  else if Nat.leb 97 n && Nat.leb n 122 then Some (n - 71)%nat
  else if Nat.leb 48 n && Nat.leb n 57 then Some (n + 4)%nat
  else if Nat.eqb n 43 then Some 62%nat
  else if Nat.eqb n 47 then Some 63%nat
  else None.

Fixpoint sextets (cs : list ascii) : option (list nat) :=
  match cs with
  | [] => Some []
  | c :: cs' =>
      match sextet c, sextets cs' with
      | Some v, Some vs => Some (v :: vs)
      | _, _ => None
      end
  end.

Fixpoint strip_padding (cs : list ascii) : list ascii :=
  match cs with
  | [c1; c2] =>
      if Ascii.eqb c2 "=" then (if Ascii.eqb c1 "=" then [] else [c1])
      else [c1; c2]
  | [c] => if Ascii.eqb c "=" then [] else [c]
  | c :: cs' => c :: strip_padding cs'
  | [] => []
  end.

Fixpoint octets (vs : list nat) : option (list ascii) :=
  match vs with
  | a :: b :: c :: d :: rest =>
      match octets rest with
      | Some out =>
          Some (ascii_of_nat (a * 4 + b / 16)
                :: ascii_of_nat ((b mod 16) * 16 + c / 4)
                :: ascii_of_nat ((c mod 4) * 64 + d) :: out)
      | None => None
      end
  | [a; b; c] =>
      Some [ascii_of_nat (a * 4 + b / 16); ascii_of_nat ((b mod 16) * 16 + c / 4)]
  | [a; b] => Some [ascii_of_nat (a * 4 + b / 16)]
  | [_] => None
  | [] => Some []
  end.

Definition atob (s : string) : option string :=
  let cs := filter (fun c => negb (is_b64_space c)) (list_ascii_of_string s) in
  let cs := if Nat.eqb (List.length cs mod 4) 0 then strip_padding cs else cs in
  match sextets cs with
  | Some vs =>
      match octets vs with
      | Some out => Some (string_of_list_ascii out)
      | None => None
      end
  | None => None
  end.

(** *** JSON *)

Definition is_json_space (c : ascii) : bool :=
  let n := nat_of_ascii c in
  Nat.eqb n 9 || Nat.eqb n 10 || Nat.eqb n 13 || Nat.eqb n 32.

Fixpoint skip_ws (cs : list ascii) : list ascii :=
  match cs with
  | c :: cs' => if is_json_space c then skip_ws cs' else cs
  | [] => []
  end.

Definition digit (c : ascii) : option Z :=
  let n := nat_of_ascii c in
  if Nat.leb 48 n && Nat.leb n 57 then Some (Z.of_nat (n - 48)) else None.

(** Leading decimal digits: their value, how many there are, what follows. *)
Fixpoint digits (acc : Z) (count : nat) (cs : list ascii) : Z * nat * list ascii :=
  match cs with
  | c :: cs' =>
      match digit c with
      | Some d => digits (acc * 10 + d) (S count) cs'
      | None => (acc, count, cs)
      end
  | [] => (acc, count, [])
  end.

(** [m * 10^e] as a rational. *)
Definition scale (m e : Z) : Q :=
  if 0 <=? e then (m * 10 ^ e) # 1 else m # Z.to_pos (10 ^ (- e)).

Definition hex_digit (c : ascii) : option nat :=
  let n := nat_of_ascii c in
  if Nat.leb 48 n && Nat.leb n 57 then Some (n - 48)%nat
  else if Nat.leb 65 n && Nat.leb n 70 then Some (n - 55)%nat
  else if Nat.leb 97 n && Nat.leb n 102 then Some (n - 87)%nat
  else None.

(** The part [. digits] and [e digits] of a number after its integer part
    [int], with [sign] applied at the end. *)
Definition fraction_exponent (negative : bool) (int : Z) (cs : list ascii)
    : option (Q * list ascii) :=
  let '(m, k, cs1) :=
    match cs with
    | "."%char :: cs' =>
        let '(m, k, rest) := digits int 0 cs' in
        (m, Some k, rest)
    | _ => (int, None, cs)
    end in
  match k with
  | Some O => None
  | _ =>
      let k := match k with Some k => Z.of_nat k | None => 0 end in
      let signed := if negative then - m else m in
      match cs1 with
      | e :: cs2 =>
          if Ascii.eqb e "e" || Ascii.eqb e "E" then
            let '(eneg, cs3) :=
              match cs2 with
              | "-"%char :: r => (true, r)
              | "+"%char :: r => (false, r)
              | _ => (false, cs2)
              end in
            let '(ev, ek, cs4) := digits 0 0 cs3 in
            match ek with
            | O => None
            | S _ => Some (scale signed ((if eneg then - ev else ev) - k), cs4)
            end
          else Some (scale signed (- k), cs1)
      | [] => Some (scale signed (- k), [])
      end
  end.

(** A JSON number at the head of [cs]. *)
Definition number_literal (cs : list ascii) : option (Q * list ascii) :=
  let '(negative, cs1) :=
    match cs with
    | "-"%char :: r => (true, r)
    | _ => (false, cs)
    end in
  match cs1 with
  | "0"%char :: r => fraction_exponent negative 0 r
  | _ =>
      let '(int, n, r) := digits 0 0 cs1 in
      match n with
      | O => None
      | S _ => fraction_exponent negative int r
      end
  end.

(** The characters of a string literal after its opening quote. *)
Fixpoint string_body (cs : list ascii) : option (string * list ascii) :=
  match cs with
  | [] => None
  | c :: cs' =>
      let n := nat_of_ascii c in
      if Nat.eqb n 34 then Some (EmptyString, cs')
      else if Nat.ltb n 32 then None
      else if Nat.eqb n 92 then
        match cs' with
        | [] => None
        | "u"%char :: h1 :: h2 :: h3 :: h4 :: rest =>
            match hex_digit h1, hex_digit h2, hex_digit h3, hex_digit h4 with
            | Some 0%nat, Some 0%nat, Some a, Some b =>
                match string_body rest with
                | Some (s, r) => Some (String (ascii_of_nat (a * 16 + b)) s, r)
                | None => None
                end
            | _, _, _, _ => None
            end
        | e :: rest =>
            let code :=
              let m := nat_of_ascii e in
              if Nat.eqb m 34 || Nat.eqb m 92 || Nat.eqb m 47 then Some m
              else if Ascii.eqb e "b" then Some 8%nat
              else if Ascii.eqb e "f" then Some 12%nat
              else if Ascii.eqb e "n" then Some 10%nat
              else if Ascii.eqb e "r" then Some 13%nat
              else if Ascii.eqb e "t" then Some 9%nat
              else None in
            match code with
            | Some m =>
                match string_body rest with
                | Some (s, r) => Some (String (ascii_of_nat m) s, r)
                | None => None
                end
            | None => None
            end
        end
      else
        match string_body cs' with
        | Some (s, r) => Some (String c s, r)
        | None => None
        end
  end.

Fixpoint starts_with (p cs : list ascii) : option (list ascii) :=
  match p, cs with
  | [], _ => Some cs
  | a :: p', c :: cs' => if Ascii.eqb a c then starts_with p' cs' else None
  | _ :: _, [] => None
  end.

(** A later member replaces an earlier one of the same name. *)
Fixpoint put (k : string) (v : JS.json) (fields : list (string * JS.json))
    : list (string * JS.json) :=
  match fields with
  | [] => [(k, v)]
  | (k', v') :: rest =>
      if (k =? k')%string then (k, v) :: rest else (k', v') :: put k v rest
  end.

Fixpoint value (fuel : nat) (cs : list ascii) : option (JS.json * list ascii) :=
  match fuel with
  | O => None
  | S fuel' =>
      match skip_ws cs with
      | [] => None
      | c :: rest =>
          let n := nat_of_ascii c in
          if Nat.eqb n 34 then
            match string_body rest with
            | Some (s, r) => Some (JS.JStr s, r)
            | None => None
            end
          else if Ascii.eqb c "[" then
            match skip_ws rest with
            | "]"%char :: r => Some (JS.JArr [], r)
            | _ => elements fuel' [] rest
            end
          else if Ascii.eqb c "{" then
            match skip_ws rest with
            | "}"%char :: r => Some (JS.JObj [], r)
            | _ => members fuel' [] rest
            end
          else if Ascii.eqb c "t" then
            option_map (pair (JS.JBool true)) (starts_with (list_ascii_of_string "rue") rest)
          else if Ascii.eqb c "f" then
            option_map (pair (JS.JBool false)) (starts_with (list_ascii_of_string "alse") rest)
          else if Ascii.eqb c "n" then
            option_map (pair JS.JNull) (starts_with (list_ascii_of_string "ull") rest)
          else
            match number_literal (c :: rest) with
            | Some (q, r) => Some (JS.JNum (JS.double q), r)
            | None => None
            end
      end
  end

with elements (fuel : nat) (acc : list JS.json) (cs : list ascii)
    : option (JS.json * list ascii) :=
  match fuel with
  | O => None
  | S fuel' =>
      match value fuel' cs with
      | Some (v, r) =>
          match skip_ws r with
          | ","%char :: r' => elements fuel' (acc ++ [v]) r'
          | "]"%char :: r' => Some (JS.JArr (acc ++ [v]), r')
          | _ => None
          end
      | None => None
      end
  end

with members (fuel : nat) (acc : list (string * JS.json)) (cs : list ascii)
    : option (JS.json * list ascii) :=
  match fuel with
  | O => None
  | S fuel' =>
      match skip_ws cs with
      | q :: r0 =>
          if Nat.eqb (nat_of_ascii q) 34 then
            match string_body r0 with
            | Some (k, r1) =>
                match skip_ws r1 with
                | ":"%char :: r2 =>
                    match value fuel' r2 with
                    | Some (v, r3) =>
                        match skip_ws r3 with
                        | ","%char :: r4 => members fuel' (put k v acc) r4
                        | "}"%char :: r4 => Some (JS.JObj (put k v acc), r4)
                        | _ => None
                        end
                    | None => None
                    end
                | _ => None
                end
            | None => None
            end
          else None
      | [] => None
      end
  end.

Definition JSON_parse (s : string) : option JS.json :=
  let cs := list_ascii_of_string s in
  match value (2 * List.length cs + 2) cs with
  | Some (v, r) =>
      match skip_ws r with
      | [] => Some v
      | _ :: _ => None
      end
  | None => None
  end.

(** [Number(s)]: white space is trimmed at both ends; what is left is
    nothing (zero), a hexadecimal, octal or binary integer without sign, or
    a decimal with an optional sign, fraction and exponent, or a signed
    [Infinity]; every other string is [NaN]. *)
Fixpoint drop_spaces (cs : list ascii) : list ascii :=
  match cs with
  | c :: cs' => if is_space c then drop_spaces cs' else cs
  | [] => []
  end.

Fixpoint radix_digits (radix acc : Z) (cs : list ascii) : option Z :=
  match cs with
  | [] => Some acc
  | c :: cs' =>
      match hex_digit c with
      | Some d =>
          if Z.of_nat d <? radix
          then radix_digits radix (acc * radix + Z.of_nat d) cs'
          else None
      | None => None
      end
  end.

Definition radix_literal (radix : Z) (cs : list ascii) : JS.number :=
  match cs with
  | [] => JS.NaN
  | _ :: _ =>
      match radix_digits radix 0 cs with
      | Some v => JS.double (v # 1)
      | None => JS.NaN
      end
  end.

(** An unsigned decimal: digits, a point with digits on at least one side,
    an exponent; nothing may follow. *)
Definition decimal_literal (cs : list ascii) : option Q :=
  let '(int, n, r) := digits 0 0 cs in
  let '(m, k, r1) :=
    match r with
    | "."%char :: r' => digits int 0 r'
    | _ => (int, 0%nat, r)
    end in
  if Nat.eqb (n + k) 0 then None
  else
    match r1 with
    | [] => Some (scale m (- Z.of_nat k))
    | e :: r2 =>
        if Ascii.eqb e "e" || Ascii.eqb e "E" then
          let '(eneg, r3) :=
            match r2 with
            | "-"%char :: r => (true, r)
            | "+"%char :: r => (false, r)
            | _ => (false, r2)
            end in
          let '(ev, ek, r4) := digits 0 0 r3 in
          match ek, r4 with
          | S _, [] => Some (scale m ((if eneg then - ev else ev) - Z.of_nat k))
          | _, _ => None
          end
        else None
    end.

Definition StringToNumber (s : string) : JS.number :=
  let cs := rev (drop_spaces (rev (drop_spaces (list_ascii_of_string s)))) in
  match cs with
  | [] => JS.Finite 0
  | "0"%char :: x :: r =>
      if Ascii.eqb x "x" || Ascii.eqb x "X" then radix_literal 16 r
      else if Ascii.eqb x "o" || Ascii.eqb x "O" then radix_literal 8 r
      else if Ascii.eqb x "b" || Ascii.eqb x "B" then radix_literal 2 r
      else
        match decimal_literal cs with
        | Some q => JS.double q
        | None => JS.NaN
        end
  | _ =>
      let '(negative, r) :=
        match cs with
        | "-"%char :: r => (true, r)
        | "+"%char :: r => (false, r)
        | _ => (false, cs)
        end in
      if (string_of_list_ascii r =? "Infinity")%string then JS.Infinity negative
      else
        match decimal_literal r with
        | Some q => JS.double (if negative then - q else q)%Q
        | None => JS.NaN
        end
  end.

(** [ToNumber] of a string, an array or an object.  An array goes through
    its string: the empty array and [[null]] give the empty string, an
    array of one element the string of that element, from which a number
    is read back as it was; the string of a longer array holds a comma, the
    string of a boolean or of an object is no number. *)
Fixpoint coerce (v : JS.json) : JS.number :=
  match v with
  | JS.JStr s => StringToNumber s
  | JS.JArr [] => JS.Finite 0
  | JS.JArr [x] =>
      match x with
      | JS.JNull => JS.Finite 0
      | JS.JNum n => n
      | JS.JStr s => StringToNumber s
      | JS.JArr _ => coerce x
      | JS.JBool _ | JS.JObj _ => JS.NaN
      end
  | _ => JS.NaN
  end.

End Host.

(** ** Time passing *)

(** Among [ts], the timeout due first; of two due together the one set
    first. *)
Fixpoint earliest (best : option Timer) (ts : list Timer) : option Timer :=
  match ts with
  | [] => best
  | t :: ts' =>
      earliest
        (match best with
         | None => Some t
         | Some b => if due t <? due b then Some t else Some b
         end) ts'
  end.

Definition next_due (target : Z) (w : World) : option Timer :=
  earliest None (filter (fun t => due t <=? target) (timers w)).

(** The clock moves to [target]; the timeouts due on the way run in order,
    each followed by a render. *)
Fixpoint elapse_to (fuel : nat) (target : Z) (w : World) : World :=
  match fuel with
  | O => set_clock target w
  | S fuel' =>
      match next_due target w with
      | None => set_clock target w
      | Some t =>
          elapse_to fuel' target
            (commit (fire t (set_clock (Z.max (clock w) (due t)) w)))
      end
  end.

Definition elapse (dt : Z) (w : World) : World :=
  elapse_to (List.length (timers w)) (clock w + dt) w.

(** ** Reachable worlds *)

(** The worlds the provider can be in: it is mounted, and then its
    primitive transitions happen in any order.  Every callback above and
    every continuation of one, run at any later moment, is a sequence of
    these. *)
Inductive Reachable : World -> Prop :=
| R_mount (stored : option string) (now : Z) :
    Reachable (mount stored now)
| R_dispatch (a : Action) (w : World) :
    Reachable w -> Reachable (dispatch a w)
| R_credential (stored header : option string) (w : World) :
    Reachable w -> Reachable (set_credential stored header w)
| R_clear (w : World) :
    Reachable w -> Reachable (clearTimeouts w)
| R_toasts (ts : list Toast) (w : World) :
    Reachable w -> Reachable (set_toasts ts w)
| R_sent (rs : list Request) (w : World) :
    Reachable w -> Reachable (set_sent rs w)
| R_relogin (w : World) :
    Reachable w -> Reachable (snd (setTimeout ReloginTimer 2000 w))
| R_fire (t : Timer) (w : World) :
    Reachable w -> In t (timers w) -> due t <= clock w -> Reachable (fire t w)
| R_tick (t : Z) (w : World) :
    Reachable w -> clock w <= t -> Reachable (set_clock t w)
| R_commit (w : World) :
    Reachable w -> Reachable (commit w).

(** Pending timeouts of one kind. *)
Definition kind_eqb (a b : TimerKind) : bool :=
  match a, b with
  | WarningTimer, WarningTimer => true
  | LogoutTimer, LogoutTimer => true
  | ReloginTimer, ReloginTimer => true
  | _, _ => false
  end.

Definition pending (k : TimerKind) (w : World) : list Timer :=
  filter (fun t => kind_eqb (kind t) k) (timers w).

(** A live session: authenticated and holding a token, the condition of the
    timeout effect. *)
Definition live (w : World) : bool :=
  isAuthenticated (state w) && JS.truthy (token (state w)).

(** The session fields, the persisted token and the attached credential are
    all cleared. *)
Definition cleared (w : World) : Prop :=
  isAuthenticated (state w) = false /\ token (state w) = None
  /\ user (state w) = None /\ sessionExpiry (state w) = None
  /\ storage w = None /\ authorization w = None.

(** ** Vocabulary of the statements *)

(** A non-empty run of characters that are neither white space nor [@]:
    what [[^\s@]+] matches. *)
Fixpoint all_email_chars (s : string) : bool :=
  match s with
  | EmptyString => true
  | String c s' => email_char c && all_email_chars s'
  end.

Definition email_part (s : string) : Prop :=
  s <> "" /\ all_email_chars s = true.

Fixpoint no_dot (s : string) : bool :=
  match s with
  | EmptyString => true
  | String c s' => negb (Ascii.eqb c ".") && no_dot s'
  end.

(** [t] is [h.p.s] with no further dot. *)
Definition three_segments (t h p s : string) : Prop :=
  t = h ++ "." ++ p ++ "." ++ s
  /\ no_dot h = true /\ no_dot p = true /\ no_dot s = true.

Section Acceptance.

Variable atob : string -> option string.
Variable JSON_parse : string -> option JS.json.
Variable coerce : JS.json -> JS.number.

(** The payload carries an expiry that [>] finds later than the current
    time in seconds. *)
Definition expiry_in_future (payload : JS.json) (now : Z) : Prop :=
  exists exp, JS.get_prop "exp" payload = JS.Normal exp
              /\ JS.gt (ToNumber coerce exp) (currentTime now) = true.

(** The token is [h.p.s], [p] decodes to a payload, and the payload's
    expiry is in the future. *)
Definition accepts (now : Z) (t : string) : Prop :=
  exists h p s decoded payload,
    three_segments t h p s
    /\ atob p = Some decoded
    /\ JSON_parse decoded = Some payload
    /\ expiry_in_future payload now.

End Acceptance.

(** An answer that is a server error, or no answer at all. *)
Definition server_failure (r : Raw) : Prop :=
  match r with
  | HttpResponse status _ => 500 <= status
  | NoResponse _ _ => True
  end.

(** The error [loadUser] catches for such an answer. *)
Definition failure_message (r : Raw) : string :=
  match r with
  | HttpResponse _ data => JS.or_default (p_message data) "Authentication verification failed"
  | NoResponse _ _ => "Authentication verification failed"
  end.

(** The token a refresh answer hands over, when [refreshToken] succeeds on
    it: a 2xx answer whose token is non-empty and has three segments. *)
Definition refresh_accepts (raw : Raw) : option string :=
  match raw with
  | HttpResponse status data =>
      if defaultValidateStatus status then
        match p_token data with
        | Some t =>
            if negb (t =? "")%string && Nat.eqb (List.length (JS.split "." t)) 3
            then Some t else None
        | None => None
        end
      else None
  | NoResponse _ _ => None
  end.

Definition is_401 (raw : Raw) : bool :=
  match raw with
  | HttpResponse status _ => status =? 401
  | NoResponse _ _ => false
  end.

(** Handles of pending timeouts are distinct and already handed out, and a
    pending warning or auto-logout timeout is the one its ref holds. *)
Definition tracked_by (w : World) (t : Timer) : Prop :=
  (kind t = WarningTimer -> sessionTimeoutRef w = Some (tid t))
  /\ (kind t = LogoutTimer -> activityTimeoutRef w = Some (tid t)).

Definition well_timed (w : World) : Prop :=
  NoDup (map tid (timers w))
  /\ Forall (fun t => (tid t < nextTimer w)%nat) (timers w)
  /\ Forall (tracked_by w) (timers w).

(** What [clearTimeouts] leaves pending. *)
Definition kept (ref : option nat) (t : Timer) : bool :=
  match ref with
  | Some id => negb (Nat.eqb (tid t) id)
  | None => true
  end.

(** ** Worlds used in the examples *)

Module Example.

(** A token of three segments whose payload is [{"exp":9999999999}], and
    one whose payload is [{"exp":1}]. *)
Definition jwt : string := "h.eyJleHAiOjk5OTk5OTk5OTl9.s".
Definition stale_jwt : string := "h.eyJleHAiOjF9.s".

Definition nurse : User := {| firstName := "Ada"; role := JS.Str "nurse" |}.

Definition issued (t : string) : Payload :=
  {| p_token := Some t; p_user := Some nurse;
     p_expiresIn := Some 3600; p_message := None |}.

Definition empty : Payload :=
  {| p_token := None; p_user := None; p_expiresIn := None; p_message := None |}.

(** A server answering every request with the status [s]. *)
Definition always (s : Z) : Server := fun _ _ => HttpResponse s empty.

(** A server issuing the token [t] to every request. *)
Definition issues (t : string) : Server := fun _ _ => HttpResponse 200 (issued t).

(** A server answering [401] to every request but the [n]-th made (counted
    from 0), which it answers with a fresh token. *)
Definition reissues_at (n : nat) : Server :=
  fun i _ => if Nat.eqb i n then HttpResponse 200 (issued "n.e.w")
             else HttpResponse 401 empty.

(** The provider started at clock [1000] with nothing persisted. *)
Definition started : World :=
  match initialize Host.atob Host.JSON_parse Host.coerce 1 (always 200) None 1000 with
  | Some w => commit w
  | None => mount None 1000
  end.

(** The same after a login that succeeded: the login request is the one
    request made so far. *)
Definition signed_in : World :=
  match login 1 (issues jwt) "ada@example.org" "correct horse" started with
  | Some (_, w) => commit w
  | None => started
  end.

End Example.

(** ** Further vocabulary *)

(** The world as a render leaves it: the timeout effect has run for the
    current [state.isAuthenticated] and [state.lastActivity]. *)
Definition rendered (w : World) : Prop :=
  timeoutDeps w = Some (isAuthenticated (state w), lastActivity (state w)).

(** An answer that axios rejects with its default [validateStatus], and the
    message [login] and [register] report for it:
    [error.response?.data?.message || error.message || fallback]. *)
Definition rejected_message (fallback : string) (raw : Raw) : option string :=
  match settle defaultValidateStatus raw with
  | Resolved _ _ => None
  | Rejected e =>
      Some (JS.or_default (JS.or_else (response_message e) (Some (message e)))
              fallback)
  end.

(** The handles the two refs hold were handed out before, and neither is
    the handle of a pending re-login timeout. *)
Definition refs_apart (w : World) : Prop :=
  forall id,
    sessionTimeoutRef w = Some id \/ activityTimeoutRef w = Some id ->
    (id < nextTimer w)%nat
    /\ forall t, In t (timers w) -> kind t = ReloginTimer -> tid t <> id.

(** ** The pages that use the provider *)

(** *** Strings *)

(** [s.trim()]: white space and line terminators, the class [\s], are
    removed at both ends. *)
Fixpoint trimStart (s : string) : string :=
  match s with
  | EmptyString => EmptyString
  | String c s' => if is_space c then trimStart s' else s
  end.

Fixpoint trimEnd (s : string) : string :=
  match s with
  | EmptyString => EmptyString
  | String c s' =>
      let r := trimEnd s' in
      if is_space c && (r =? "")%string then EmptyString else String c r
  end.

Definition trim (s : string) : string := trimEnd (trimStart s).

(** The class [\d]. *)
Definition is_digit (c : ascii) : bool :=
  let n := nat_of_ascii c in Nat.leb 48 n && Nat.leb n 57.

(** [\d{n}] followed by the rest of the pattern [k]. *)
Fixpoint digits_then (n : nat) (k : string -> bool) (s : string) : bool :=
  match n with
  | O => k s
  | S n' =>
      match s with
      | EmptyString => false
      | String c s' => is_digit c && digits_then n' k s'
      end
  end.

(** [/^\d{10}$/.test(s)] *)
Definition phoneRegex_test (s : string) : bool :=
  digits_then 10 end_of_input s.

(** [validateEmail] and [validatePhone] of [utils/api]. *)
Definition validateEmail (email : string) : bool := emailRegex_test email.
Definition validatePhone (phone : string) : bool := phoneRegex_test phone.

(** *** The registration page *)

Record Contact : Type := {
  c_name : string;
  c_relationship : string;
  c_phone : string
}.

(** The fields of the form that [validateForm] and [register] read. *)
Record RegisterForm : Type := {
  r_firstName : string;
  r_lastName : string;
  r_email : string;
  r_password : string;
  r_confirmPassword : string;
  r_phone : string;
  r_role : string;
  r_emergencyContact : Contact
}.

(** [newErrors[key] = msg] on an object kept as an association list. *)
Fixpoint set_error (key msg : string) (errors : list (string * string))
    : list (string * string) :=
  match errors with
  | [] => [(key, msg)]
  | (k, m) :: rest =>
      if (k =? key)%string then (key, msg) :: rest
      else (k, m) :: set_error key msg rest
  end.

Definition when (b : bool) (key msg : string) (errors : list (string * string))
    : list (string * string) :=
  if b then set_error key msg errors else errors.

(** The object [newErrors] that [validateForm] builds. *)
Definition validateForm_errors (formData : RegisterForm) : list (string * string) :=
  let e := [] in
  let e := when (trim (r_firstName formData) =? "")%string
             "firstName" "First name is required" e in
  let e := when (trim (r_lastName formData) =? "")%string
             "lastName" "Last name is required" e in
  let e := when (trim (r_email formData) =? "")%string
             "email" "Email is required" e in
  let e := when (r_password formData =? "")%string
             "password" "Password is required" e in
  let e := when (r_confirmPassword formData =? "")%string
             "confirmPassword" "Please confirm your password" e in
  let e := when (trim (r_phone formData) =? "")%string
             "phone" "Phone number is required" e in
  let e := when (negb (r_email formData =? "")%string
                 && negb (emailRegex_test (r_email formData)))
             "email" "Please enter a valid email address" e in
  let e := when (negb (r_password formData =? "")%string
                 && Nat.ltb (String.length (r_password formData)) 6)
             "password" "Password must be at least 6 characters long" e in
  let e := when (negb (r_password formData =? r_confirmPassword formData)%string)
             "confirmPassword" "Passwords do not match" e in
  let e := when (negb (r_phone formData =? "")%string
                 && negb (phoneRegex_test (r_phone formData)))
             "phone" "Please enter a valid 10-digit phone number" e in
  if (r_role formData =? "patient")%string then
    let e := when (trim (c_name (r_emergencyContact formData)) =? "")%string
               "emergencyContact.name" "Emergency contact name is required" e in
    if (trim (c_phone (r_emergencyContact formData)) =? "")%string
    then set_error "emergencyContact.phone" "Emergency contact phone is required" e
    else when (negb (phoneRegex_test (c_phone (r_emergencyContact formData))))
           "emergencyContact.phone" "Please enter a valid 10-digit phone number" e
  else e.

(** [validateForm()]: whether [newErrors] has no key. *)
Definition validateForm (formData : RegisterForm) : bool :=
  match validateForm_errors formData with
  | [] => true
  | _ :: _ => false
  end.

(** What [register] reads of the form it is handed. *)
Definition submitted (formData : RegisterForm) : FormData :=
  {| f_email := r_email formData;
     f_password := r_password formData;
     f_firstName := r_firstName formData;
     f_lastName := r_lastName formData;
     f_role := r_role formData |}.

(** [onSubmit] of the registration page: [register] is called only for a
    form that [validateForm] passes.  [None] as outcome: it was not
    called. *)
Definition Register_onSubmit (fuel : nat) (srv : Server)
    (formData : RegisterForm) (w : World) : option (option Outcome * World) :=
  if negb (validateForm formData) then Some (None, w)
  else
    match register fuel srv (submitted formData) w with
    | None => None
    | Some (o, w') => Some (Some o, w')
    end.

(** *** The profile page *)

(** What [handlePasswordSubmit] comes to: the alert about the confirmation,
    or the result of [changePassword]. *)
Inductive PasswordSubmit : Type :=
| Mismatch
| Changed (success : bool).

Definition handlePasswordSubmit (fuel : nat) (srv : Server)
    (currentPassword newPassword confirmPassword : string) (w : World)
    : option (PasswordSubmit * World) :=
  if negb (newPassword =? confirmPassword)%string then Some (Mismatch, w)
  else
    match changePassword fuel srv currentPassword newPassword w with
    | None => None
    | Some (success, w') => Some (Changed success, w')
    end.

(** *** The side bar *)

Record NavItem : Type := {
  nav_path : string;
  nav_name : string;
  nav_icon : string;
  nav_roles : list JS.value
}.

Definition baseItems : list NavItem :=
  [{| nav_path := "/dashboard"; nav_name := "Dashboard";
      nav_icon := "fas fa-tachometer-alt";
      nav_roles := [JS.Str "admin"; JS.Str "doctor"; JS.Str "patient";
                    JS.Str "pharmacist"] |};
   {| nav_path := "/patients"; nav_name := "Patients";
      nav_icon := "fas fa-user-injured";
      nav_roles := [JS.Str "admin"; JS.Str "doctor"; JS.Str "patient"] |};
   {| nav_path := "/doctors"; nav_name := "Doctors";
      nav_icon := "fas fa-user-md";
      nav_roles := [JS.Str "admin"; JS.Str "patient"] |};
   {| nav_path := "/appointments"; nav_name := "Appointments";
      nav_icon := "fas fa-calendar-alt";
      nav_roles := [JS.Str "admin"; JS.Str "doctor"; JS.Str "patient"] |};
   {| nav_path := "/medicines"; nav_name := "Medicines";
      nav_icon := "fas fa-pills";
      nav_roles := [JS.Str "admin"; JS.Str "pharmacist"; JS.Str "doctor"] |}].

(** [getNavigationItems()] *)
Definition getNavigationItems (s : State) : list NavItem :=
  filter (fun item => JS.includes (nav_roles item) (user_role s)) baseItems.

(** *** The routes of the application *)

Inductive Page : Type :=
| DashboardPage
| PatientsPage
| DoctorsPage
| AppointmentsPage
| MedicinesPage
| ProfilePage
| LoginPage
| RegisterPage.

(** What a route renders. *)
Inductive Element : Type :=
| LoadingSpinner
| PageOf (p : Page)
| NavigateTo (to : string)
| Empty.

(** [ProtectedRoute] and [PublicRoute] around [children]. *)
Definition ProtectedRoute (s : State) (children : Element) : Element :=
  if loading s then LoadingSpinner
  else if isAuthenticated s then children else NavigateTo "/login".

Definition PublicRoute (s : State) (children : Element) : Element :=
  if loading s then LoadingSpinner
  else if negb (isAuthenticated s) then children else NavigateTo "/dashboard".

Section Routing.

(** The router's test of a pathname against a route pattern. *)
Variable matchPath : string -> string -> bool.

(** [<Routes>]: the element of a route that matches, and nothing when none
    does.  Taken here is the first in the order listed: in the two lists
    below only the catch-all, listed last and ranked last by the router,
    overlaps with another pattern.  The properties proved use no more than
    that the element rendered is one of those listed. *)
Fixpoint Routes (routes : list (string * Element)) (pathname : string) : Element :=
  match routes with
  | [] => Empty
  | (pattern, element) :: rest =>
      if matchPath pattern pathname then element else Routes rest pathname
  end.

Definition protectedRoutes (s : State) : list (string * Element) :=
  [("/dashboard", ProtectedRoute s (PageOf DashboardPage));
   ("/patients", ProtectedRoute s (PageOf PatientsPage));
   ("/doctors", ProtectedRoute s (PageOf DoctorsPage));
   ("/appointments", ProtectedRoute s (PageOf AppointmentsPage));
   ("/medicines", ProtectedRoute s (PageOf MedicinesPage));
   ("/profile", ProtectedRoute s (PageOf ProfilePage));
   ("/", NavigateTo "/dashboard");
   ("*", NavigateTo "/dashboard")].

Definition authRoutes (s : State) : list (string * Element) :=
  [("/login", PublicRoute s (PageOf LoginPage));
   ("/register", PublicRoute s (PageOf RegisterPage));
   ("*", NavigateTo "/login")].

(** What [App] renders: the spinner, or its two blocks, the first with the
    side bar and the navigation bar around the protected routes, the second
    with the routes of the login and registration pages. *)
Record Screen : Type := {
  spinner : bool;
  mainBlock : option Element;
  authBlock : option Element
}.

Definition isAuthPage (pathname : string) : bool :=
  (pathname =? "/login")%string || (pathname =? "/register")%string.

Definition App (s : State) (pathname : string) : Screen :=
  if loading s then
    {| spinner := true; mainBlock := None; authBlock := None |}
  else
    {| spinner := false;
       mainBlock :=
         if isAuthenticated s && negb (isAuthPage pathname)
         then Some (Routes (protectedRoutes s) pathname) else None;
       authBlock :=
         if negb (isAuthenticated s)
         then Some (Routes (authRoutes s) pathname) else None |}.

(** The effect of [App]: where it navigates to, if it does. *)
Definition App_redirect (s : State) (pathname : string) : option string :=
  if isAuthenticated s && isAuthPage pathname then Some "/dashboard" else None.

End Routing.

(** A protected page. *)
Definition protected_page (e : Element) : bool :=
  match e with
  | PageOf LoginPage | PageOf RegisterPage => false
  | PageOf _ => true
  | _ => false
  end.

(** A stand-in for the router's matching: the pattern itself, or the
    catch-all. *)
Definition exact_match (pattern pathname : string) : bool :=
  (pattern =? "*")%string || (pattern =? pathname)%string.

(** ** [debounce] of [utils/api] *)

(** A timeout set by the debounced function: its handle, the time it is
    due, and the arguments its [later] closes over. *)
Record Scheduled (A : Type) : Type := {
  s_handle : nat;
  s_due : Z;
  s_args : A
}.
Arguments s_handle {A} _.
Arguments s_due {A} _.
Arguments s_args {A} _.

(** The closure that [debounce(func, wait)] returns, with its
    surroundings: its variable [timeout], the timeouts pending, the next
    handle and the clock of the host, and the arguments [func] was called
    with so far, oldest first. *)
Record Debounced (A : Type) : Type := {
  d_timeout : option nat;
  d_pending : list (Scheduled A);
  d_next : nat;
  d_now : Z;
  d_calls : list A
}.
Arguments d_timeout {A} _.
Arguments d_pending {A} _.
Arguments d_next {A} _.
Arguments d_now {A} _.
Arguments d_calls {A} _.

(** [debounce(func, wait)]: [timeout] is declared and nothing is set. *)
Definition debounce {A : Type} (next : nat) (now : Z) : Debounced A :=
  {| d_timeout := None; d_pending := []; d_next := next; d_now := now;
     d_calls := [] |}.

(** [clearTimeout(timeout)]: [undefined] and handles that are not pending
    are ignored. *)
Definition d_clearTimeout {A : Type} (h : option nat) (d : Debounced A)
    : Debounced A :=
  match h with
  | None => d
  | Some id =>
      {| d_timeout := d_timeout d;
         d_pending := filter (fun e => negb (Nat.eqb (s_handle e) id)) (d_pending d);
         d_next := d_next d; d_now := d_now d; d_calls := d_calls d |}
  end.

(** The delay of [setTimeout(later, wait)] for an integer [wait]: it is
    converted to a signed 32-bit integer, and a negative delay is [0]. *)
Definition ToInt32 (x : Z) : Z :=
  let m := x mod 2 ^ 32 in
  if m <? 2 ^ 31 then m else m - 2 ^ 32.

Definition d_delay (wait : Z) : Z := Z.max 0 (ToInt32 wait).

(** [executedFunction(...args)] *)
Definition executedFunction {A : Type} (wait : Z) (args : A) (d : Debounced A)
    : Debounced A :=
  let d1 := d_clearTimeout (d_timeout d) d in
  {| d_timeout := Some (d_next d1);
     d_pending := d_pending d1
                  ++ [{| s_handle := d_next d1; s_due := d_now d1 + d_delay wait;
                         s_args := args |}];
     d_next := S (d_next d1); d_now := d_now d1; d_calls := d_calls d1 |}.

(** [later()], closed over [args]. *)
Definition later {A : Type} (args : A) (d : Debounced A) : Debounced A :=
  let d1 := d_clearTimeout (d_timeout d) d in
  {| d_timeout := d_timeout d1; d_pending := d_pending d1; d_next := d_next d1;
     d_now := d_now d1; d_calls := d_calls d1 ++ [args] |}.

(** A pending timeout runs: it is no longer pending and its [later] is
    called. *)
Definition d_fire {A : Type} (e : Scheduled A) (d : Debounced A) : Debounced A :=
  later (s_args e) (d_clearTimeout (Some (s_handle e)) d).

Definition d_set_now {A : Type} (t : Z) (d : Debounced A) : Debounced A :=
  {| d_timeout := d_timeout d; d_pending := d_pending d; d_next := d_next d;
     d_now := t; d_calls := d_calls d |}.

Fixpoint d_earliest {A : Type} (best : option (Scheduled A))
    (es : list (Scheduled A)) : option (Scheduled A) :=
  match es with
  | [] => best
  | e :: rest =>
      d_earliest
        (match best with
         | None => Some e
         | Some b => if s_due e <? s_due b then Some e else Some b
         end) rest
  end.

(** The timeout that runs next, if one is due by [target]. *)
Definition d_next_due {A : Type} (target : Z) (d : Debounced A)
    : option (Scheduled A) :=
  d_earliest None (filter (fun e => s_due e <=? target) (d_pending d)).

(** Time passes until [target]: the timeouts due by then run in the order
    in which they are due. *)
Fixpoint d_elapse_to {A : Type} (fuel : nat) (target : Z) (d : Debounced A)
    : Debounced A :=
  match fuel with
  | O => d_set_now target d
  | S fuel' =>
      match d_next_due target d with
      | None => d_set_now target d
      | Some e =>
          d_elapse_to fuel' target
            (d_fire e (d_set_now (Z.max (d_now d) (s_due e)) d))
      end
  end.

Definition d_elapse {A : Type} (dt : Z) (d : Debounced A) : Debounced A :=
  d_elapse_to (List.length (d_pending d)) (d_now d + dt) d.

(** Calls of the debounced function, each made [gap] after the one
    before. *)
Fixpoint d_burst {A : Type} (wait : Z) (calls : list (Z * A)) (d : Debounced A)
    : Debounced A :=
  match calls with
  | [] => d
  | (gap, args) :: rest =>
      d_burst wait rest (executedFunction wait args (d_elapse gap d))
  end.

(** At most one timeout is pending, and [timeout] holds its handle. *)
Definition d_single {A : Type} (d : Debounced A) : Prop :=
  match d_pending d with
  | [] => True
  | [e] => d_timeout d = Some (s_handle e)
  | _ :: _ :: _ => False
  end.

(** Vocabulary for the statements about the pages: strings of white space
    only, and strings of digits only. *)
Fixpoint all_spaces (s : string) : bool :=
  match s with
  | EmptyString => true
  | String c s' => is_space c && all_spaces s'
  end.

Fixpoint all_digits (s : string) : bool :=
  match s with
  | EmptyString => true
  | String c s' => is_digit c && all_digits s'
  end.

(** The roles that the side bar knows. *)
Definition known_roles : list JS.value :=
  [JS.Str "admin"; JS.Str "doctor"; JS.Str "patient"; JS.Str "pharmacist"].

(** * Properties *)

(** ** What each transition leaves alone *)

Ltac split_refs w :=
  destruct (sessionTimeoutRef w) eqn:?, (activityTimeoutRef w) eqn:?.

Lemma clearTimeouts_frame w :
  state (clearTimeouts w) = state w
  /\ storage (clearTimeouts w) = storage w
  /\ authorization (clearTimeouts w) = authorization w
  /\ toasts (clearTimeouts w) = toasts w
  /\ sent (clearTimeouts w) = sent w
  /\ clock (clearTimeouts w) = clock w
  /\ sessionTimeoutRef (clearTimeouts w) = sessionTimeoutRef w
  /\ activityTimeoutRef (clearTimeouts w) = activityTimeoutRef w
  /\ nextTimer (clearTimeouts w) = nextTimer w
  /\ timeoutDeps (clearTimeouts w) = timeoutDeps w
  /\ interceptorAuth (clearTimeouts w) = interceptorAuth w.
Proof.
  unfold clearTimeouts, clearRef, clearTimeout.
  split_refs w; simpl; repeat split; congruence.
Qed.

Lemma state_clearTimeouts w : state (clearTimeouts w) = state w.
Proof. apply clearTimeouts_frame. Qed.
Lemma storage_clearTimeouts w : storage (clearTimeouts w) = storage w.
Proof. apply clearTimeouts_frame. Qed.
Lemma authorization_clearTimeouts w : authorization (clearTimeouts w) = authorization w.
Proof. apply clearTimeouts_frame. Qed.
Lemma toasts_clearTimeouts w : toasts (clearTimeouts w) = toasts w.
Proof. apply clearTimeouts_frame. Qed.
Lemma sent_clearTimeouts w : sent (clearTimeouts w) = sent w.
Proof. apply clearTimeouts_frame. Qed.
Lemma clock_clearTimeouts w : clock (clearTimeouts w) = clock w.
Proof. apply clearTimeouts_frame. Qed.
Lemma sessionTimeoutRef_clearTimeouts w :
  sessionTimeoutRef (clearTimeouts w) = sessionTimeoutRef w.
Proof. apply clearTimeouts_frame. Qed.
Lemma activityTimeoutRef_clearTimeouts w :
  activityTimeoutRef (clearTimeouts w) = activityTimeoutRef w.
Proof. apply clearTimeouts_frame. Qed.
Lemma nextTimer_clearTimeouts w : nextTimer (clearTimeouts w) = nextTimer w.
Proof. apply clearTimeouts_frame. Qed.
Lemma timeoutDeps_clearTimeouts w : timeoutDeps (clearTimeouts w) = timeoutDeps w.
Proof. apply clearTimeouts_frame. Qed.
Lemma interceptorAuth_clearTimeouts w :
  interceptorAuth (clearTimeouts w) = interceptorAuth w.
Proof. apply clearTimeouts_frame. Qed.

Create Rewrite HintDb frame.
#[local] Hint Rewrite state_clearTimeouts storage_clearTimeouts
  authorization_clearTimeouts toasts_clearTimeouts sent_clearTimeouts
  clock_clearTimeouts sessionTimeoutRef_clearTimeouts
  activityTimeoutRef_clearTimeouts nextTimer_clearTimeouts
  timeoutDeps_clearTimeouts interceptorAuth_clearTimeouts : frame.

(** Unfold the transitions built from setters and push the projections
    through them. *)
Ltac frame :=
  unfold logout, logoutSilent, removeCredential, toast_error, toast_success,
    dispatch, updateActivity, clearErrors, timeoutCleanup in *;
  simpl; autorewrite with frame; simpl.

Lemma timeoutEffect_frame w :
  state (timeoutEffect w) = state w
  /\ storage (timeoutEffect w) = storage w
  /\ authorization (timeoutEffect w) = authorization w
  /\ toasts (timeoutEffect w) = toasts w
  /\ sent (timeoutEffect w) = sent w
  /\ clock (timeoutEffect w) = clock w.
Proof.
  unfold timeoutEffect.
  destruct (isAuthenticated (state w) && JS.truthy (token (state w)));
    frame; repeat split; reflexivity.
Qed.

Lemma commit_frame w :
  state (commit w) = state w
  /\ storage (commit w) = storage w
  /\ authorization (commit w) = authorization w
  /\ toasts (commit w) = toasts w
  /\ sent (commit w) = sent w
  /\ clock (commit w) = clock w.
Proof.
  unfold commit. simpl.
  destruct (timeoutDeps w) as [old|].
  - destruct (deps_eqb old _).
    + repeat split; reflexivity.
    + destruct (timeoutEffect_frame (timeoutCleanup w)) as (E1 & E2 & E3 & E4 & E5 & E6).
      rewrite E1, E2, E3, E4, E5, E6. frame. repeat split; reflexivity.
  - apply timeoutEffect_frame.
Qed.

Lemma state_commit w : state (commit w) = state w.
Proof. apply commit_frame. Qed.
Lemma storage_commit w : storage (commit w) = storage w.
Proof. apply commit_frame. Qed.
Lemma authorization_commit w : authorization (commit w) = authorization w.
Proof. apply commit_frame. Qed.
Lemma toasts_commit w : toasts (commit w) = toasts w.
Proof. apply commit_frame. Qed.
Lemma sent_commit w : sent (commit w) = sent w.
Proof. apply commit_frame. Qed.
Lemma clock_commit w : clock (commit w) = clock w.
Proof. apply commit_frame. Qed.

#[local] Hint Rewrite state_commit storage_commit authorization_commit
  toasts_commit sent_commit clock_commit : frame.

Lemma state_logoutSilent w :
  state (logoutSilent w) = authReducer (clock w) (state w) LOGOUT_SILENT.
Proof. frame. reflexivity. Qed.

Lemma state_logout w :
  state (logout w) = authReducer (clock w) (state w) LOGOUT.
Proof. frame. reflexivity. Qed.

Lemma logoutSilent_frame w :
  storage (logoutSilent w) = None /\ authorization (logoutSilent w) = None
  /\ toasts (logoutSilent w) = toasts w /\ sent (logoutSilent w) = sent w
  /\ clock (logoutSilent w) = clock w
  /\ interceptorAuth (logoutSilent w) = interceptorAuth w.
Proof. frame. repeat split; reflexivity. Qed.

Lemma storage_logoutSilent w : storage (logoutSilent w) = None.
Proof. apply logoutSilent_frame. Qed.
Lemma authorization_logoutSilent w : authorization (logoutSilent w) = None.
Proof. apply logoutSilent_frame. Qed.
Lemma toasts_logoutSilent w : toasts (logoutSilent w) = toasts w.
Proof. apply logoutSilent_frame. Qed.
Lemma sent_logoutSilent w : sent (logoutSilent w) = sent w.
Proof. apply logoutSilent_frame. Qed.
Lemma clock_logoutSilent w : clock (logoutSilent w) = clock w.
Proof. apply logoutSilent_frame. Qed.
Lemma interceptorAuth_logoutSilent w :
  interceptorAuth (logoutSilent w) = interceptorAuth w.
Proof. apply logoutSilent_frame. Qed.

Lemma toast_error_frame msg w :
  state (toast_error msg w) = state w
  /\ storage (toast_error msg w) = storage w
  /\ authorization (toast_error msg w) = authorization w
  /\ sent (toast_error msg w) = sent w
  /\ toasts (toast_error msg w) = (toasts w ++ [ToastError msg])%list.
Proof. repeat split; reflexivity. Qed.

Lemma state_toast_error msg w : state (toast_error msg w) = state w.
Proof. reflexivity. Qed.
Lemma storage_toast_error msg w : storage (toast_error msg w) = storage w.
Proof. reflexivity. Qed.
Lemma authorization_toast_error msg w :
  authorization (toast_error msg w) = authorization w.
Proof. reflexivity. Qed.
Lemma sent_toast_error msg w : sent (toast_error msg w) = sent w.
Proof. reflexivity. Qed.
Lemma toasts_toast_error msg w :
  toasts (toast_error msg w) = (toasts w ++ [ToastError msg])%list.
Proof. reflexivity. Qed.

Lemma state_fire t w :
  state (fire t w) =
  authReducer (clock w) (state w)
    match kind t with
    | WarningTimer => SESSION_WARNING
    | LogoutTimer => LOGOUT_SILENT
    | ReloginTimer => LOGOUT
    end.
Proof.
  unfold fire. destruct (kind t); frame; reflexivity.
Qed.

(** ** The callbacks keep the world reachable *)

Lemma reachable_setAuthToken tok w :
  Reachable w -> Reachable (snd (setAuthToken tok w)).
Proof.
  intros Hr. unfold setAuthToken.
  destruct tok as [t|]; [|apply R_credential, Hr].
  destruct (negb (t =? "")%string); [|apply R_credential, Hr].
  destruct (Nat.eqb _ 3); simpl; [apply R_credential, Hr | exact Hr].
Qed.

Lemma reachable_logoutSilent w : Reachable w -> Reachable (logoutSilent w).
Proof.
  intros Hr. unfold logoutSilent, removeCredential.
  apply R_dispatch, R_clear, R_credential, Hr.
Qed.

Lemma reachable_logout w : Reachable w -> Reachable (logout w).
Proof.
  intros Hr. unfold logout, removeCredential.
  apply R_toasts, R_dispatch, R_clear, R_credential, Hr.
Qed.

Lemma reachable_auth_catch fail fallback e w :
  Reachable w -> Reachable (snd (auth_catch fail fallback e w)).
Proof. intros Hr. unfold auth_catch. simpl. apply R_toasts, R_dispatch, Hr. Qed.

Lemma reachable_auth_then ok fail greeting invalid fallback r w :
  Reachable w ->
  Reachable (snd (auth_then ok fail greeting invalid fallback r w)).
Proof.
  intros Hr. unfold auth_then.
  destruct r as [status data|e]; [|apply reachable_auth_catch, Hr].
  destruct (JS.truthy (p_token data)); [|apply reachable_auth_catch, Hr].
  pose proof (reachable_setAuthToken (p_token data) w Hr) as Hs.
  destruct (setAuthToken (p_token data) w) as [attached w1]. simpl in Hs.
  destruct attached; [|apply reachable_auth_catch, Hs].
  destruct (p_user data).
  - simpl. apply R_toasts, R_dispatch, Hs.
  - apply reachable_auth_catch, R_dispatch, Hs.
Qed.

Lemma reachable_refreshToken_then r w :
  Reachable w -> Reachable (snd (refreshToken_then r w)).
Proof.
  intros Hr. unfold refreshToken_then.
  destruct r as [status data|e]; [|apply reachable_logoutSilent, Hr].
  destruct (JS.truthy (p_token data)); [|apply reachable_logoutSilent, Hr].
  pose proof (reachable_setAuthToken (p_token data) w Hr) as Hs.
  destruct (setAuthToken (p_token data) w) as [attached w1]. simpl in Hs.
  destruct attached; simpl.
  - apply R_dispatch, Hs.
  - apply reachable_logoutSilent, Hs.
Qed.

Lemma reachable_axios_with refresh srv validateStatus req w r w' :
  (forall w0 ok w1, Reachable w0 -> refresh w0 = Some (ok, w1) -> Reachable w1) ->
  Reachable w ->
  axios_with refresh srv validateStatus req w = Some (r, w') ->
  Reachable w'.
Proof.
  intros Hrefresh Hr. unfold axios_with, onRejected.
  pose proof (R_sent (sent w ++ [req]) w Hr) as Hs.
  destruct (settle validateStatus _) as [status data|e].
  - intros [= _ <-]. exact Hs.
  - destruct (status_is 401 e && interceptorAuth w).
    + destruct (refresh _) as [[ok w1]|] eqn:Hcall; [|discriminate].
      apply Hrefresh in Hcall; [|exact Hs].
      destruct ok; cbn [negb]; intros [= _ <-].
      * exact Hcall.
      * apply R_toasts, reachable_logoutSilent, Hcall.
    + intros [= _ <-]. exact Hs.
Qed.

Lemma reachable_refreshToken fuel srv w ok w' :
  Reachable w -> refreshToken fuel srv w = Some (ok, w') -> Reachable w'.
Proof.
  revert w ok w'. induction fuel as [|fuel IH]; intros w ok w' Hr; simpl.
  - discriminate.
  - destruct (axios_with _ srv defaultValidateStatus refreshRequest w)
      as [[r w1]|] eqn:Hax; [|discriminate].
    apply reachable_axios_with in Hax; [|exact IH|exact Hr].
    intros [= Hthen].
    replace w' with (snd (refreshToken_then r w1)) by (rewrite Hthen; reflexivity).
    apply reachable_refreshToken_then, Hax.
Qed.

Lemma reachable_axios fuel srv validateStatus req w r w' :
  Reachable w -> axios fuel srv validateStatus req w = Some (r, w') ->
  Reachable w'.
Proof. apply reachable_axios_with. apply reachable_refreshToken. Qed.

Lemma reachable_login fuel srv email password w o w' :
  Reachable w -> login fuel srv email password w = Some (o, w') -> Reachable w'.
Proof.
  intros Hr. unfold login.
  pose proof (R_dispatch USER_LOADING w Hr) as H0.
  destruct (login_validate email password) as [msg|].
  - intros [= _ <-]. apply R_toasts, R_dispatch, H0.
  - destruct (axios fuel srv defaultValidateStatus loginRequest _)
      as [[r w1]|] eqn:Hax; [|discriminate].
    apply reachable_axios in Hax; [|exact H0].
    intros [= Hthen].
    replace w' with (snd (login_then r w1)) by (rewrite Hthen; reflexivity).
    apply reachable_auth_then, Hax.
Qed.

Lemma reachable_register fuel srv formData w o w' :
  Reachable w -> register fuel srv formData w = Some (o, w') -> Reachable w'.
Proof.
  intros Hr. unfold register.
  pose proof (R_dispatch USER_LOADING w Hr) as H0.
  destruct (register_validate formData) as [msg|].
  - intros [= _ <-]. apply R_toasts, R_dispatch, H0.
  - destruct (axios fuel srv defaultValidateStatus registerRequest _)
      as [[r w1]|] eqn:Hax; [|discriminate].
    apply reachable_axios in Hax; [|exact H0].
    intros [= Hthen].
    replace w' with (snd (register_then r w1)) by (rewrite Hthen; reflexivity).
    apply reachable_auth_then, Hax.
Qed.

Lemma reachable_updateProfile fuel srv w w' :
  Reachable w -> updateProfile fuel srv w = Some w' -> Reachable w'.
Proof.
  intros Hr. unfold updateProfile.
  destruct (axios fuel srv defaultValidateStatus profileRequest w)
    as [[r w1]|] eqn:Hax; [|discriminate].
  apply reachable_axios in Hax; [|exact Hr].
  intros [= <-]. unfold updateProfile_then.
  destruct r; [apply R_toasts, R_dispatch, Hax | apply R_toasts, Hax].
Qed.

Lemma reachable_changePassword fuel srv current new w ok w' :
  Reachable w -> changePassword fuel srv current new w = Some (ok, w') ->
  Reachable w'.
Proof.
  intros Hr. unfold changePassword, changePassword_catch.
  destruct (Nat.ltb _ 8).
  - intros [= _ <-]. apply R_toasts, Hr.
  - destruct (axios fuel srv defaultValidateStatus changePasswordRequest w)
      as [[r w1]|] eqn:Hax; [|discriminate].
    apply reachable_axios in Hax; [|exact Hr].
    unfold changePassword_then, changePassword_catch.
    destruct r; intros [= _ <-].
    + apply (R_relogin _ (R_toasts _ _ Hax)).
    + apply R_toasts, Hax.
Qed.

Lemma reachable_loadUser atob JSON_parse coerce fuel srv w w' :
  Reachable w -> loadUser atob JSON_parse coerce fuel srv w = Some w' ->
  Reachable w'.
Proof.
  intros Hr. unfold loadUser.
  destruct (negb (JS.truthy (storage w))).
  { intros [= <-]. apply R_dispatch, Hr. }
  destruct (negb (isTokenValid _ _ _ _ _)).
  { intros [= <-]. apply R_dispatch, R_credential, Hr. }
  pose proof (reachable_setAuthToken (storage w) w Hr) as Hs.
  destruct (setAuthToken (storage w) w) as [attached w1]. simpl in Hs.
  destruct (negb attached).
  { intros [= <-]. apply R_dispatch, Hs. }
  destruct (axios fuel srv meValidateStatus meRequest _)
    as [[r w3]|] eqn:Hax; [|discriminate].
  apply reachable_axios in Hax; [|apply R_dispatch, Hs].
  intros [= <-]. unfold loadUser_then, loadUser_catch.
  destruct r as [status data|e].
  - destruct (p_user data); [destruct (status =? 200)|];
      simpl; apply R_dispatch, Hax.
  - destruct (response e) as [[status data]|]; [destruct (status =? 401)|];
      try apply R_dispatch, R_credential, Hax; apply R_dispatch, Hax.
Qed.

Lemma reachable_api_request srv hide req w :
  Reachable w -> Reachable (snd (fst (api_request srv hide req w))).
Proof.
  intros Hr. unfold api_request, api_onRejected.
  pose proof (R_sent (sent w ++ [req]) w Hr) as Hs.
  destruct (settle defaultValidateStatus _) as [status data|e]; [exact Hs|].
  destruct (status_is 401 e); [apply R_credential, Hs|].
  destruct (negb hide); [apply R_toasts, Hs | exact Hs].
Qed.

Lemma reachable_started : Reachable Example.started.
Proof.
  unfold Example.started, initialize.
  destruct (loadUser _ _ _ _ _ _) as [w|] eqn:Hload; [|apply R_mount].
  apply R_commit, (reachable_loadUser _ _ _ _ _ _ _ (R_mount _ _) Hload).
Qed.

Lemma reachable_signed_in : Reachable Example.signed_in.
Proof.
  unfold Example.signed_in.
  destruct (login _ _ _ _ _) as [[o w]|] eqn:Hlogin; [|apply reachable_started].
  apply R_commit, (reachable_login _ _ _ _ _ _ _ reachable_started Hlogin).
Qed.

(** ** Role checks without a user (C10) *)

(** Every reducer case that leaves the session unauthenticated leaves it
    without a user. *)
Lemma reducer_keeps_no_user_when_unauthenticated now s a :
  (isAuthenticated s = false -> user s = None) ->
  isAuthenticated (authReducer now s a) = false ->
  user (authReducer now s a) = None.
Proof.
  intros IH. destruct a; simpl; intros H; auto; discriminate.
Qed.

Lemma reachable_unauthenticated_no_user w :
  Reachable w -> isAuthenticated (state w) = false -> user (state w) = None.
Proof.
  induction 1 as [stored now | a w _ IH | s h w _ IH | w _ IH | ts w _ IH
                 | rs w _ IH | w _ IH | t w _ IH Hin Hdue | t w _ IH Hle
                 | w _ IH].
  - unfold mount. rewrite state_commit. reflexivity.
  - apply reducer_keeps_no_user_when_unauthenticated, IH.
  - exact IH.
  - rewrite state_clearTimeouts. exact IH.
  - exact IH.
  - exact IH.
  - exact IH.
  - rewrite state_fire.
    apply reducer_keeps_no_user_when_unauthenticated, IH.
  - exact IH.
  - rewrite state_commit. exact IH.
Qed.

Lemma includes_absent roles :
  ~ In JS.Undefined roles -> JS.includes roles JS.Undefined = false.
Proof.
  unfold JS.includes.
  induction roles as [|r roles IH]; simpl; intros Hnot.
  - reflexivity.
  - destruct r as [| |r].
    + exfalso. apply Hnot. left. reflexivity.
    + simpl. apply IH. tauto.
    + simpl. apply IH. tauto.
Qed.

(** C10.  With no user loaded, [hasRole] is false for every role string and
    [hasAnyRole] is false for every list of roles without [undefined] in it,
    so the role-gating wrapper shows the access-denied view; and in every
    reachable world an unauthenticated session has no user loaded, so every
    unauthenticated visitor gets that view. *)
Theorem no_user_no_role :
  (forall s, user s = None ->
     (forall r, hasRole s (JS.Str r) = false)
     /\ (forall roles, ~ In JS.Undefined roles -> hasAnyRole s roles = false)
     /\ (forall allowedRoles, withRoleAccess allowedRoles s = AccessDenied))
  /\ (forall w, Reachable w -> isAuthenticated (state w) = false ->
        user (state w) = None
        /\ forall allowedRoles, withRoleAccess allowedRoles (state w) = AccessDenied).
Proof.
  assert (A : forall s, user s = None ->
     (forall r, hasRole s (JS.Str r) = false)
     /\ (forall roles, ~ In JS.Undefined roles -> hasAnyRole s roles = false)
     /\ (forall allowedRoles, withRoleAccess allowedRoles s = AccessDenied)).
  { intros s Hu. unfold hasRole, hasAnyRole, withRoleAccess, user_role.
    rewrite Hu. repeat split.
    intros roles Hnot. apply includes_absent, Hnot. }
  split; [exact A|].
  intros w Hr Hf.
  pose proof (reachable_unauthenticated_no_user w Hr Hf) as Hu.
  split; [exact Hu|]. apply A, Hu.
Qed.

Lemma no_user_no_role_witness :
  user (state (mount None 0)) = None
  /\ hasRole (state (mount None 0)) (JS.Str "admin") = false
  /\ hasAnyRole (state (mount None 0)) [JS.Str "admin"; JS.Str "doctor"] = false
  /\ withRoleAccess [JS.Str "admin"] (state (mount None 0)) = AccessDenied
  /\ Reachable (logout Example.signed_in)
  /\ isAuthenticated (state (logout Example.signed_in)) = false
  /\ withRoleAccess [JS.Str "nurse"] (state (logout Example.signed_in)) = AccessDenied.
Proof.
  destruct no_user_no_role as [A B].
  destruct (A (state (mount None 0)) eq_refl) as (H1 & H2 & H3).
  pose proof (reachable_logout _ reachable_signed_in) as Hr.
  split; [reflexivity|].
  split; [apply H1|].
  split; [apply H2; simpl; intros [H|[H|[]]]; discriminate|].
  split; [apply H3|].
  split; [exact Hr|].
  split; [reflexivity|].
  apply (B (logout Example.signed_in) Hr eq_refl).
Defined.

(** The restriction on the list is needed: [undefined] is a member of a
    list that holds it, while [null] in the list does not match it. *)
Example hasAnyRole_of_undefined :
  hasAnyRole (state (mount None 0)) [JS.Str "admin"; JS.Undefined] = true
  /\ hasAnyRole (state (mount None 0)) [JS.Str "admin"; JS.Null] = false.
Proof. split; reflexivity. Qed.

(** ** Session expiry recorded at login (C9) *)

Lemma setAuthToken_three_segments t w :
  t <> "" -> List.length (JS.split "." t) = 3%nat ->
  setAuthToken (Some t) w = (true, set_credential (Some t) (Some t) w).
Proof.
  intros Hne Hlen. unfold setAuthToken.
  destruct (String.eqb_spec t ""); [contradiction|]. simpl.
  rewrite Hlen. reflexivity.
Qed.

Lemma truthy_Some t : t <> "" -> JS.truthy (Some t) = true.
Proof.
  intros Hne. unfold JS.truthy.
  destruct (String.eqb_spec t ""); [contradiction|reflexivity].
Qed.

(** A request that the server answers with an accepted status resolves
    without touching the interceptor. *)
Lemma axios_resolved refresh srv validateStatus req w status data :
  srv (List.length (sent w)) req = HttpResponse status data ->
  validateStatus status = true ->
  axios_with refresh srv validateStatus req w =
  Some (Resolved status data, set_sent (sent w ++ [req]) w).
Proof.
  intros Hsrv Hok. unfold axios_with, settle. rewrite Hsrv, Hok. reflexivity.
Qed.

(** C9.  A login answered with a token, a user and a declared lifetime of
    3600 seconds records [sessionExpiry] as the clock read when the answer
    is reduced (also recorded as [lastActivity]) plus 3600 seconds; when no
    lifetime is declared, [sessionExpiry] is [null]. *)
Theorem login_records_declared_lifetime
    fuel srv email password w status data t u :
  login_validate email password = None ->
  srv (List.length (sent w)) loginRequest = HttpResponse status data ->
  defaultValidateStatus status = true ->
  p_token data = Some t -> t <> "" ->
  List.length (JS.split "." t) = 3%nat ->
  p_user data = Some u ->
  exists w',
    login fuel srv email password w = Some (Success u, w')
    /\ isAuthenticated (state w') = true
    /\ lastActivity (state w') = clock w
    /\ (p_expiresIn data = Some 3600 ->
        sessionExpiry (state w') = Some (lastActivity (state w') + 3600 * 1000))
    /\ (p_expiresIn data = None -> sessionExpiry (state w') = None).
Proof.
  intros Hval Hsrv Hok Htok Hne Hlen Huser.
  unfold login. rewrite Hval. unfold axios.
  rewrite (axios_resolved _ srv defaultValidateStatus loginRequest
             (dispatch USER_LOADING w) status data Hsrv Hok).
  unfold login_then, auth_then.
  rewrite Htok, (truthy_Some t Hne), (setAuthToken_three_segments t _ Hne Hlen), Huser.
  eexists. split; [reflexivity|].
  simpl. split; [reflexivity|]. split; [reflexivity|].
  unfold expiryOf. split; intros ->; reflexivity.
Qed.

Lemma login_records_declared_lifetime_witness :
  exists w',
    login 1 (fun _ _ => HttpResponse 200 (Example.issued Example.jwt))
      "a@b.com" "correct horse" (mount None 1000)
    = Some (Success Example.nurse, w')
    /\ sessionExpiry (state w') = Some (1000 + 3600 * 1000).
Proof.
  destruct (login_records_declared_lifetime 1
              (fun _ _ => HttpResponse 200 (Example.issued Example.jwt))
              "a@b.com" "correct horse" (mount None 1000) 200
              (Example.issued Example.jwt) Example.jwt Example.nurse)
    as (w' & Hlogin & _ & Hact & Hexp & _);
    try reflexivity.
  - discriminate.
  - exists w'. split; [exact Hlogin|].
    rewrite (Hexp eq_refl), Hact. reflexivity.
Defined.

(** A declared lifetime of zero is falsy and recorded as no lifetime. *)
Example zero_lifetime_is_none now s p :
  p_expiresIn p = Some 0 ->
  sessionExpiry (authReducer now s (LOGIN_SUCCESS p)) = None.
Proof. intros H. simpl. unfold expiryOf. rewrite H. reflexivity. Qed.

(** ** Requests only accumulate *)

Lemma sent_refreshToken_then r w :
  sent (snd (refreshToken_then r w)) = sent w.
Proof.
  unfold refreshToken_then, setAuthToken.
  destruct r as [status data|e]; [|apply sent_logoutSilent].
  destruct (JS.truthy (p_token data)); [|apply sent_logoutSilent].
  destruct (p_token data) as [t|];
    [|cbn [snd]; rewrite sent_logoutSilent; reflexivity].
  destruct (negb (t =? "")%string);
    [|cbn [snd]; rewrite sent_logoutSilent; reflexivity].
  destruct (Nat.eqb _ 3); cbn [snd]; [reflexivity|apply sent_logoutSilent].
Qed.

(** If the refresh callback only appends to the requests sent, so does a
    request made through the interceptor, and the request itself comes
    first. *)
Lemma axios_with_sent refresh srv validateStatus req w r w' :
  (forall w0 ok w1, refresh w0 = Some (ok, w1) ->
     exists more, sent w1 = (sent w0 ++ more)%list) ->
  axios_with refresh srv validateStatus req w = Some (r, w') ->
  exists more, sent w' = (sent w ++ req :: more)%list.
Proof.
  intros Hrefresh. unfold axios_with, onRejected.
  destruct (settle validateStatus _) as [status data|e].
  - intros [= _ <-]. exists []. reflexivity.
  - destruct (status_is 401 e && interceptorAuth w).
    + destruct (refresh _) as [[ok w1]|] eqn:Hr; [|discriminate].
      apply Hrefresh in Hr. destruct Hr as [more Hmore]. simpl in Hmore.
      destruct ok; cbn [negb]; intros [= _ <-].
      * exists more. rewrite Hmore, <- app_assoc. reflexivity.
      * exists more.
        rewrite sent_toast_error, sent_logoutSilent, Hmore, <- app_assoc.
        reflexivity.
    + intros [= _ <-]. exists []. reflexivity.
Qed.

Lemma refreshToken_sent_first fuel srv w ok w' :
  refreshToken fuel srv w = Some (ok, w') ->
  exists more, sent w' = (sent w ++ refreshRequest :: more)%list.
Proof.
  revert w ok w'. induction fuel as [|fuel IH]; intros w ok w'; simpl.
  - discriminate.
  - destruct (axios_with _ srv defaultValidateStatus refreshRequest w)
      as [[r w1]|] eqn:Hax; [|discriminate].
    apply axios_with_sent in Hax.
    + destruct Hax as [more Hmore].
      intros [= Hthen]. exists more. rewrite <- Hmore.
      replace w' with (snd (refreshToken_then r w1)) by (rewrite Hthen; reflexivity).
      apply sent_refreshToken_then.
    + intros w0 ok0 w2 H0. destruct (IH w0 ok0 w2 H0) as [more Hmore].
      exists (refreshRequest :: more). exact Hmore.
Qed.

Lemma refreshToken_sent fuel srv w ok w' :
  refreshToken fuel srv w = Some (ok, w') ->
  exists more, sent w' = (sent w ++ more)%list.
Proof.
  intros H. destruct (refreshToken_sent_first fuel srv w ok w' H) as [more Hmore].
  exists (refreshRequest :: more). exact Hmore.
Qed.

Lemma axios_sent fuel srv validateStatus req w r w' :
  axios fuel srv validateStatus req w = Some (r, w') ->
  exists more, sent w' = (sent w ++ req :: more)%list.
Proof. apply axios_with_sent. apply refreshToken_sent. Qed.

(** With no authenticated session rendered, the interceptor lets every
    answer through and the request is the only one made. *)
Lemma axios_unauthenticated fuel srv validateStatus req w :
  interceptorAuth w = false ->
  axios fuel srv validateStatus req w =
  Some (settle validateStatus (srv (List.length (sent w)) req),
        set_sent (sent w ++ [req]) w).
Proof.
  intros Hno. unfold axios, axios_with, onRejected. rewrite Hno.
  destruct (settle validateStatus _) as [status data|e].
  - reflexivity.
  - rewrite andb_false_r. reflexivity.
Qed.

Lemma sent_auth_catch fail fallback e w :
  sent (snd (auth_catch fail fallback e w)) = sent w.
Proof. reflexivity. Qed.

Lemma sent_auth_then ok fail greeting invalid fallback r w :
  sent (snd (auth_then ok fail greeting invalid fallback r w)) = sent w.
Proof.
  unfold auth_then.
  destruct r as [status data|e]; [|reflexivity].
  destruct (JS.truthy (p_token data)); [|reflexivity].
  unfold setAuthToken.
  destruct (p_token data) as [t|]; [|reflexivity].
  destruct (negb (t =? "")%string); [|reflexivity].
  destruct (Nat.eqb _ 3); [|reflexivity].
  destruct (p_user data); reflexivity.
Qed.

(** ** Local validation before a request (C5) *)

(** *** What the email pattern matches *)

Lemma plus_email_char_spec k s :
  plus_email_char k s = true <->
  exists a r, s = a ++ r /\ email_part a /\ k r = true.
Proof.
  induction s as [|c s IH]; simpl.
  - split; [discriminate|].
    intros (a & r & Hs & [Hne _] & _).
    destruct a; [contradiction Hne; reflexivity | discriminate Hs].
  - split.
    + intros H. apply andb_prop in H. destruct H as [Hc H].
      apply orb_prop in H. destruct H as [H|H].
      * exists (String c ""), s. split; [reflexivity|].
        split; [|exact H]. split; [discriminate|]. simpl. rewrite Hc. reflexivity.
      * apply IH in H. destruct H as (a & r & -> & [Hne Hall] & Hk).
        exists (String c a), r. split; [reflexivity|].
        split; [|exact Hk]. split; [discriminate|]. simpl. rewrite Hc. exact Hall.
    + intros (a & r & Hs & [Hne Hall] & Hk).
      destruct a as [|c' a]; [contradiction Hne; reflexivity|].
      simpl in Hs. injection Hs as <- ->.
      simpl in Hall. apply andb_prop in Hall. destruct Hall as [Hc Hall].
      rewrite Hc. simpl. apply orb_true_iff.
      destruct a as [|c'' a].
      * left. exact Hk.
      * right. apply IH. exists (String c'' a), r.
        split; [reflexivity|]. split; [|exact Hk]. split; [discriminate|exact Hall].
Qed.

Lemma literal_spec ch k s :
  literal ch k s = true <-> exists r, s = String ch r /\ k r = true.
Proof.
  destruct s as [|c s]; simpl.
  - split; [discriminate | intros (r & Hs & _); discriminate Hs].
  - split.
    + intros H. apply andb_prop in H. destruct H as [Hc Hk].
      apply Ascii.eqb_eq in Hc. subst c. exists s. split; [reflexivity|exact Hk].
    + intros (r & [= -> ->] & Hk). rewrite Ascii.eqb_refl. exact Hk.
Qed.

Lemma end_of_input_spec s : end_of_input s = true <-> s = "".
Proof. destruct s; simpl; split; congruence. Qed.

Lemma append_empty s : s ++ "" = s.
Proof. induction s as [|c s IH]; simpl; [|rewrite IH]; reflexivity. Qed.

(** The pattern matches [a@b.c] with [a], [b] and [c] non-empty and free of
    white space and [@]; [b] and [c] may hold further dots. *)
Lemma emailRegex_test_spec s :
  emailRegex_test s = true <->
  exists a b c, s = a ++ "@" ++ b ++ "." ++ c
                /\ email_part a /\ email_part b /\ email_part c.
Proof.
  unfold emailRegex_test. split.
  - intros H.
    apply plus_email_char_spec in H. destruct H as (a & r1 & -> & Ha & H).
    apply literal_spec in H. destruct H as (r2 & -> & H).
    apply plus_email_char_spec in H. destruct H as (b & r3 & -> & Hb & H).
    apply literal_spec in H. destruct H as (r4 & -> & H).
    apply plus_email_char_spec in H. destruct H as (c & r5 & -> & Hc & H).
    apply end_of_input_spec in H. subst r5.
    exists a, b, c. rewrite append_empty.
    split; [reflexivity|]. split; [exact Ha|]. split; [exact Hb | exact Hc].
  - intros (a & b & c & -> & Ha & Hb & Hc).
    apply plus_email_char_spec. exists a, ("@" ++ b ++ "." ++ c).
    split; [reflexivity|]. split; [exact Ha|].
    apply literal_spec. exists (b ++ "." ++ c). split; [reflexivity|].
    apply plus_email_char_spec. exists b, ("." ++ c).
    split; [reflexivity|]. split; [exact Hb|].
    apply literal_spec. exists c. split; [reflexivity|].
    apply plus_email_char_spec. exists c, "".
    split; [symmetry; apply append_empty|]. split; [exact Hc|reflexivity].
Qed.

Lemma login_validate_spec email password :
  login_validate email password = None <->
  email <> "" /\ password <> "" /\ emailRegex_test email = true.
Proof.
  unfold login_validate.
  destruct (String.eqb_spec email ""), (String.eqb_spec password ""); simpl;
    try (split; [discriminate | tauto]).
  destruct (emailRegex_test email); simpl.
  - tauto.
  - split; [discriminate | intros (_ & _ & H); discriminate H].
Qed.

Lemma login_validate_message email password msg :
  login_validate email password = Some msg -> msg <> "".
Proof.
  unfold login_validate.
  destruct ((email =? "")%string || (password =? "")%string).
  - intros [= <-]. discriminate.
  - destruct (negb (emailRegex_test email)); [|discriminate].
    intros [= <-]. discriminate.
Qed.

Lemma auth_catch_thrown fail fallback msg w :
  msg <> "" ->
  auth_catch fail fallback (Error msg) w =
  (Failure msg, toast_error msg (dispatch (fail msg) w)).
Proof.
  intros Hne. unfold auth_catch, response_message, JS.or_else. simpl.
  unfold JS.or_default. destruct (String.eqb_spec msg ""); [contradiction|].
  reflexivity.
Qed.

(** Passed checks lead to the login request. *)
Lemma login_sends_request fuel srv email password w :
  login_validate email password = None ->
  forall o w', login fuel srv email password w = Some (o, w') ->
  exists more, sent w' = (sent w ++ loginRequest :: more)%list.
Proof.
  intros Hval o w'. unfold login. rewrite Hval.
  destruct (axios fuel srv defaultValidateStatus loginRequest _)
    as [[r w1]|] eqn:Hax; [|discriminate].
  apply axios_sent in Hax. destruct Hax as [more Hmore].
  intros [= Hthen]. exists more.
  replace w' with (snd (login_then r w1)) by (rewrite Hthen; reflexivity).
  unfold login_then. rewrite sent_auth_then. exact Hmore.
Qed.

(** C5 as stated fails: a five-character password with a well-formed email
    passes the local checks of [login], and the request is issued; the error
    reported is the server's. *)
Lemma login_sends_short_password :
  login_validate "a@b.com" "short" = None
  /\ exists w',
       login 1 (Example.always 401) "a@b.com" "short" (mount None 0)
       = Some (Failure "Request failed with status code 401", w')
       /\ sent w' = [loginRequest].
Proof.
  split; [reflexivity|]. eexists. split; reflexivity.
Qed.

(** C5, amended.  [login] checks locally that both fields are non-empty and
    that the email matches the pattern, and nothing about the length of the
    password: a failed check is reported with its message and no request is
    made; passed checks lead to the login request, whatever the length of
    the password.  The minimum length of 8 is checked locally by [register],
    which then makes no request. *)
Theorem login_validates_shape_only fuel srv email password w :
  (login_validate email password = None <->
     email <> "" /\ password <> "" /\ emailRegex_test email = true)
  /\ (forall msg, login_validate email password = Some msg ->
        exists w', login fuel srv email password w = Some (Failure msg, w')
                   /\ sent w' = sent w
                   /\ error (state w') = Some msg)
  /\ (login_validate email password = None ->
        (forall o w', login fuel srv email password w = Some (o, w') ->
           exists more, sent w' = (sent w ++ loginRequest :: more)%list)
        /\ (interceptorAuth w = false ->
            exists o w', login fuel srv email password w = Some (o, w')
                         /\ sent w' = (sent w ++ [loginRequest])%list))
  /\ (forall formData,
        f_email formData = email -> f_password formData = password ->
        f_firstName formData <> "" -> f_lastName formData <> "" ->
        f_role formData <> "" ->
        login_validate email password = None ->
        (String.length password < 8)%nat ->
        exists w',
          register fuel srv formData w
          = Some (Failure "Password must be at least 8 characters long", w')
          /\ sent w' = sent w).
Proof.
  split; [apply login_validate_spec|].
  split; [|split].
  - intros msg Hmsg. unfold login. rewrite Hmsg.
    rewrite (auth_catch_thrown _ _ _ _ (login_validate_message _ _ _ Hmsg)).
    eexists. split; [reflexivity|]. split; reflexivity.
  - intros Hval. split.
    + apply login_sends_request, Hval.
    + intros Hno. unfold login. rewrite Hval.
      rewrite axios_unauthenticated by exact Hno.
      destruct (login_then _ _) as [o w'] eqn:Hthen.
      exists o, w'. split; [reflexivity|].
      replace w' with (snd (login_then
        (settle defaultValidateStatus
           (srv (List.length (sent (dispatch USER_LOADING w))) loginRequest))
        (set_sent (sent (dispatch USER_LOADING w) ++ [loginRequest])
           (dispatch USER_LOADING w)))) by (rewrite Hthen; reflexivity).
      unfold login_then. rewrite sent_auth_then. reflexivity.
  - intros formData He Hp Hf Hl Hr Hval Hshort.
    apply login_validate_spec in Hval. destruct Hval as (Hne & Hpne & Hre).
    unfold register, register_validate. rewrite He, Hp.
    destruct (String.eqb_spec email ""); [contradiction|].
    destruct (String.eqb_spec password ""); [contradiction|].
    destruct (String.eqb_spec (f_firstName formData) ""); [contradiction|].
    destruct (String.eqb_spec (f_lastName formData) ""); [contradiction|].
    destruct (String.eqb_spec (f_role formData) ""); [contradiction|].
    simpl. rewrite Hre. simpl.
    apply Nat.ltb_lt in Hshort. rewrite Hshort.
    eexists. split; reflexivity.
Qed.

Lemma login_validates_shape_only_witness :
  (exists w', login 1 (Example.always 200) "not-an-email" "short" (mount None 0)
              = Some (Failure "Please enter a valid email address", w')
              /\ sent w' = [])
  /\ (exists o w', login 1 (Example.always 200) "a@b.com" "short" (mount None 0)
                   = Some (o, w')
                   /\ sent w' = [loginRequest])
  /\ (exists w',
        register 1 (Example.always 200)
          {| f_email := "a@b.com"; f_password := "short"; f_firstName := "Ada";
             f_lastName := "L"; f_role := "nurse" |} (mount None 0)
        = Some (Failure "Password must be at least 8 characters long", w')
        /\ sent w' = []).
Proof.
  split; [|split].
  - destruct (login_validates_shape_only 1 (Example.always 200)
                "not-an-email" "short" (mount None 0)) as (_ & H & _).
    destruct (H "Please enter a valid email address" eq_refl) as (w' & H1 & H2 & _).
    exists w'. split; [exact H1 | exact H2].
  - destruct (login_validates_shape_only 1 (Example.always 200)
                "a@b.com" "short" (mount None 0)) as (_ & _ & H & _).
    destruct (H eq_refl) as (_ & H2).
    destruct (H2 eq_refl) as (o & w' & H3 & H4).
    exists o, w'. split; [exact H3 | exact H4].
  - destruct (login_validates_shape_only 1 (Example.always 200)
                "a@b.com" "short" (mount None 0)) as (_ & _ & _ & H).
    apply (H {| f_email := "a@b.com"; f_password := "short";
                f_firstName := "Ada"; f_lastName := "L"; f_role := "nurse" |});
      try reflexivity; try discriminate.
    simpl. lia.
Defined.

(** ** Failures of the profile load (C4) *)

Section ProfileLoad.

Variable atob : string -> option string.
Variable JSON_parse : string -> option JS.json.
Variable coerce : JS.json -> JS.number.

Lemma isTokenValid_structure now t :
  isTokenValid atob JSON_parse coerce now (Some t) = true ->
  t <> "" /\ List.length (JS.split "." t) = 3%nat.
Proof.
  unfold isTokenValid.
  destruct (String.eqb_spec t ""); [discriminate|].
  destruct (Nat.eqb_spec (List.length (JS.split "." t)) 3); simpl;
    [tauto | discriminate].
Qed.

(** A stored token that passes [isTokenValid] is attached and the profile
    request is made. *)
Lemma loadUser_valid fuel srv w t :
  storage w = Some t ->
  isTokenValid atob JSON_parse coerce (clock w) (Some t) = true ->
  loadUser atob JSON_parse coerce fuel srv w =
  match axios fuel srv meValidateStatus meRequest
          (dispatch USER_LOADING (set_credential (Some t) (Some t) w)) with
  | None => None
  | Some (r, w3) => Some (loadUser_then r w3)
  end.
Proof.
  intros Hst Hvalid. unfold loadUser. rewrite Hst.
  destruct (isTokenValid_structure _ _ Hvalid) as [Hne Hlen].
  rewrite (truthy_Some t Hne), Hvalid. cbn [negb].
  rewrite (setAuthToken_three_segments t w Hne Hlen). reflexivity.
Qed.

Lemma loadUser_server_failure fuel srv w t :
  storage w = Some t ->
  isTokenValid atob JSON_parse coerce (clock w) (Some t) = true ->
  server_failure (srv (List.length (sent w)) meRequest) ->
  loadUser atob JSON_parse coerce fuel srv w =
  Some (dispatch
          (AUTH_ERROR (failure_message (srv (List.length (sent w)) meRequest)))
          (set_sent (sent w ++ [meRequest])
             (dispatch USER_LOADING (set_credential (Some t) (Some t) w)))).
Proof.
  intros Hst Hvalid Hfail. rewrite (loadUser_valid fuel srv w t Hst Hvalid).
  unfold axios, axios_with, onRejected, settle. simpl.
  destruct (srv (List.length (sent w)) meRequest) as [status data|c m];
    simpl in Hfail |- *.
  - unfold meValidateStatus.
    destruct (Z.ltb_spec status 500); [lia|].
    unfold status_is. simpl.
    destruct (Z.eqb_spec status 401); [lia|]. simpl.
    unfold loadUser_then, loadUser_catch. simpl.
    destruct (Z.eqb_spec status 401); [lia|]. reflexivity.
  - reflexivity.
Qed.

End ProfileLoad.

(** C4 as stated fails on two counts: after a server error on the profile
    load the session's own token field is [null] although the persisted
    token stays; and [login] with the password "short" is not rejected
    locally, the request is made. *)
Lemma server_error_resets_token_field_and_short_password_is_sent :
  (exists w',
     loadUser Host.atob Host.JSON_parse Host.coerce 1 (Example.always 503)
       (mount (Some Example.jwt) 1000) = Some w'
     /\ token (state w') = None
     /\ storage w' = Some Example.jwt)
  /\ (exists o w',
        login 1 (Example.always 200) "a@b.com" "short" (mount None 1000)
        = Some (o, w')
        /\ sent w' = [loginRequest]).
Proof.
  split.
  - eexists. split; [vm_compute; reflexivity|]. split; reflexivity.
  - eexists. eexists. split; [vm_compute; reflexivity | reflexivity].
Qed.

Lemma login_request_is_made fuel srv email password w :
  login_validate email password = None ->
  interceptorAuth w = false ->
  exists o w', login fuel srv email password w = Some (o, w')
               /\ sent w' = (sent w ++ [loginRequest])%list.
Proof.
  intros Hval Hno. unfold login. rewrite Hval.
  rewrite axios_unauthenticated by exact Hno.
  destruct (login_then _ _) as [o w'] eqn:Hthen.
  exists o, w'. split; [reflexivity|].
  replace w' with (snd (login_then
    (settle defaultValidateStatus
       (srv (List.length (sent (dispatch USER_LOADING w))) loginRequest))
    (set_sent (sent (dispatch USER_LOADING w) ++ [loginRequest])
       (dispatch USER_LOADING w)))) by (rewrite Hthen; reflexivity).
  unfold login_then. rewrite sent_auth_then. reflexivity.
Qed.

Lemma short_password_passes email :
  emailRegex_test email = true -> login_validate email "short" = None.
Proof.
  intros He. apply login_validate_spec.
  split; [intros ->; discriminate He|]. split; [discriminate | exact He].
Qed.

(** C4, amended.  When the profile load of a valid stored token is answered
    by a server error (5xx) or not answered (timeout), the persisted token
    and the attached credential stay, no refresh is attempted, and the
    session goes to the error state of [AUTH_ERROR]: not authenticated, the
    error recorded, its token field reset.  [login] has no check of the
    length of the password: for every well-formed email, the password
    "short" passes the local checks and the login request is made, as the
    next request from the error state the failed load leaves, and from every
    world in which no authenticated session is rendered; where one is, the
    request is the first made whenever [login] returns. *)
Theorem server_error_keeps_persisted_token
    atob JSON_parse coerce fuel srv w t :
  storage w = Some t ->
  isTokenValid atob JSON_parse coerce (clock w) (Some t) = true ->
  server_failure (srv (List.length (sent w)) meRequest) ->
  (exists w' msg,
     loadUser atob JSON_parse coerce fuel srv w = Some w'
     /\ storage w' = Some t
     /\ authorization w' = Some t
     /\ sent w' = (sent w ++ [meRequest])%list
     /\ isAuthenticated (state w') = false
     /\ error (state w') = Some msg
     /\ isInitialized (state w') = true
     /\ token (state w') = None
     /\ forall fuel' srv' email,
          emailRegex_test email = true ->
          exists o w'',
            login fuel' srv' email "short" (commit w') = Some (o, w'')
            /\ sent w'' = (sent w' ++ [loginRequest])%list)
  /\ (forall email,
        emailRegex_test email = true ->
        login_validate email "short" = None
        /\ forall fuel' srv' w0,
             (interceptorAuth w0 = false ->
              exists o w', login fuel' srv' email "short" w0 = Some (o, w')
                           /\ sent w' = (sent w0 ++ [loginRequest])%list)
             /\ (forall o w',
                   login fuel' srv' email "short" w0 = Some (o, w') ->
                   exists more,
                     sent w' = (sent w0 ++ loginRequest :: more)%list)).
Proof.
  intros Hst Hvalid Hfail. split.
  - rewrite (loadUser_server_failure atob JSON_parse coerce fuel srv w t
               Hst Hvalid Hfail).
    eexists. eexists. split; [reflexivity|].
    do 7 (split; [reflexivity|]).
    intros fuel' srv' email He.
    match goal with
    | |- exists o w'', login _ _ _ _ (commit ?x) = _ /\ _ =>
        destruct (login_request_is_made fuel' srv' email "short" (commit x)
                    (short_password_passes email He) eq_refl)
          as (o & w'' & Hlogin & Hsent)
    end.
    exists o, w''. split; [exact Hlogin|].
    rewrite Hsent, sent_commit. reflexivity.
  - intros email He. split; [apply short_password_passes, He|].
    intros fuel' srv' w0. split.
    + apply login_request_is_made, short_password_passes, He.
    + apply login_sends_request, short_password_passes, He.
Qed.

Lemma server_error_keeps_persisted_token_witness :
  exists w',
    loadUser Host.atob Host.JSON_parse Host.coerce 1 (Example.always 503)
      (mount (Some Example.jwt) 1000) = Some w'
    /\ storage w' = Some Example.jwt
    /\ authorization w' = Some Example.jwt
    /\ isAuthenticated (state w') = false
    /\ exists o w'',
         login 1 (Example.always 200) "ada@example.org" "short" (commit w')
         = Some (o, w'')
         /\ sent w'' = (sent w' ++ [loginRequest])%list.
Proof.
  destruct (server_error_keeps_persisted_token
              Host.atob Host.JSON_parse Host.coerce 1 (Example.always 503)
              (mount (Some Example.jwt) 1000) Example.jwt)
    as ((w' & msg & Hload & Hst & Hauth & _ & Hno & _ & _ & _ & Hlogin) & _).
  - reflexivity.
  - vm_compute. reflexivity.
  - simpl. lia.
  - exists w'. split; [exact Hload|]. split; [exact Hst|].
    split; [exact Hauth|]. split; [exact Hno|].
    apply (Hlogin 1%nat (Example.always 200) "ada@example.org"). reflexivity.
Defined.

(** A timeout is such a failure too. *)
Example timeout_keeps_persisted_token :
  exists w',
    loadUser Host.atob Host.JSON_parse Host.coerce 1
      (fun _ _ => NoResponse (Some "ECONNABORTED") "timeout of 10000ms exceeded")
      (mount (Some Example.jwt) 1000) = Some w'
    /\ storage w' = Some Example.jwt
    /\ error (state w') = Some "Authentication verification failed".
Proof. eexists. split; [vm_compute; reflexivity|]. split; reflexivity. Qed.

(** The branch of [loadUser] that removes the token on a 401 is never
    taken for the profile request itself: its [validateStatus] resolves a
    401, and the error thrown instead carries no response. *)
Example profile_401_keeps_persisted_token :
  exists w',
    loadUser Host.atob Host.JSON_parse Host.coerce 1 (Example.always 401)
      (mount (Some Example.jwt) 1000) = Some w'
    /\ storage w' = Some Example.jwt
    /\ authorization w' = Some Example.jwt
    /\ error (state w') = Some "Authentication verification failed".
Proof. eexists. split; [vm_compute; reflexivity|]. repeat split; reflexivity. Qed.

(** ** Completions that arrive after a logout (C8) *)

Lemma cleared_logout w : cleared (logout w).
Proof.
  unfold cleared. rewrite state_logout. frame. repeat split; reflexivity.
Qed.

Lemma cleared_logoutSilent w : cleared (logoutSilent w).
Proof.
  unfold cleared. rewrite state_logoutSilent. frame. repeat split; reflexivity.
Qed.

(** C8 as stated fails: no status is checked when a completion is applied.
    A refresh that resolves after [logout] attaches and persists its token
    again, and a profile load that resolves after [logout] marks the session
    authenticated again. *)
Lemma stale_completions_are_applied :
  cleared (logout Example.signed_in)
  /\ (exists w',
        refreshToken_then (Resolved 200 (Example.issued "n.e.w"))
          (logout Example.signed_in) = (true, w')
        /\ authorization w' = Some "n.e.w"
        /\ storage w' = Some "n.e.w"
        /\ token (state w') = Some "n.e.w")
  /\ isAuthenticated
       (state (loadUser_then (Resolved 200 (Example.issued "n.e.w"))
                 (logout Example.signed_in))) = true.
Proof.
  split; [apply cleared_logout|].
  split; [|reflexivity].
  eexists. split; [reflexivity|]. repeat split; reflexivity.
Qed.

(** C8, amended.  [logout] clears the session fields, the persisted token
    and the attached credential.  A completion arriving afterwards is
    applied without any check of the current status: a successful refresh
    attaches and persists its token and sets the token field of the session,
    which [TOKEN_REFRESH] leaves unauthenticated and without a user; a
    failed refresh leaves everything cleared; a successful profile load
    marks the session authenticated again. *)
Theorem completion_after_logout_is_applied w status data t :
  p_token data = Some t -> t <> "" ->
  List.length (JS.split "." t) = 3%nat ->
  cleared (logout w)
  /\ (exists w',
        refreshToken_then (Resolved status data) (logout w) = (true, w')
        /\ authorization w' = Some t
        /\ storage w' = Some t
        /\ token (state w') = Some t
        /\ isAuthenticated (state w') = false
        /\ user (state w') = None)
  /\ (forall e, cleared (snd (refreshToken_then (Rejected e) (logout w))))
  /\ (forall u, p_user data = Some u ->
        isAuthenticated (state (loadUser_then (Resolved 200 data) (logout w))) = true
        /\ user (state (loadUser_then (Resolved 200 data) (logout w))) = Some u).
Proof.
  intros Htok Hne Hlen.
  split; [apply cleared_logout|].
  split; [|split].
  - unfold refreshToken_then.
    rewrite Htok, (truthy_Some t Hne), (setAuthToken_three_segments t _ Hne Hlen).
    eexists. split; [reflexivity|].
    unfold dispatch. cbn [state set_state authorization storage set_credential
                          authReducer token isAuthenticated user].
    rewrite state_logout. rewrite Htok. repeat split; reflexivity.
  - intros e. cbn [refreshToken_then snd]. apply cleared_logoutSilent.
  - intros u Hu. unfold loadUser_then. rewrite Hu. simpl. split; reflexivity.
Qed.

Lemma completion_after_logout_is_applied_witness :
  exists w',
    refreshToken_then (Resolved 200 (Example.issued "n.e.w"))
      (logout Example.signed_in) = (true, w')
    /\ authorization w' = Some "n.e.w"
    /\ isAuthenticated (state w') = false.
Proof.
  destruct (completion_after_logout_is_applied Example.signed_in 200
              (Example.issued "n.e.w") "n.e.w" eq_refl)
    as (_ & (w' & Hthen & Hauth & _ & _ & Hno & _) & _).
  - discriminate.
  - reflexivity.
  - exists w'. repeat split; assumption.
Defined.

(** ** Structure of an accepted token (C3) *)

Lemma split_nonempty sep s : JS.split sep s <> [].
Proof.
  destruct s as [|c s]; simpl; [discriminate|].
  destruct (Ascii.eqb c sep); [discriminate|].
  destruct (JS.split sep s); discriminate.
Qed.

Lemma split_no_dot a : no_dot a = true -> JS.split "." a = [a].
Proof.
  induction a as [|c a IH]; simpl; [reflexivity|].
  intros H. apply andb_prop in H. destruct H as [Hc Ha].
  apply negb_true_iff in Hc. rewrite Hc, (IH Ha). reflexivity.
Qed.

Lemma split_segment a r :
  no_dot a = true -> JS.split "." (a ++ String "." r) = a :: JS.split "." r.
Proof.
  induction a as [|c a IH]; simpl; [reflexivity|].
  intros H. apply andb_prop in H. destruct H as [Hc Ha].
  apply negb_true_iff in Hc. rewrite Hc, (IH Ha). reflexivity.
Qed.

(** The first segment of a split, and what is split after it. *)
Lemma split_head t :
  exists a, no_dot a = true
    /\ ((t = a /\ JS.split "." t = [a])
        \/ exists r, t = a ++ String "." r
                     /\ JS.split "." t = a :: JS.split "." r).
Proof.
  induction t as [|c t IH].
  - exists "". split; [reflexivity|]. left. split; reflexivity.
  - simpl. destruct (Ascii.eqb_spec c ".") as [->|Hc].
    + exists "". split; [reflexivity|]. right. exists t. split; reflexivity.
    + destruct IH as (a & Ha & [[-> Hsplit] | (r & -> & Hsplit)]).
      * exists (String c a). split.
        { simpl. rewrite Ha. apply Ascii.eqb_neq in Hc. rewrite Hc. reflexivity. }
        left. rewrite Hsplit. split; reflexivity.
      * exists (String c a). split.
        { simpl. rewrite Ha. apply Ascii.eqb_neq in Hc. rewrite Hc. reflexivity. }
        right. exists r. rewrite Hsplit. split; reflexivity.
Qed.

Lemma split_three t h p s :
  three_segments t h p s -> JS.split "." t = [h; p; s].
Proof.
  intros (-> & Hh & Hp & Hs).
  change (h ++ "." ++ p ++ "." ++ s) with (h ++ String "." (p ++ String "." s)).
  rewrite (split_segment h _ Hh), (split_segment p _ Hp), (split_no_dot s Hs).
  reflexivity.
Qed.

Lemma split_three_inv t :
  List.length (JS.split "." t) = 3%nat ->
  exists h p s, three_segments t h p s.
Proof.
  intros Hlen.
  destruct (split_head t) as (h & Hh & [[_ E] | (r & -> & E)]);
    rewrite E in Hlen; [discriminate|].
  destruct (split_head r) as (p & Hp & [[_ E1] | (r' & -> & E1)]);
    rewrite E1 in Hlen; [discriminate|].
  destruct (split_head r') as (s & Hs & [[-> _] | (r'' & _ & E2)]).
  - exists h, p, s. repeat split; assumption.
  - rewrite E2 in Hlen. simpl in Hlen.
    pose proof (split_nonempty "." r'') as Hne.
    destruct (JS.split "." r''); [contradiction|discriminate].
Qed.

Section TokenValidation.

Variable atob : string -> option string.
Variable JSON_parse : string -> option JS.json.
Variable coerce : JS.json -> JS.number.

Lemma isTokenValid_segments now t h p s :
  three_segments t h p s ->
  isTokenValid atob JSON_parse coerce now (Some t) =
  match atob p with
  | None => false
  | Some decoded =>
      match JSON_parse decoded with
      | None => false
      | Some payload =>
          match JS.get_prop "exp" payload with
          | JS.Throw => false
          | JS.Normal exp => JS.gt (ToNumber coerce exp) (currentTime now)
          end
      end
  end.
Proof.
  intros H3. pose proof (split_three t h p s H3) as Hsplit.
  unfold isTokenValid. rewrite Hsplit.
  destruct (String.eqb_spec t "") as [->|_]; [discriminate Hsplit|].
  reflexivity.
Qed.

Lemma isTokenValid_iff now t :
  isTokenValid atob JSON_parse coerce now (Some t) = true
  <-> accepts atob JSON_parse coerce now t.
Proof.
  split.
  - intros Hvalid.
    destruct (isTokenValid_structure _ _ _ _ _ Hvalid) as [_ Hlen].
    destruct (split_three_inv t Hlen) as (h & p & s & H3).
    rewrite (isTokenValid_segments now t h p s H3) in Hvalid.
    destruct (atob p) as [decoded|] eqn:Hb; [|discriminate].
    destruct (JSON_parse decoded) as [payload|] eqn:Hj; [|discriminate].
    destruct (JS.get_prop "exp" payload) as [exp|] eqn:He; [|discriminate].
    exists h, p, s, decoded, payload. repeat split; try apply H3; try assumption.
    exists exp. split; [exact He | exact Hvalid].
  - intros (h & p & s & decoded & payload & H3 & Hb & Hj & exp & He & Hgt).
    rewrite (isTokenValid_segments now t h p s H3), Hb, Hj, He. exact Hgt.
Qed.

(** A stored token that fails [isTokenValid] is dropped and no request is
    made. *)
Lemma loadUser_invalid fuel srv w t :
  storage w = Some t -> t <> "" ->
  isTokenValid atob JSON_parse coerce (clock w) (Some t) = false ->
  exists w', loadUser atob JSON_parse coerce fuel srv w = Some w'
             /\ sent w' = sent w /\ storage w' = None
             /\ authorization w' = None
             /\ isAuthenticated (state w') = isAuthenticated (state w).
Proof.
  intros Hst Hne Hinvalid. unfold loadUser.
  rewrite Hst, (truthy_Some t Hne), Hinvalid.
  eexists. split; [reflexivity|]. repeat split.
Qed.

End TokenValidation.

Lemma gt_finite q r :
  JS.gt (JS.Finite q) (JS.Finite r) = true <-> (r < q)%Q.
Proof.
  simpl. rewrite negb_true_iff.
  split.
  - intros H. apply Qnot_le_lt. intros Hle.
    apply Qle_bool_iff in Hle. congruence.
  - intros Hlt. destruct (Qle_bool q r) eqn:E; [|reflexivity].
    apply Qle_bool_iff in E. exfalso. apply (Qlt_not_le _ _ Hlt E).
Qed.

(** *** The clock in seconds, as a double *)

Lemma nearest_even_spec n d :
  0 < d ->
  n < (JS.nearest_even n d + 1) * d
  /\ 2 * (JS.nearest_even n d * d) <= 2 * n + d
  /\ 2 * n - d <= 2 * (JS.nearest_even n d * d).
Proof.
  intros Hd. unfold JS.nearest_even.
  pose proof (Z.div_mod n d ltac:(lia)) as Hdm.
  pose proof (Z.mod_pos_bound n d Hd) as Hr.
  destruct (Z.ltb_spec (2 * (n mod d)) d).
  - nia.
  - destruct (Z.ltb_spec d (2 * (n mod d))); [nia|].
    destruct (Z.even (n / d)); nia.
Qed.

Lemma ulp_exponent_clock now :
  0 < now < 2 ^ 53 -> -1074 <= JS.ulp_exponent now 1000 <= -9.
Proof.
  intros [Hpos Hlt]. unfold JS.ulp_exponent.
  change (Z.log2 1000) with 9.
  assert (Hlog : Z.log2 now < 53) by (apply Z.log2_lt_pow2; lia).
  pose proof (Z.log2_nonneg now) as Hnn.
  destruct (_ <? _); lia.
Qed.

(** The clock in seconds as the host computes it. *)
Lemma currentTime_spec now :
  0 <= now < 2 ^ 53 ->
  exists m e,
    9 <= e <= 1074
    /\ currentTime now = JS.Finite (Qred (m # Z.to_pos (2 ^ e)))
    /\ now * 2 ^ e < (m + 1) * 1000
    /\ 2 * (m * 1000) <= 2 * (now * 2 ^ e) + 1000
    /\ 2 * (now * 2 ^ e) - 1000 <= 2 * (m * 1000).
Proof.
  intros [Hnn Hlt]. unfold currentTime, JS.double.
  cbn [Qnum Qden].
  destruct (Z.eqb_spec (Z.abs now) 0) as [Hz|Hz].
  - assert (now = 0) by lia. subst now.
    exists 0, 9. split; [lia|]. split; [reflexivity|]. cbn. lia.
  - rewrite Z.abs_eq by lia.
    assert (Hpos : 0 < now < 2 ^ 53) by lia.
    pose proof (ulp_exponent_clock now Hpos) as He.
    set (e := JS.ulp_exponent now 1000) in *.
    rewrite (Z.max_r 0 (- e)) by lia. rewrite (Z.max_l 0 e) by lia.
    change (Z.pos 1000 * 2 ^ 0) with 1000.
    pose proof (nearest_even_spec (now * 2 ^ (- e)) 1000 ltac:(lia)) as (H1 & H2 & H3).
    set (m := JS.nearest_even (now * 2 ^ (- e)) 1000) in *.
    assert (Hp : 0 < 2 ^ (- e)) by (apply Z.pow_pos_nonneg; lia).
    assert (Hm : 0 <= m) by nia.
    assert (Hover : (1024 <=? e + Z.log2 m) = false).
    { apply Z.leb_gt.
      destruct (Z.eq_dec m 0) as [->|Hm0]; [simpl; lia|].
      assert (m < 2 ^ (53 - e)).
      { replace (53 - e) with (53 + - e) by lia. rewrite Z.pow_add_r by lia.
        nia. }
      assert (Z.log2 m < 53 - e) by (apply Z.log2_lt_pow2; lia).
      lia. }
    rewrite Hover.
    assert (Hneg : (now <? 0) = false) by (apply Z.ltb_ge; lia).
    assert (Hnpos : (0 <=? e) = false) by (apply Z.leb_gt; lia).
    rewrite Hneg, Hnpos.
    exists m, (- e). split; [lia|]. split; [reflexivity|]. lia.
Qed.

Lemma pow2_ge_512 e : 9 <= e -> 512 <= 2 ^ e.
Proof.
  intros He. change 512 with (2 ^ 9). apply Z.pow_le_mono_r; lia.
Qed.

(** The clock in seconds as the host has it is within [2^-10] of the exact
    quotient. *)
Lemma currentTime_near now :
  0 <= now < 2 ^ 53 ->
  exists c, currentTime now = JS.Finite c
            /\ ((now # 1000) - (1 # 1024) <= c)%Q
            /\ (c <= (now # 1000) + (1 # 1024))%Q.
Proof.
  intros Hnow.
  destruct (currentTime_spec now Hnow) as (m & e & He & -> & H1 & H2 & H3).
  eexists. split; [reflexivity|].
  pose proof (pow2_ge_512 e ltac:(lia)) as Hp.
  rewrite Qred_correct.
  unfold Qle, Qminus, Qplus, Qopp. cbn [Qnum Qden].
  rewrite !Pos2Z.inj_mul, !Z2Pos.id by lia.
  split; nia.
Qed.

(** An expiry of a whole number of seconds is later than that clock exactly
    when it is later than the clock read. *)
Lemma gt_currentTime_whole now q k :
  0 <= now < 2 ^ 53 -> (q == inject_Z k)%Q ->
  JS.gt (JS.Finite q) (currentTime now) = true <-> now < 1000 * k.
Proof.
  intros Hnow Hq.
  destruct (currentTime_spec now Hnow) as (m & e & He & -> & H1 & H2 & H3).
  pose proof (pow2_ge_512 e ltac:(lia)) as Hp.
  rewrite gt_finite, Qred_correct, Hq.
  unfold Qlt, inject_Z. cbn [Qnum Qden].
  rewrite Z2Pos.id by lia.
  split; intros H; nia.
Qed.

Lemma setAuthToken_accepts t w :
  t <> "" ->
  fst (setAuthToken (Some t) w) = true <-> exists h p s, three_segments t h p s.
Proof.
  intros Hne. unfold setAuthToken.
  destruct (String.eqb_spec t ""); [contradiction|]. cbn [negb].
  destruct (Nat.eqb_spec (List.length (JS.split "." t)) 3) as [Hlen|Hlen]; simpl.
  - split; [intros _; apply split_three_inv, Hlen | reflexivity].
  - split; [discriminate|].
    intros (h & p & s & H3). rewrite (split_three t h p s H3) in Hlen.
    contradiction Hlen. reflexivity.
Qed.




(** The comparison is one of doubles: at the clock [1002] an expiry of
    [1.002] is the very double the clock is taken to, and is not later; a
    millisecond earlier it is. *)
Example expiry_is_compared_as_a_double :
  isTokenValid Host.atob Host.JSON_parse Host.coerce 1002
    (Some "h.eyJleHAiOjEuMDAyfQ.s") = false
  /\ isTokenValid Host.atob Host.JSON_parse Host.coerce 1001
       (Some "h.eyJleHAiOjEuMDAyfQ.s") = true
  /\ Host.atob "eyJleHAiOjEuMDAyfQ"
     = Some (String "{" (String "034" ("exp" ++ String "034" ":1.002}"))).
Proof. vm_compute. repeat split; reflexivity. Qed.

(** ** The refresh on a rejected 401 (C1, C2) *)

Lemma settle_401 validateStatus raw :
  match settle validateStatus raw with
  | Resolved _ _ => True
  | Rejected e => status_is 401 e = is_401 raw
  end.
Proof.
  destruct raw as [status data|c m]; simpl.
  - destruct (validateStatus status); [exact I | reflexivity].
  - reflexivity.
Qed.

Lemma length_sent_after req w :
  List.length (sent (set_sent (sent w ++ [req]) w)) = S (List.length (sent w)).
Proof. simpl. rewrite length_app. simpl. lia. Qed.

(** A refresh whose own answer is not a 401 makes one request and settles,
    whatever is installed as interceptor. *)
Lemma refreshToken_once fuel srv w :
  is_401 (srv (List.length (sent w)) refreshRequest) = false ->
  refreshToken (S fuel) srv w =
  Some (refreshToken_then
          (settle defaultValidateStatus (srv (List.length (sent w)) refreshRequest))
          (set_sent (sent w ++ [refreshRequest]) w)).
Proof.
  intros Hnot. cbn [refreshToken]. unfold axios_with, onRejected.
  pose proof (settle_401 defaultValidateStatus
                (srv (List.length (sent w)) refreshRequest)) as Hst.
  destruct (settle defaultValidateStatus _) as [status data|e].
  - reflexivity.
  - rewrite Hst, Hnot. reflexivity.
Qed.

(** What [refreshToken_then] makes of an answer, in terms of
    [refresh_accepts]. *)
Lemma refreshToken_then_accepts raw w :
  refreshToken_then (settle defaultValidateStatus raw) w =
  match refresh_accepts raw with
  | Some t =>
      (true,
       dispatch (TOKEN_REFRESH match raw with
                               | HttpResponse _ data => data
                               | NoResponse _ _ => Example.empty
                               end)
         (set_credential (Some t) (Some t) w))
  | None => (false, logoutSilent w)
  end.
Proof.
  destruct raw as [status data|c m]; [|reflexivity].
  unfold refresh_accepts, settle, refreshToken_then.
  destruct (defaultValidateStatus status); [|reflexivity].
  unfold JS.truthy, setAuthToken.
  destruct (p_token data) as [t|] eqn:Ht; [|reflexivity].
  destruct (t =? "")%string; cbn [negb andb]; [reflexivity|].
  destruct (Nat.eqb _ 3); reflexivity.
Qed.

Lemma refresh_accepts_token raw t :
  refresh_accepts raw = Some t ->
  exists status data, raw = HttpResponse status data /\ p_token data = Some t.
Proof.
  destruct raw as [status data|c m]; [|discriminate].
  unfold refresh_accepts.
  destruct (defaultValidateStatus status); [|discriminate].
  destruct (p_token data) as [t'|] eqn:Ht; [|discriminate].
  destruct (_ && _); [|discriminate].
  intros [= <-]. exists status, data. split; [reflexivity | exact Ht].
Qed.

(** C1 as stated fails on three counts.  A page request is made on the
    axios instance of [utils/api], whose own interceptor answers a 401 by
    removing the persisted token and leaving for the login page: no refresh.
    The profile request resolves a 401 instead of rejecting it, so a 401 on
    it while authenticated triggers no refresh and no notice either.  And a
    401 answered to the refresh request goes through the provider's
    interceptor again, so one rejected 401 can be followed by two refresh
    requests and end logged out although the last refresh succeeded. *)
Lemma one_401_none_or_two_refreshes :
  interceptorAuth Example.signed_in = true
  /\ isAuthenticated (state Example.signed_in) = true
  /\ (exists e w',
        api_request (Example.always 401) false (GET "/api/patients")
          Example.signed_in = (Rejected e, w', Some "/login")
        /\ sent w' = (sent Example.signed_in ++ [GET "/api/patients"])%list
        /\ storage w' = None
        /\ toasts w' = toasts Example.signed_in)
  /\ (exists w',
        loadUser Host.atob Host.JSON_parse Host.coerce 1 (Example.always 401)
          Example.signed_in = Some w'
        /\ sent w' = (sent Example.signed_in ++ [meRequest])%list
        /\ toasts w' = toasts Example.signed_in
        /\ isAuthenticated (state w') = false)
  /\ (exists w',
        updateProfile 3 (Example.reissues_at 3) Example.signed_in = Some w'
        /\ sent w' = (sent Example.signed_in
                      ++ [profileRequest; refreshRequest; refreshRequest])%list
        /\ isAuthenticated (state w') = false).
Proof.
  split; [vm_compute; reflexivity|]. split; [vm_compute; reflexivity|].
  split; [|split].
  - eexists. eexists. split; [vm_compute; reflexivity|].
    vm_compute. repeat split; reflexivity.
  - eexists. split; [vm_compute; reflexivity|].
    vm_compute. repeat split; reflexivity.
  - eexists. split; [vm_compute; reflexivity|].
    vm_compute. repeat split; reflexivity.
Qed.

(** C1, amended.  When a request whose [validateStatus] rejects a 401 is
    answered with 401 while the session is authenticated, and the refresh
    request is itself not answered with 401, exactly one refresh request
    follows.  If that answer is a 2xx with a non-empty token of three
    segments the session stays authenticated with the new token attached,
    persisted and recorded, and no notice is emitted; otherwise the session
    is cleared and the "session expired" notice is emitted.  The original
    request is rejected to its caller either way. *)
Theorem rejected_401_refreshes_once
    fuel srv validateStatus req w data :
  interceptorAuth w = true ->
  isAuthenticated (state w) = true ->
  srv (List.length (sent w)) req = HttpResponse 401 data ->
  validateStatus 401 = false ->
  is_401 (srv (S (List.length (sent w))) refreshRequest) = false ->
  exists e w',
    axios (S fuel) srv validateStatus req w = Some (Rejected e, w')
    /\ sent w' = (sent w ++ [req; refreshRequest])%list
    /\ match refresh_accepts (srv (S (List.length (sent w))) refreshRequest) with
       | Some t =>
           isAuthenticated (state w') = true
           /\ token (state w') = Some t
           /\ authorization w' = Some t
           /\ storage w' = Some t
           /\ toasts w' = toasts w
       | None =>
           cleared w'
           /\ toasts w' =
              (toasts w ++ [ToastError "Session expired. Please log in again."])%list
       end.
Proof.
  intros Hcap Hauth Hsrv Hvs Hnot.
  unfold axios, axios_with, onRejected. rewrite Hsrv. cbn [settle].
  rewrite Hvs. unfold status_is at 1. cbn [response]. rewrite Z.eqb_refl, Hcap.
  cbn [andb].
  rewrite refreshToken_once; rewrite length_sent_after; [|exact Hnot].
  rewrite refreshToken_then_accepts.
  destruct (refresh_accepts _) as [t|] eqn:Hacc.
  - destruct (refresh_accepts_token _ _ Hacc) as (status & data' & -> & Htok).
    cbn [negb]. eexists. eexists. split; [reflexivity|].
    split; [simpl; rewrite <- app_assoc; reflexivity|].
    simpl. rewrite Hauth, Htok. repeat split; reflexivity.
  - cbn [negb]. eexists. eexists. split; [reflexivity|].
    split; [|split].
    + rewrite sent_toast_error, !sent_logoutSilent. simpl.
      rewrite <- app_assoc. reflexivity.
    + unfold cleared.
      rewrite state_toast_error, storage_toast_error, authorization_toast_error.
      apply cleared_logoutSilent.
    + rewrite toasts_toast_error, !toasts_logoutSilent. reflexivity.
Qed.

Lemma rejected_401_refreshes_once_witness :
  (exists e w',
     axios 1 (Example.reissues_at 2) defaultValidateStatus profileRequest
       Example.signed_in = Some (Rejected e, w')
     /\ sent w' = (sent Example.signed_in ++ [profileRequest; refreshRequest])%list
     /\ isAuthenticated (state w') = true
     /\ authorization w' = Some "n.e.w")
  /\ (exists e w',
        axios 1 (fun i _ => if Nat.eqb i 1 then HttpResponse 401 Example.empty
                            else HttpResponse 500 Example.empty)
          defaultValidateStatus profileRequest
          Example.signed_in = Some (Rejected e, w')
        /\ cleared w'
        /\ In (ToastError "Session expired. Please log in again.") (toasts w')).
Proof.
  split.
  - destruct (rejected_401_refreshes_once 0 (Example.reissues_at 2)
                defaultValidateStatus profileRequest Example.signed_in
                Example.empty)
      as (e & w' & Hax & Hsent & Hacc); try (vm_compute; reflexivity).
    change (refresh_accepts _) with (Some "n.e.w") in Hacc.
    destruct Hacc as (Hauth & _ & Hattached & _).
    exists e, w'. repeat split; assumption.
  - destruct (rejected_401_refreshes_once 0
                (fun i _ => if Nat.eqb i 1 then HttpResponse 401 Example.empty
                            else HttpResponse 500 Example.empty)
                defaultValidateStatus profileRequest Example.signed_in
                Example.empty)
      as (e & w' & Hax & _ & Hacc); try (vm_compute; reflexivity).
    change (refresh_accepts _) with (@None string) in Hacc.
    destruct Hacc as (Hcleared & Htoasts).
    exists e, w'. split; [exact Hax|]. split; [exact Hcleared|].
    rewrite Htoasts. apply in_or_app. right. left. reflexivity.
Defined.

(** *** The refresh is itself intercepted *)

Lemma settle_rejects_401 raw :
  is_401 raw = true ->
  exists e, settle defaultValidateStatus raw = Rejected e
            /\ status_is 401 e = true.
Proof.
  destruct raw as [status data|c m]; [|discriminate].
  simpl. intros H. apply Z.eqb_eq in H. subst status.
  eexists. split; reflexivity.
Qed.

(** A 401 answered to the refresh request, with an authenticated session
    rendered, calls [refreshToken] again: a second refresh request follows
    the first, and the outer call fails whatever the inner one did. *)
Lemma refresh_401_refreshes_again fuel srv w ok w' :
  interceptorAuth w = true ->
  is_401 (srv (List.length (sent w)) refreshRequest) = true ->
  refreshToken fuel srv w = Some (ok, w') ->
  ok = false
  /\ exists more,
       sent w' = (sent w ++ refreshRequest :: refreshRequest :: more)%list.
Proof.
  intros Hcap H401. destruct fuel as [|fuel]; [discriminate|].
  cbn [refreshToken]. unfold axios_with, onRejected.
  destruct (settle_rejects_401 _ H401) as (e & -> & ->). rewrite Hcap.
  cbn [andb].
  destruct (refreshToken fuel srv _) as [[ok1 w1]|] eqn:Hinner; [|discriminate].
  apply refreshToken_sent_first in Hinner. destruct Hinner as [more Hmore].
  cbn [sent set_sent] in Hmore.
  destruct ok1; cbn [negb refreshToken_then]; intros [= <- <-].
  - split; [reflexivity|]. exists more.
    rewrite sent_logoutSilent, Hmore, <- app_assoc. reflexivity.
  - split; [reflexivity|]. exists more.
    rewrite sent_logoutSilent, sent_toast_error, sent_logoutSilent, Hmore,
      <- app_assoc.
    reflexivity.
Qed.

(** While every refresh request is answered with 401 the flow never
    settles: no amount of fuel is enough. *)
Lemma refresh_never_settles fuel srv w :
  interceptorAuth w = true ->
  (forall n, is_401 (srv n refreshRequest) = true) ->
  refreshToken fuel srv w = None.
Proof.
  intros Hcap Hall. revert w Hcap.
  induction fuel as [|fuel IH]; intros w Hcap; [reflexivity|].
  cbn [refreshToken]. unfold axios_with, onRejected.
  destruct (settle_rejects_401 _ (Hall (List.length (sent w)))) as (e & -> & ->).
  rewrite Hcap. cbn [andb].
  rewrite IH; [reflexivity | exact Hcap].
Qed.

Lemma updateProfile_never_settles fuel srv w :
  interceptorAuth w = true ->
  (forall n req, is_401 (srv n req) = true) ->
  updateProfile fuel srv w = None.
Proof.
  intros Hcap Hall. unfold updateProfile, axios, axios_with, onRejected.
  destruct (settle_rejects_401 _ (Hall (List.length (sent w)) profileRequest))
    as (e & -> & ->).
  rewrite Hcap. cbn [andb].
  rewrite refresh_never_settles; [reflexivity | exact Hcap |].
  intros n. apply Hall.
Qed.

(** C2: the code at the failing inputs.  A refresh answered with 401 is
    followed by a second refresh request, and fails although the second
    one succeeds; a rejected 401 of a profile update is then followed by
    two refresh requests; and with a server that answers every refresh with
    401 neither settles for any bound on the depth of the recursion. *)
Theorem refresh_401_triggers_another_refresh :
  (exists w',
     refreshToken 2 (Example.reissues_at 2) Example.signed_in = Some (false, w')
     /\ sent w' = (sent Example.signed_in ++ [refreshRequest; refreshRequest])%list
     /\ cleared w')
  /\ (exists w',
        updateProfile 3 (Example.reissues_at 3) Example.signed_in = Some w'
        /\ refreshCount w' = 2%nat
        /\ cleared w')
  /\ (forall fuel,
        refreshToken fuel (Example.always 401) Example.signed_in = None)
  /\ (forall fuel,
        updateProfile fuel (Example.always 401) Example.signed_in = None).
Proof.
  assert (Hcap : interceptorAuth Example.signed_in = true)
    by (vm_compute; reflexivity).
  split; [|split; [|split]].
  - eexists. split; [vm_compute; reflexivity|].
    vm_compute. repeat split; reflexivity.
  - eexists. split; [vm_compute; reflexivity|].
    vm_compute. repeat split; reflexivity.
  - intros fuel. apply refresh_never_settles; [exact Hcap | reflexivity].
  - intros fuel. apply updateProfile_never_settles; [exact Hcap | reflexivity].
Qed.

(** ** The two session timeouts (C7) *)

Lemma NoDup_map_filter {A B} (f : A -> B) (p : A -> bool) l :
  NoDup (map f l) -> NoDup (map f (filter p l)).
Proof.
  induction l as [|x l IH]; simpl; intros H; [constructor|].
  inversion H as [|? ? Hnotin Hnd]; subst.
  destruct (p x); simpl; [|apply IH, Hnd].
  constructor; [|apply IH, Hnd].
  intros Hin. apply Hnotin.
  apply in_map_iff in Hin. destruct Hin as (y & Hy & Hin).
  apply filter_In in Hin. apply in_map_iff. exists y. tauto.
Qed.

Lemma Forall_filter {A} (P : A -> Prop) (p : A -> bool) l :
  Forall P l -> Forall P (filter p l).
Proof.
  intros H. apply Forall_forall. intros x Hin.
  apply filter_In in Hin. rewrite Forall_forall in H. apply H. tauto.
Qed.

Lemma filter_all {A} (l : list A) : filter (fun _ => true) l = l.
Proof. induction l as [|x l IH]; simpl; [|rewrite IH]; reflexivity. Qed.

Lemma timers_clearTimeouts w :
  timers (clearTimeouts w) =
  filter (kept (activityTimeoutRef w)) (filter (kept (sessionTimeoutRef w)) (timers w)).
Proof.
  unfold clearTimeouts, clearRef, clearTimeout, kept.
  split_refs w; simpl; rewrite ?filter_all; reflexivity.
Qed.

Lemma well_timed_clearTimeouts w :
  well_timed w -> well_timed (clearTimeouts w).
Proof.
  intros (Hnd & Hfresh & Htr). unfold well_timed.
  rewrite timers_clearTimeouts, nextTimer_clearTimeouts.
  split; [|split].
  - apply NoDup_map_filter, NoDup_map_filter, Hnd.
  - apply Forall_filter, Forall_filter, Hfresh.
  - apply Forall_filter, Forall_filter.
    eapply Forall_impl; [|exact Htr].
    intros t [Hw Hl]. unfold tracked_by.
    rewrite sessionTimeoutRef_clearTimeouts, activityTimeoutRef_clearTimeouts.
    split; assumption.
Qed.

(** After [clearTimeouts] only re-login timeouts can be pending. *)
Lemma clearTimeouts_only_relogin w :
  well_timed w ->
  Forall (fun t => kind t = ReloginTimer) (timers (clearTimeouts w)).
Proof.
  intros (_ & _ & Htr). rewrite timers_clearTimeouts.
  apply Forall_forall. intros t Hin.
  apply filter_In in Hin. destruct Hin as [Hin Ha].
  apply filter_In in Hin. destruct Hin as [Hin Hs].
  rewrite Forall_forall in Htr. destruct (Htr t Hin) as [Hw Hl].
  destruct (kind t).
  - rewrite (Hw eq_refl) in Hs. simpl in Hs. rewrite Nat.eqb_refl in Hs.
    discriminate.
  - rewrite (Hl eq_refl) in Ha. simpl in Ha. rewrite Nat.eqb_refl in Ha.
    discriminate.
  - reflexivity.
Qed.

Lemma pending_none_of_relogin k ts :
  k <> ReloginTimer ->
  Forall (fun t => kind t = ReloginTimer) ts ->
  filter (fun t => kind_eqb (kind t) k) ts = [].
Proof.
  intros Hk. induction 1 as [|t ts Ht _ IH]; simpl; [reflexivity|].
  rewrite Ht, IH. destruct k; [reflexivity | reflexivity | contradiction].
Qed.

(** The timeouts pending after the body of the effect ran for a live
    session. *)
Lemma timers_timeoutEffect w :
  live w = true ->
  timers (timeoutEffect w) =
  (timers (clearTimeouts w)
   ++ [{| tid := nextTimer w; due := clock w + (SESSION_TIMEOUT - WARNING_TIME);
          kind := WarningTimer |};
       {| tid := S (nextTimer w); due := clock w + SESSION_TIMEOUT;
          kind := LogoutTimer |}])%list
  /\ sessionTimeoutRef (timeoutEffect w) = Some (nextTimer w)
  /\ activityTimeoutRef (timeoutEffect w) = Some (S (nextTimer w))
  /\ nextTimer (timeoutEffect w) = S (S (nextTimer w)).
Proof.
  unfold live, timeoutEffect. intros ->. unfold setTimeout. simpl.
  rewrite nextTimer_clearTimeouts, clock_clearTimeouts, <- app_assoc.
  repeat split; reflexivity.
Qed.

Lemma timeoutEffect_idle w : live w = false -> timeoutEffect w = w.
Proof. unfold live, timeoutEffect. intros ->. reflexivity. Qed.

Lemma well_timed_timeoutEffect w :
  well_timed w -> well_timed (timeoutEffect w).
Proof.
  intros Hw. destruct (live w) eqn:Hlive;
    [|rewrite timeoutEffect_idle by exact Hlive; exact Hw].
  pose proof (well_timed_clearTimeouts w Hw) as (Hnd & Hfresh & _).
  pose proof (clearTimeouts_only_relogin w Hw) as Hrel.
  rewrite nextTimer_clearTimeouts in Hfresh.
  destruct (timers_timeoutEffect w Hlive) as (Ht & Hs & Ha & Hn).
  unfold well_timed, tracked_by. rewrite Ht, Hs, Ha, Hn.
  rewrite Forall_forall in Hfresh.
  split; [|split].
  - rewrite map_app. simpl. apply NoDup_app; repeat split.
    + exact Hnd.
    + constructor; [simpl; intros [H|[]]; lia|].
      constructor; [intros []|constructor].
    + intros x Hin [<-|[<-|[]]];
        apply in_map_iff in Hin; destruct Hin as (t & Hx & Hin);
        specialize (Hfresh t Hin); lia.
  - apply Forall_app. split.
    + apply Forall_forall. intros t Hin. specialize (Hfresh t Hin). lia.
    + repeat constructor; simpl; lia.
  - apply Forall_app. split.
    + eapply Forall_impl; [|exact Hrel]. intros t Hk. simpl in Hk.
      rewrite Hk. split; discriminate.
    + repeat constructor; simpl; try discriminate; reflexivity.
Qed.

Lemma well_timed_clearTimeout id w :
  well_timed w -> well_timed (clearTimeout id w).
Proof.
  intros (Hnd & Hfresh & Htr). unfold well_timed, clearTimeout. simpl.
  split; [|split].
  - apply NoDup_map_filter, Hnd.
  - apply Forall_filter, Hfresh.
  - apply Forall_filter, Htr.
Qed.

Lemma well_timed_logoutSilent w : well_timed w -> well_timed (logoutSilent w).
Proof.
  intros Hw. unfold logoutSilent, removeCredential.
  apply (well_timed_clearTimeouts (set_credential None None w)), Hw.
Qed.

Lemma well_timed_logout w : well_timed w -> well_timed (logout w).
Proof.
  intros Hw. unfold logout, removeCredential.
  apply (well_timed_clearTimeouts (set_credential None None w)), Hw.
Qed.

Lemma well_timed_fire t w : well_timed w -> well_timed (fire t w).
Proof.
  intros Hw. pose proof (well_timed_clearTimeout (tid t) w Hw) as Hc.
  unfold fire. destruct (kind t).
  - exact Hc.
  - apply (well_timed_logoutSilent _ Hc).
  - apply (well_timed_logout _ Hc).
Qed.

Lemma well_timed_relogin w :
  well_timed w -> well_timed (snd (setTimeout ReloginTimer 2000 w)).
Proof.
  intros (Hnd & Hfresh & Htr). unfold well_timed, tracked_by. simpl.
  rewrite Forall_forall in Hfresh.
  split; [|split].
  - rewrite map_app. simpl. apply NoDup_app; repeat split.
    + exact Hnd.
    + constructor; [intros []|constructor].
    + intros x Hin [<-|[]].
      apply in_map_iff in Hin. destruct Hin as (t & Hx & Hin).
      specialize (Hfresh t Hin). lia.
  - apply Forall_app. split.
    + apply Forall_forall. intros t Hin. specialize (Hfresh t Hin). lia.
    + repeat constructor.
  - apply Forall_app. split; [exact Htr|].
    repeat constructor; simpl; discriminate.
Qed.

Lemma well_timed_commit w : well_timed w -> well_timed (commit w).
Proof.
  intros Hw. unfold commit.
  match goal with
  | |- well_timed (set_rendered ?d ?c ?x) =>
      change (well_timed (set_rendered d c x)) with (well_timed x)
  end.
  destruct (timeoutDeps w) as [old|].
  - destruct (deps_eqb old _); [exact Hw|].
    apply well_timed_timeoutEffect, well_timed_clearTimeouts, Hw.
  - apply well_timed_timeoutEffect, Hw.
Qed.

Lemma reachable_well_timed w : Reachable w -> well_timed w.
Proof.
  induction 1 as [stored now | a w _ IH | s h w _ IH | w _ IH | ts w _ IH
                 | rs w _ IH | w _ IH | t w _ IH Hin Hdue | t w _ IH Hle
                 | w _ IH].
  - apply well_timed_commit. repeat split; constructor.
  - exact IH.
  - exact IH.
  - apply well_timed_clearTimeouts, IH.
  - exact IH.
  - exact IH.
  - apply well_timed_relogin, IH.
  - apply well_timed_fire, IH.
  - exact IH.
  - apply well_timed_commit, IH.
Qed.

Lemma same_key_short {A B} (f : A -> B) (c : B) (l : list A) :
  NoDup (map f l) -> Forall (fun x => f x = c) l -> (List.length l <= 1)%nat.
Proof.
  intros Hnd Hall.
  destruct l as [|a [|b l]]; simpl; try lia.
  inversion Hall as [|? ? Ha Hrest]; subst.
  inversion Hrest as [|? ? Hb _]; subst.
  inversion Hnd as [|? ? Hnotin _]; subst.
  exfalso. apply Hnotin. simpl. left. congruence.
Qed.

Lemma pending_at_most_one k w :
  well_timed w -> k <> ReloginTimer -> (List.length (pending k w) <= 1)%nat.
Proof.
  intros (Hnd & _ & Htr) Hk. unfold pending.
  set (ref := match k with
              | WarningTimer => sessionTimeoutRef w
              | _ => activityTimeoutRef w
              end).
  assert (Href : Forall (fun t => Some (tid t) = ref)
                   (filter (fun t => kind_eqb (kind t) k) (timers w))).
  { apply Forall_forall. intros t Hin. apply filter_In in Hin.
    destruct Hin as [Hin Hkind]. rewrite Forall_forall in Htr.
    destruct (Htr t Hin) as [Hw Hl]. subst ref.
    destruct k, (kind t); try discriminate; try contradiction;
      symmetry; auto. }
  destruct ref as [id|].
  - apply (same_key_short tid id).
    + apply NoDup_map_filter, Hnd.
    + eapply Forall_impl; [|exact Href]. intros t [= ->]. reflexivity.
  - destruct (filter _ (timers w)) as [|t l]; simpl; [lia|].
    inversion Href as [|? ? Hbad _]. discriminate Hbad.
Qed.

(** Re-arming: the pair pending after the effect ran for a live session. *)
Lemma pending_timeoutEffect w :
  well_timed w -> live w = true ->
  pending WarningTimer (timeoutEffect w) =
    [{| tid := nextTimer w; due := clock w + (SESSION_TIMEOUT - WARNING_TIME);
        kind := WarningTimer |}]
  /\ pending LogoutTimer (timeoutEffect w) =
    [{| tid := S (nextTimer w); due := clock w + SESSION_TIMEOUT;
        kind := LogoutTimer |}].
Proof.
  intros Hw Hlive. unfold pending.
  destruct (timers_timeoutEffect w Hlive) as (-> & _).
  pose proof (clearTimeouts_only_relogin w Hw) as Hrel.
  rewrite !filter_app.
  rewrite (pending_none_of_relogin WarningTimer _ ltac:(discriminate) Hrel).
  rewrite (pending_none_of_relogin LogoutTimer _ ltac:(discriminate) Hrel).
  split; reflexivity.
Qed.

Lemma deps_eqb_eq a b : deps_eqb a b = true <-> a = b.
Proof.
  destruct a as [a1 a2], b as [b1 b2]. unfold deps_eqb. simpl.
  rewrite andb_true_iff, Bool.eqb_true_iff, Z.eqb_eq.
  split; [intros [-> ->]; reflexivity | intros [= -> ->]; split; reflexivity].
Qed.

(** A render whose dependencies changed re-arms a live session. *)
Lemma pending_commit_rearmed w :
  well_timed w -> live w = true ->
  timeoutDeps w <> Some (isAuthenticated (state w), lastActivity (state w)) ->
  map due (pending WarningTimer (commit w))
    = [clock w + (SESSION_TIMEOUT - WARNING_TIME)]
  /\ map due (pending LogoutTimer (commit w)) = [clock w + SESSION_TIMEOUT].
Proof.
  intros Hw Hlive Hdeps. unfold commit.
  match goal with
  | |- context [set_rendered ?d ?c ?x] =>
      change (pending WarningTimer (set_rendered d c x)) with (pending WarningTimer x);
      change (pending LogoutTimer (set_rendered d c x)) with (pending LogoutTimer x)
  end.
  destruct (timeoutDeps w) as [old|].
  - destruct (deps_eqb old _) eqn:E.
    + apply deps_eqb_eq in E. subst old. contradiction Hdeps. reflexivity.
    + unfold timeoutCleanup.
      destruct (pending_timeoutEffect (clearTimeouts w)) as [-> ->].
      * apply well_timed_clearTimeouts, Hw.
      * unfold live. rewrite state_clearTimeouts. exact Hlive.
      * rewrite clock_clearTimeouts. split; reflexivity.
  - destruct (pending_timeoutEffect w Hw Hlive) as [-> ->].
    split; reflexivity.
Qed.

(** Leaving the session, or unmounting, leaves neither pending. *)
Lemma pending_after_clear k w :
  well_timed w -> k <> ReloginTimer ->
  filter (fun t => kind_eqb (kind t) k) (timers (clearTimeouts w)) = [].
Proof.
  intros Hw Hk. apply pending_none_of_relogin; [exact Hk|].
  apply clearTimeouts_only_relogin, Hw.
Qed.

(** *** Time passing keeps the world reachable *)

Lemma earliest_in best ts t :
  earliest best ts = Some t -> best = Some t \/ In t ts.
Proof.
  revert best. induction ts as [|x ts IH]; simpl; intros best H.
  - left. exact H.
  - apply IH in H. destruct H as [H|H]; [|right; right; exact H].
    destruct best as [b|].
    + destruct (due x <? due b); injection H as <-; [right; left|left];
        reflexivity.
    + injection H as <-. right. left. reflexivity.
Qed.

Lemma next_due_spec target w t :
  next_due target w = Some t -> In t (timers w) /\ due t <= target.
Proof.
  unfold next_due. intros H. apply earliest_in in H.
  destruct H as [H|H]; [discriminate|].
  apply filter_In in H. destruct H as [Hin Hdue].
  split; [exact Hin | apply Z.leb_le, Hdue].
Qed.

Lemma clock_fire t w : clock (fire t w) = clock w.
Proof. unfold fire, clearTimeout. destruct (kind t); frame; reflexivity. Qed.

Lemma reachable_elapse_to fuel target w :
  Reachable w -> clock w <= target -> Reachable (elapse_to fuel target w).
Proof.
  revert w. induction fuel as [|fuel IH]; intros w Hr Hle; simpl.
  - apply R_tick; assumption.
  - destruct (next_due target w) as [t|] eqn:Hnext; [|apply R_tick; assumption].
    apply next_due_spec in Hnext. destruct Hnext as [Hin Hdue].
    apply IH.
    + apply R_commit, R_fire.
      * apply R_tick; [exact Hr | apply Z.le_max_l].
      * exact Hin.
      * simpl. apply Z.le_max_r.
    + rewrite clock_commit, clock_fire. simpl. apply Z.max_lub; assumption.
Qed.

Lemma reachable_elapse dt w :
  Reachable w -> 0 <= dt -> Reachable (elapse dt w).
Proof.
  intros Hr Hdt. unfold elapse. apply reachable_elapse_to; [exact Hr | lia].
Qed.

(** C7 as stated fails: once the warning has fired, a live session has the
    auto-logout timeout pending and no warning timeout. *)
Lemma warning_timer_absent_after_warning :
  Reachable (elapse (SESSION_TIMEOUT - WARNING_TIME) Example.signed_in)
  /\ live (elapse (SESSION_TIMEOUT - WARNING_TIME) Example.signed_in) = true
  /\ pending WarningTimer (elapse (SESSION_TIMEOUT - WARNING_TIME) Example.signed_in) = []
  /\ List.length
       (pending LogoutTimer (elapse (SESSION_TIMEOUT - WARNING_TIME) Example.signed_in))
     = 1%nat.
Proof.
  split.
  - apply reachable_elapse; [apply reachable_signed_in | discriminate].
  - split; [|split]; vm_compute; reflexivity.
Qed.


(** Activity one second before the auto-logout is due: the warning has
    fired by then; the pending auto-logout is cancelled, a new pair is armed
    a full window later, and the session outlives the old deadline. *)
Example activity_just_before_expiry :
  let w := commit (updateActivity (elapse (SESSION_TIMEOUT - 1000) Example.signed_in)) in
  In (ToastError "Your session will expire in 5 minutes. Please save your work.")
     (toasts w)
  /\ map due (pending WarningTimer w)
     = [1000 + (SESSION_TIMEOUT - 1000) + (SESSION_TIMEOUT - WARNING_TIME)]
  /\ map due (pending LogoutTimer w)
     = [1000 + (SESSION_TIMEOUT - 1000) + SESSION_TIMEOUT]
  /\ isAuthenticated (state (elapse 2000 w)) = true.
Proof.
  vm_compute. split; [right; left; reflexivity|].
  repeat split; reflexivity.
Qed.

(** Without activity the session is cleared when the window has passed, and
    the inactivity notice is emitted once. *)
Example inactivity_logs_out_once :
  cleared (elapse SESSION_TIMEOUT Example.signed_in)
  /\ List.length
       (filter (fun t => match t with
                         | ToastError m =>
                             (m =? "Session expired due to inactivity. Please log in again.")%string
                         | ToastSuccess _ => false
                         end)
          (toasts (elapse (2 * SESSION_TIMEOUT) Example.signed_in))) = 1%nat.
Proof. vm_compute. repeat split; reflexivity. Qed.

(** * Further properties of the provider and of the pages *)

(** ** A login that fails *)

(** A login that the server rejects while no session is authenticated: the
    message reported is the one of the answer, or else the one of the
    error; a single request is made and no refresh; the session is left
    unauthenticated with the message as its error and notice; what was
    persisted and attached before is not touched. *)
Theorem failed_login_reports_server_message
    fuel srv email password w msg :
  interceptorAuth w = false ->
  login_validate email password = None ->
  rejected_message "Login failed" (srv (List.length (sent w)) loginRequest)
    = Some msg ->
  exists w',
    login fuel srv email password w = Some (Failure msg, w')
    /\ sent w' = (sent w ++ [loginRequest])%list
    /\ toasts w' = (toasts w ++ [ToastError msg])%list
    /\ isAuthenticated (state w') = false
    /\ user (state w') = None
    /\ token (state w') = None
    /\ error (state w') = Some msg
    /\ loading (state w') = false
    /\ storage w' = storage w
    /\ authorization w' = authorization w
    /\ (forall status data m,
          srv (List.length (sent w)) loginRequest = HttpResponse status data ->
          p_message data = Some m -> m <> "" -> msg = m).
Proof.
  intros Hno Hval Hmsg. unfold login. rewrite Hval.
  rewrite axios_unauthenticated by exact Hno.
  change (sent (dispatch USER_LOADING w)) with (sent w).
  unfold rejected_message in Hmsg.
  destruct (settle defaultValidateStatus (srv (List.length (sent w)) loginRequest))
    as [status data|e] eqn:Hsettle; [discriminate|].
  injection Hmsg as Hmsg.
  unfold login_then, auth_then, auth_catch. rewrite Hmsg.
  eexists. split; [reflexivity|].
  repeat split.
  intros status data m Hraw Hm Hne. rewrite Hraw in Hsettle. simpl in Hsettle.
  destruct (defaultValidateStatus status); [discriminate|].
  injection Hsettle as <-. subst msg.
  unfold response_message, JS.or_else, JS.truthy, JS.or_default. simpl.
  rewrite Hm. destruct (String.eqb_spec m ""); [contradiction|]. simpl.
  destruct (String.eqb_spec m ""); [contradiction|reflexivity].
Qed.

Lemma failed_login_reports_server_message_witness :
  exists w',
    login 1 (fun _ _ => HttpResponse 401
               {| p_token := None; p_user := None; p_expiresIn := None;
                  p_message := Some "Invalid credentials" |})
      "ada@example.org" "wrong horse" Example.started
    = Some (Failure "Invalid credentials", w')
    /\ sent w' = [loginRequest]
    /\ isAuthenticated (state w') = false.
Proof.
  destruct (failed_login_reports_server_message 1
              (fun _ _ => HttpResponse 401
                 {| p_token := None; p_user := None; p_expiresIn := None;
                    p_message := Some "Invalid credentials" |})
              "ada@example.org" "wrong horse" Example.started
              "Invalid credentials")
    as (w' & Hlogin & Hsent & _ & Hauth & _); try (vm_compute; reflexivity).
  exists w'. split; [exact Hlogin|]. split; [exact Hsent | exact Hauth].
Defined.

(** A login answered with a token but no user: the token is attached and
    persisted and [LOGIN_SUCCESS] dispatched before the greeting reads the
    user's name; the error thrown there ends in [LOGIN_FAIL], so the call
    reports a failure and the session is unauthenticated, while the token
    stays attached and persisted. *)
Theorem login_without_user_keeps_token
    fuel srv email password w status data t :
  login_validate email password = None ->
  srv (List.length (sent w)) loginRequest = HttpResponse status data ->
  defaultValidateStatus status = true ->
  p_token data = Some t -> t <> "" ->
  List.length (JS.split "." t) = 3%nat ->
  p_user data = None ->
  exists w',
    login fuel srv email password w
    = Some (Failure (message TypeError_firstName), w')
    /\ isAuthenticated (state w') = false
    /\ token (state w') = None
    /\ error (state w') = Some (message TypeError_firstName)
    /\ authorization w' = Some t
    /\ storage w' = Some t
    /\ sent w' = (sent w ++ [loginRequest])%list.
Proof.
  intros Hval Hsrv Hok Htok Hne Hlen Huser.
  unfold login. rewrite Hval. unfold axios.
  rewrite (axios_resolved _ srv defaultValidateStatus loginRequest
             (dispatch USER_LOADING w) status data Hsrv Hok).
  unfold login_then, auth_then.
  rewrite Htok, (truthy_Some t Hne), (setAuthToken_three_segments t _ Hne Hlen), Huser.
  eexists. split; [reflexivity|]. repeat split.
Qed.

Lemma login_without_user_keeps_token_witness :
  exists w',
    login 1 (fun _ _ => HttpResponse 200
               {| p_token := Some "n.e.w"; p_user := None;
                  p_expiresIn := None; p_message := None |})
      "ada@example.org" "correct horse" Example.started
    = Some (Failure (message TypeError_firstName), w')
    /\ isAuthenticated (state w') = false
    /\ authorization w' = Some "n.e.w".
Proof.
  destruct (login_without_user_keeps_token 1
              (fun _ _ => HttpResponse 200
                 {| p_token := Some "n.e.w"; p_user := None;
                    p_expiresIn := None; p_message := None |})
              "ada@example.org" "correct horse" Example.started 200
              {| p_token := Some "n.e.w"; p_user := None;
                 p_expiresIn := None; p_message := None |} "n.e.w")
    as (w' & Hlogin & Hauth & _ & _ & Hattached & _);
    try (vm_compute; reflexivity).
  - discriminate.
  - exists w'. split; [exact Hlogin|]. split; [exact Hauth | exact Hattached].
Defined.

(** ** The spinner is always taken down *)

Lemma loading_auth_catch fail fallback e w :
  (forall m, fail m = LOGIN_FAIL m \/ fail m = REGISTER_FAIL m) ->
  loading (state (snd (auth_catch fail fallback e w))) = false
  /\ isInitialized (state (snd (auth_catch fail fallback e w))) = true.
Proof.
  intros Hfail. unfold auth_catch. cbn [snd].
  rewrite state_toast_error. unfold dispatch. cbn [state set_state].
  destruct (Hfail (JS.or_default (JS.or_else (response_message e) (Some (message e)))
                     fallback)) as [-> | ->]; split; reflexivity.
Qed.

Lemma loading_auth_then ok fail greeting invalid fallback r w :
  (forall p, ok p = LOGIN_SUCCESS p \/ ok p = REGISTER_SUCCESS p) ->
  (forall m, fail m = LOGIN_FAIL m \/ fail m = REGISTER_FAIL m) ->
  loading (state (snd (auth_then ok fail greeting invalid fallback r w))) = false
  /\ isInitialized (state (snd (auth_then ok fail greeting invalid fallback r w)))
     = true.
Proof.
  intros Hok Hfail. unfold auth_then.
  destruct r as [status data|e]; [|apply loading_auth_catch, Hfail].
  destruct (JS.truthy (p_token data)); [|apply loading_auth_catch, Hfail].
  destruct (setAuthToken (p_token data) w) as [attached w1].
  destruct attached; [|apply loading_auth_catch, Hfail].
  destruct (p_user data); [|apply loading_auth_catch, Hfail].
  cbn [snd]. unfold toast_success, dispatch. cbn [state set_toasts set_state].
  destruct (Hok data) as [-> | ->]; split; reflexivity.
Qed.

(** [login], [register] and [loadUser] raise [loading] for the spinner of
    the pages; whenever one of them returns, by whatever path, [loading] is
    false again and the session is marked initialized. *)
Theorem loading_is_reset_on_return
    atob JSON_parse coerce fuel srv email password formData w :
  (forall o w', login fuel srv email password w = Some (o, w') ->
      loading (state w') = false /\ isInitialized (state w') = true)
  /\ (forall o w', register fuel srv formData w = Some (o, w') ->
      loading (state w') = false /\ isInitialized (state w') = true)
  /\ (forall w', loadUser atob JSON_parse coerce fuel srv w = Some w' ->
      loading (state w') = false /\ isInitialized (state w') = true).
Proof.
  split; [|split].
  - intros o w'. unfold login.
    destruct (login_validate email password) as [msg|].
    + intros [= _ <-]. split; reflexivity.
    + destruct (axios fuel srv defaultValidateStatus loginRequest _)
        as [[r w1]|]; [|discriminate].
      intros [= Hthen].
      replace w' with (snd (login_then r w1)) by (rewrite Hthen; reflexivity).
      apply loading_auth_then; intros; left; reflexivity.
  - intros o w'. unfold register.
    destruct (register_validate formData) as [msg|].
    + intros [= _ <-]. split; reflexivity.
    + destruct (axios fuel srv defaultValidateStatus registerRequest _)
        as [[r w1]|]; [|discriminate].
      intros [= Hthen].
      replace w' with (snd (register_then r w1)) by (rewrite Hthen; reflexivity).
      apply loading_auth_then; intros; right; reflexivity.
  - intros w'. unfold loadUser.
    destruct (negb (JS.truthy (storage w))).
    { intros [= <-]. split; reflexivity. }
    destruct (negb (isTokenValid _ _ _ _ _)).
    { intros [= <-]. split; reflexivity. }
    destruct (setAuthToken (storage w) w) as [attached w1].
    destruct (negb attached).
    { intros [= <-]. split; reflexivity. }
    destruct (axios fuel srv meValidateStatus meRequest _)
      as [[r w3]|]; [|discriminate].
    intros [= <-]. unfold loadUser_then, loadUser_catch.
    destruct r as [status data|e].
    + destruct (p_user data); [destruct (status =? 200)|]; split; reflexivity.
    + split; reflexivity.
Qed.

Lemma loading_is_reset_on_return_witness :
  exists o w',
    login 1 (Example.issues Example.jwt) "ada@example.org" "correct horse"
      Example.started = Some (o, w')
    /\ loading (state w') = false.
Proof.
  destruct (login 1 (Example.issues Example.jwt) "ada@example.org"
              "correct horse" Example.started) as [[o w']|] eqn:Hlogin;
    [|vm_compute in Hlogin; discriminate Hlogin].
  exists o, w'. split; [reflexivity|].
  apply (loading_is_reset_on_return Host.atob Host.JSON_parse Host.coerce 1
           (Example.issues Example.jwt) "ada@example.org" "correct horse"
           {| f_email := ""; f_password := ""; f_firstName := "";
              f_lastName := ""; f_role := "" |} Example.started) in Hlogin.
  apply Hlogin.
Defined.

(** ** Inactivity and the forced re-login *)

Lemma rendered_commit w : rendered (commit w).
Proof. unfold rendered. rewrite state_commit. reflexivity. Qed.

(** A rendered world is not changed by another render. *)
Lemma commit_rendered w : rendered w -> timers (commit w) = timers w.
Proof.
  unfold rendered, commit. intros ->.
  assert (E : deps_eqb (isAuthenticated (state w), lastActivity (state w))
                (isAuthenticated (state w), lastActivity (state w)) = true)
    by (apply deps_eqb_eq; reflexivity).
  rewrite E. reflexivity.
Qed.

(** A render does not add timeouts to a session that is not live. *)
Lemma commit_idle_timers w t :
  live w = false -> In t (timers (commit w)) -> In t (timers w).
Proof.
  intros Hidle. unfold commit.
  match goal with
  | |- In t (timers (set_rendered ?d ?c ?x)) -> _ =>
      change (timers (set_rendered d c x)) with (timers x)
  end.
  assert (Hclear : In t (timers (clearTimeouts w)) -> In t (timers w)).
  { rewrite timers_clearTimeouts. intros H.
    apply filter_In in H. destruct H as [H _].
    apply filter_In in H. tauto. }
  destruct (timeoutDeps w) as [old|].
  - destruct (deps_eqb old _); [tauto|].
    unfold timeoutCleanup. rewrite timeoutEffect_idle; [exact Hclear|].
    unfold live. rewrite state_clearTimeouts. exact Hidle.
  - rewrite timeoutEffect_idle by exact Hidle. tauto.
Qed.

Lemma NoDup_map_injective {A B} (f : A -> B) l x y :
  NoDup (map f l) -> In x l -> In y l -> f x = f y -> x = y.
Proof.
  induction l as [|a l IH]; simpl; intros Hnd Hx Hy Hf; [contradiction|].
  inversion Hnd as [|? ? Hnotin Hnd']; subst.
  destruct Hx as [->|Hx], Hy as [->|Hy].
  - reflexivity.
  - exfalso. apply Hnotin. rewrite Hf. apply in_map, Hy.
  - exfalso. apply Hnotin. rewrite <- Hf. apply in_map, Hx.
  - apply IH; assumption.
Qed.

Lemma filter_drops {A} (p : A -> bool) l x :
  In x l -> p x = false -> (List.length (filter p l) < List.length l)%nat.
Proof.
  induction l as [|a l IH]; simpl; intros Hin Hp; [contradiction|].
  pose proof (filter_length_le p l) as Hle.
  destruct Hin as [->|Hin].
  - rewrite Hp. lia.
  - specialize (IH Hin Hp). destruct (p a); simpl; lia.
Qed.

Lemma earliest_found b ts : earliest (Some b) ts <> None.
Proof.
  revert b. induction ts as [|t ts IH]; simpl; intros b; [discriminate|].
  destruct (due t <? due b); apply IH.
Qed.

Lemma next_due_none target w t :
  next_due target w = None -> In t (timers w) -> target < due t.
Proof.
  unfold next_due. intros Hnone Hin.
  destruct (Z.leb_spec (due t) target) as [Hle|Hlt]; [|exact Hlt].
  assert (Hf : In t (filter (fun t => due t <=? target) (timers w))).
  { apply filter_In. split; [exact Hin | apply Z.leb_le, Hle]. }
  destruct (filter _ (timers w)) as [|x l]; [contradiction|].
  simpl in Hnone. exfalso. apply (earliest_found x l Hnone).
Qed.

(** The timeouts pending after a timeout ran and the world was rendered, in
    a world that was rendered before. *)
Lemma timers_after_fire t w :
  rendered w ->
  forall t', In t' (timers (commit (fire t w))) ->
             In t' (timers w) /\ tid t' <> tid t.
Proof.
  intros Hren t'.
  assert (Hcut : forall t', In t' (timers (clearTimeout (tid t) w)) ->
                            In t' (timers w) /\ tid t' <> tid t).
  { intros x H. unfold clearTimeout in H. simpl in H.
    apply filter_In in H. destruct H as [Hin Hne].
    split; [exact Hin|]. apply negb_true_iff, Nat.eqb_neq in Hne. exact Hne. }
  unfold fire. destruct (kind t).
  - rewrite commit_rendered; [apply Hcut|].
    unfold rendered in *. exact Hren.
  - intros H. apply commit_idle_timers in H.
    + unfold toast_error, logoutSilent, removeCredential, dispatch in H.
      cbn [timers set_toasts set_state] in H.
      rewrite timers_clearTimeouts in H.
      apply filter_In in H. destruct H as [H _].
      apply filter_In in H. destruct H as [H _]. apply Hcut, H.
    + unfold live. rewrite state_toast_error, state_logoutSilent. reflexivity.
  - intros H. apply commit_idle_timers in H.
    + unfold logout, toast_success, removeCredential, dispatch in H.
      cbn [timers set_toasts set_state] in H.
      rewrite timers_clearTimeouts in H.
      apply filter_In in H. destruct H as [H _].
      apply filter_In in H. destruct H as [H _]. apply Hcut, H.
    + unfold live. rewrite state_logout. reflexivity.
Qed.

Lemma length_after_fire t w :
  rendered w -> In t (timers w) ->
  (List.length (timers (commit (fire t w))) < List.length (timers w))%nat.
Proof.
  intros Hren Hin.
  assert (Hcut : (List.length (timers (clearTimeout (tid t) w))
                  < List.length (timers w))%nat).
  { unfold clearTimeout. simpl.
    apply (filter_drops _ _ t Hin). rewrite Nat.eqb_refl. reflexivity. }
  assert (Hclear : forall x,
             (List.length (timers (clearTimeouts x)) <= List.length (timers x))%nat).
  { intros x. rewrite timers_clearTimeouts.
    etransitivity; apply filter_length_le. }
  assert (Hidle : forall x, live x = false ->
             (List.length (timers (commit x)) <= List.length (timers x))%nat).
  { intros x Hx. unfold commit.
    match goal with
    | |- (List.length (timers (set_rendered ?d ?c ?y)) <= _)%nat =>
        change (timers (set_rendered d c y)) with (timers y)
    end.
    destruct (timeoutDeps x) as [old|].
    - destruct (deps_eqb old _); [lia|].
      unfold timeoutCleanup. rewrite timeoutEffect_idle; [apply Hclear|].
      unfold live. rewrite state_clearTimeouts. exact Hx.
    - rewrite timeoutEffect_idle by exact Hx. lia. }
  unfold fire. destruct (kind t).
  - rewrite commit_rendered; [exact Hcut | exact Hren].
  - eapply Nat.le_lt_trans; [apply Hidle|].
    + unfold live. rewrite state_toast_error, state_logoutSilent. reflexivity.
    + unfold toast_error, logoutSilent, removeCredential, dispatch.
      cbn [timers set_toasts set_state].
      eapply Nat.le_lt_trans; [apply Hclear | exact Hcut].
  - eapply Nat.le_lt_trans; [apply Hidle|].
    + unfold live. rewrite state_logout. reflexivity.
    + unfold logout, toast_success, removeCredential, dispatch.
      cbn [timers set_toasts set_state].
      eapply Nat.le_lt_trans; [apply Hclear | exact Hcut].
Qed.

Lemma cleared_frame w w' :
  isAuthenticated (state w') = isAuthenticated (state w) ->
  token (state w') = token (state w) ->
  user (state w') = user (state w) ->
  sessionExpiry (state w') = sessionExpiry (state w) ->
  storage w' = storage w -> authorization w' = authorization w ->
  cleared w -> cleared w'.
Proof.
  unfold cleared. intros -> -> -> -> -> ->. tauto.
Qed.

Lemma cleared_commit w : cleared w -> cleared (commit w).
Proof.
  apply cleared_frame; autorewrite with frame; reflexivity.
Qed.

(** What a timeout that ran leaves of the session: the warning leaves it as
    it was, the two others leave it cleared. *)
Lemma fire_session t w :
  match kind t with
  | WarningTimer =>
      isAuthenticated (state (fire t w)) = isAuthenticated (state w)
      /\ token (state (fire t w)) = token (state w)
      /\ user (state (fire t w)) = user (state w)
      /\ sessionExpiry (state (fire t w)) = sessionExpiry (state w)
      /\ lastActivity (state (fire t w)) = lastActivity (state w)
      /\ storage (fire t w) = storage w
      /\ authorization (fire t w) = authorization w
  | _ => cleared (fire t w)
  end.
Proof.
  unfold fire. destruct (kind t).
  - repeat split.
  - apply (cleared_frame (logoutSilent (clearTimeout (tid t) w)));
      try reflexivity. apply cleared_logoutSilent.
  - apply cleared_logout.
Qed.

(** Once the clock has passed the time at which a pending auto-logout or
    re-login timeout is due, the session is cleared. *)
Lemma elapse_to_clears fuel target w :
  (List.length (timers w) <= fuel)%nat ->
  rendered w -> well_timed w ->
  cleared w
  \/ (exists t, In t (timers w) /\ kind t <> WarningTimer /\ due t <= target) ->
  cleared (elapse_to fuel target w).
Proof.
  revert w. induction fuel as [|fuel IH]; intros w Hlen Hren Hwt Hcase.
  - simpl. destruct Hcase as [Hc | (t & Hin & _)]; [exact Hc|].
    destruct (timers w); [contradiction | simpl in Hlen; lia].
  - simpl. destruct (next_due target w) as [t|] eqn:Hnext.
    + pose proof (next_due_spec target w t Hnext) as [Hin Hdue].
      set (w0 := set_clock (Z.max (clock w) (due t)) w).
      assert (Hren0 : rendered w0) by exact Hren.
      apply IH.
      * pose proof (length_after_fire t w0 Hren0 Hin). simpl in *. lia.
      * apply rendered_commit.
      * apply well_timed_commit, well_timed_fire. exact Hwt.
      * pose proof (fire_session t w0) as Hfire.
        destruct (kind t) eqn:Hkind.
        -- destruct Hcase as [Hc | (t0 & Hin0 & Hk0 & Hdue0)].
           ++ left. apply cleared_commit.
              destruct Hfire as (E1 & E2 & E3 & E4 & _ & E5 & E6).
              apply (cleared_frame w); assumption.
           ++ right. exists t0. split; [|split; assumption].
              rewrite commit_rendered.
              ** unfold fire. rewrite Hkind. unfold clearTimeout. simpl.
                 apply filter_In. split; [exact Hin0|].
                 apply negb_true_iff, Nat.eqb_neq. intros Heq.
                 destruct Hwt as (Hnd & _).
                 pose proof (NoDup_map_injective tid _ t0 t Hnd Hin0 Hin Heq).
                 subst t0. contradiction.
              ** unfold fire. rewrite Hkind. exact Hren.
        -- left. apply cleared_commit, Hfire.
        -- left. apply cleared_commit, Hfire.
    + destruct Hcase as [Hc | (t & Hin & _ & Hdue)]; [exact Hc|].
      pose proof (next_due_none target w t Hnext Hin). lia.
Qed.

(** While no auto-logout or re-login timeout is due yet, time passing
    leaves the session, the persisted token and the attached credential as
    they are: only the warning can run. *)
Lemma elapse_to_keeps fuel target w :
  rendered w ->
  (forall t, In t (timers w) -> kind t <> WarningTimer -> target < due t) ->
  isAuthenticated (state (elapse_to fuel target w)) = isAuthenticated (state w)
  /\ token (state (elapse_to fuel target w)) = token (state w)
  /\ user (state (elapse_to fuel target w)) = user (state w)
  /\ storage (elapse_to fuel target w) = storage w
  /\ authorization (elapse_to fuel target w) = authorization w.
Proof.
  revert w. induction fuel as [|fuel IH]; intros w Hren Hlate.
  - simpl. repeat split.
  - simpl. destruct (next_due target w) as [t|] eqn:Hnext; [|repeat split].
    pose proof (next_due_spec target w t Hnext) as [Hin Hdue].
    set (w0 := set_clock (Z.max (clock w) (due t)) w).
    assert (Hkind : kind t = WarningTimer).
    { destruct (kind t) eqn:Hk; [reflexivity| |];
        (assert (target < due t) by (apply Hlate; [exact Hin | congruence]); lia). }
    pose proof (fire_session t w0) as Hfire. rewrite Hkind in Hfire.
    destruct Hfire as (E1 & E2 & E3 & _ & _ & E5 & E6).
    destruct (IH (commit (fire t w0))) as (F1 & F2 & F3 & F4 & F5).
    + apply rendered_commit.
    + intros t' Hin' Hk'.
      apply (timers_after_fire t w0 Hren) in Hin'. destruct Hin' as [Hin' _].
      apply Hlate; assumption.
    + rewrite F1, F2, F3, F4, F5. autorewrite with frame.
      rewrite E1, E2, E3, E5, E6. repeat split.
Qed.

(** The timeouts pending after a render that re-armed a live session: the
    re-login timeouts that were pending, a warning, and the auto-logout due
    a full window later. *)
Lemma timers_commit_rearmed w t :
  well_timed w -> live w = true ->
  timeoutDeps w <> Some (isAuthenticated (state w), lastActivity (state w)) ->
  In t (timers (commit w)) ->
  (In t (timers w) /\ kind t = ReloginTimer)
  \/ kind t = WarningTimer
  \/ (kind t = LogoutTimer /\ due t = clock w + SESSION_TIMEOUT).
Proof.
  intros Hwt Hlive Hdeps. unfold commit.
  match goal with
  | |- In t (timers (set_rendered ?d ?c ?x)) -> _ =>
      change (timers (set_rendered d c x)) with (timers x)
  end.
  assert (Harmed : forall x, well_timed x -> live x = true ->
            clock x = clock w ->
            (forall t, In t (timers x) -> In t (timers w)) ->
            In t (timers (timeoutEffect x)) ->
            (In t (timers w) /\ kind t = ReloginTimer)
            \/ kind t = WarningTimer
            \/ (kind t = LogoutTimer /\ due t = clock w + SESSION_TIMEOUT)).
  { intros x Hx Hlx Hclock Hsub Hin.
    destruct (timers_timeoutEffect x Hlx) as (E & _). rewrite E in Hin.
    apply in_app_or in Hin. destruct Hin as [Hin | [<- | [<- | []]]].
    - left. split.
      + apply Hsub. rewrite timers_clearTimeouts in Hin.
        apply filter_In in Hin. destruct Hin as [Hin _].
        apply filter_In in Hin. tauto.
      + pose proof (clearTimeouts_only_relogin x Hx) as Hrel.
        rewrite Forall_forall in Hrel. apply Hrel, Hin.
    - right. left. reflexivity.
    - right. right. simpl. rewrite Hclock. split; reflexivity. }
  destruct (timeoutDeps w) as [old|].
  - destruct (deps_eqb old _) eqn:E.
    + apply deps_eqb_eq in E. subst old. contradiction Hdeps. reflexivity.
    + unfold timeoutCleanup. apply Harmed.
      * apply well_timed_clearTimeouts, Hwt.
      * unfold live. rewrite state_clearTimeouts. exact Hlive.
      * apply clock_clearTimeouts.
      * intros x Hx. rewrite timers_clearTimeouts in Hx.
        apply filter_In in Hx. destruct Hx as [Hx _].
        apply filter_In in Hx. tauto.
  - apply Harmed; try assumption; [reflexivity | tauto].
Qed.

(** After activity in a live session, the session is cleared once
    [SESSION_TIMEOUT] has passed without further activity, and, when no
    re-login is scheduled, it stays authenticated with its token until
    then. *)
Theorem inactivity_logs_out_at_timeout w dt :
  Reachable w -> live w = true ->
  timeoutDeps w <> Some (true, clock w) ->
  (SESSION_TIMEOUT <= dt ->
   cleared (elapse dt (commit (updateActivity w))))
  /\ (0 <= dt < SESSION_TIMEOUT -> pending ReloginTimer w = [] ->
      isAuthenticated (state (elapse dt (commit (updateActivity w)))) = true
      /\ token (state (elapse dt (commit (updateActivity w)))) = token (state w)
      /\ storage (elapse dt (commit (updateActivity w))) = storage w
      /\ authorization (elapse dt (commit (updateActivity w))) = authorization w).
Proof.
  intros Hr Hlive Hdeps.
  pose proof (reachable_well_timed w Hr) as Hwt.
  assert (Hauth : isAuthenticated (state w) = true).
  { unfold live in Hlive. apply andb_prop in Hlive. tauto. }
  set (w1 := commit (updateActivity w)).
  assert (Hdeps1 : timeoutDeps (updateActivity w)
                   <> Some (isAuthenticated (state (updateActivity w)),
                            lastActivity (state (updateActivity w)))).
  { simpl. rewrite Hauth. exact Hdeps. }
  assert (Hclock : clock w1 = clock w) by (unfold w1; rewrite clock_commit; reflexivity).
  split.
  - intros Hdt. unfold elapse. apply elapse_to_clears.
    + lia.
    + apply rendered_commit.
    + apply well_timed_commit. exact Hwt.
    + right.
      destruct (pending_commit_rearmed (updateActivity w) Hwt Hlive Hdeps1)
        as [_ Hout].
      fold w1 in Hout.
      destruct (pending LogoutTimer w1) as [|t [|t' l]] eqn:Hp;
        try discriminate Hout.
      injection Hout as Hdue.
      assert (Hin : In t (pending LogoutTimer w1)) by (rewrite Hp; left; reflexivity).
      unfold pending in Hin. apply filter_In in Hin. destruct Hin as [Hin Hk].
      exists t. split; [exact Hin|]. split.
      * destruct (kind t); discriminate || (intros H0; discriminate H0).
      * rewrite Hdue, Hclock. simpl. lia.
  - intros Hdt Hnone. unfold elapse.
    destruct (elapse_to_keeps (List.length (timers w1)) (clock w1 + dt) w1)
      as (E1 & E2 & E3 & E4 & E5).
    + apply rendered_commit.
    + intros t Hin Hk.
      apply (timers_commit_rearmed (updateActivity w) t Hwt Hlive Hdeps1) in Hin.
      destruct Hin as [[Hin Hrel] | [Hwarn | [_ Hdue]]].
      * exfalso.
        assert (Hp : In t (pending ReloginTimer w)).
        { unfold pending. apply filter_In. split; [exact Hin|].
          rewrite Hrel. reflexivity. }
        rewrite Hnone in Hp. contradiction.
      * contradiction.
      * rewrite Hdue, Hclock. simpl. lia.
    + rewrite E1, E2, E4, E5. unfold w1. autorewrite with frame.
      simpl. rewrite Hauth. repeat split.
Qed.

Lemma inactivity_logs_out_at_timeout_witness :
  cleared (elapse SESSION_TIMEOUT
             (commit (updateActivity (elapse 60000 Example.signed_in))))
  /\ isAuthenticated
       (state (elapse (SESSION_TIMEOUT - 1)
                 (commit (updateActivity (elapse 60000 Example.signed_in)))))
     = true.
Proof.
  assert (Hr : Reachable (elapse 60000 Example.signed_in))
    by (apply reachable_elapse; [apply reachable_signed_in | discriminate]).
  split.
  - apply (inactivity_logs_out_at_timeout _ SESSION_TIMEOUT Hr).
    + vm_compute. reflexivity.
    + vm_compute. discriminate.
    + apply Z.le_refl.
  - apply (inactivity_logs_out_at_timeout _ (SESSION_TIMEOUT - 1) Hr).
    + vm_compute. reflexivity.
    + vm_compute. discriminate.
    + unfold SESSION_TIMEOUT. lia.
    + vm_compute. reflexivity.
Defined.

(** ** The forced re-login after a password change *)

Lemma refs_apart_shrink w w' :
  sessionTimeoutRef w' = sessionTimeoutRef w ->
  activityTimeoutRef w' = activityTimeoutRef w ->
  (nextTimer w <= nextTimer w')%nat ->
  (forall t, In t (timers w') -> In t (timers w)) ->
  refs_apart w -> refs_apart w'.
Proof.
  intros Hs Ha Hn Hsub Hw id Hid. rewrite Hs, Ha in Hid.
  destruct (Hw id Hid) as [Hlt Hneq]. split; [lia|].
  intros t Hin. apply Hneq, Hsub, Hin.
Qed.

Lemma refs_apart_clearTimeout id w :
  refs_apart w -> refs_apart (clearTimeout id w).
Proof.
  apply refs_apart_shrink; try reflexivity.
  intros t Hin. unfold clearTimeout in Hin. simpl in Hin.
  apply filter_In in Hin. tauto.
Qed.

Lemma refs_apart_clearTimeouts w :
  refs_apart w -> refs_apart (clearTimeouts w).
Proof.
  apply refs_apart_shrink.
  - apply clearTimeouts_frame.
  - apply clearTimeouts_frame.
  - rewrite nextTimer_clearTimeouts. apply Nat.le_refl.
  - intros t Hin. rewrite timers_clearTimeouts in Hin.
    apply filter_In in Hin. destruct Hin as [Hin _].
    apply filter_In in Hin. tauto.
Qed.

Lemma refs_apart_relogin w :
  refs_apart w -> refs_apart (snd (setTimeout ReloginTimer 2000 w)).
Proof.
  intros Hw id Hid. simpl in Hid. destruct (Hw id Hid) as [Hlt Hneq].
  split; [simpl; lia|].
  intros t Hin. simpl in Hin. apply in_app_or in Hin.
  destruct Hin as [Hin | [<- | []]]; [apply Hneq, Hin|].
  intros _. simpl. lia.
Qed.

Lemma refs_apart_timeoutEffect w :
  well_timed w -> refs_apart w -> refs_apart (timeoutEffect w).
Proof.
  intros Hwt Hw. destruct (live w) eqn:Hlive;
    [|rewrite timeoutEffect_idle by exact Hlive; exact Hw].
  pose proof (well_timed_clearTimeouts w Hwt) as (_ & Hfresh & _).
  rewrite nextTimer_clearTimeouts, Forall_forall in Hfresh.
  destruct (timers_timeoutEffect w Hlive) as (Ht & Hs & Ha & Hn).
  intros id Hid. rewrite Hs, Ha in Hid. rewrite Ht, Hn.
  split; [destruct Hid as [[= <-] | [= <-]]; lia|].
  intros t Hin Hk. apply in_app_or in Hin.
  destruct Hin as [Hin | [<- | [<- | []]]]; try discriminate Hk.
  specialize (Hfresh t Hin). destruct Hid as [[= <-] | [= <-]]; lia.
Qed.

Lemma refs_apart_commit w :
  well_timed w -> refs_apart w -> refs_apart (commit w).
Proof.
  intros Hwt Hw. unfold commit.
  match goal with
  | |- refs_apart (set_rendered ?d ?c ?x) =>
      change (refs_apart (set_rendered d c x)) with (refs_apart x)
  end.
  destruct (timeoutDeps w) as [old|].
  - destruct (deps_eqb old _); [exact Hw|].
    apply refs_apart_timeoutEffect.
    + apply well_timed_clearTimeouts, Hwt.
    + apply refs_apart_clearTimeouts, Hw.
  - apply refs_apart_timeoutEffect; assumption.
Qed.

Lemma refs_apart_fire t w : refs_apart w -> refs_apart (fire t w).
Proof.
  intros Hw. pose proof (refs_apart_clearTimeout (tid t) w Hw) as Hc.
  unfold fire. destruct (kind t).
  - exact Hc.
  - apply (refs_apart_clearTimeouts
             (set_credential None None (clearTimeout (tid t) w)) Hc).
  - apply (refs_apart_clearTimeouts
             (set_credential None None (clearTimeout (tid t) w)) Hc).
Qed.

Lemma reachable_refs_apart w : Reachable w -> refs_apart w.
Proof.
  induction 1 as [stored now | a w _ IH | s h w _ IH | w _ IH | ts w _ IH
                 | rs w _ IH | w _ IH | t w _ IH Hin Hdue | t w _ IH Hle
                 | w Hr IH].
  - apply refs_apart_commit.
    + repeat split; constructor.
    + intros id [H|H]; discriminate H.
  - exact IH.
  - exact IH.
  - apply refs_apart_clearTimeouts, IH.
  - exact IH.
  - exact IH.
  - apply refs_apart_relogin, IH.
  - apply refs_apart_fire, IH.
  - exact IH.
  - apply refs_apart_commit; [apply reachable_well_timed, Hr | exact IH].
Qed.

Lemma kept_clearTimeouts w t :
  In t (timers w) ->
  sessionTimeoutRef w <> Some (tid t) -> activityTimeoutRef w <> Some (tid t) ->
  In t (timers (clearTimeouts w)).
Proof.
  intros Hin Hs Ha. rewrite timers_clearTimeouts.
  assert (Hkept : forall ref, ref <> Some (tid t) -> kept ref t = true).
  { intros [id|] Href; [|reflexivity]. simpl.
    apply negb_true_iff, Nat.eqb_neq. congruence. }
  apply filter_In. split; [|apply Hkept, Ha].
  apply filter_In. split; [exact Hin | apply Hkept, Hs].
Qed.

(** A pending re-login timeout is not cancelled by a render. *)
Lemma relogin_survives_commit w t :
  refs_apart w -> In t (timers w) -> kind t = ReloginTimer ->
  In t (timers (commit w)).
Proof.
  intros Hw Hin Hk. unfold commit.
  match goal with
  | |- In t (timers (set_rendered ?d ?c ?x)) =>
      change (timers (set_rendered d c x)) with (timers x)
  end.
  assert (Hrefs : sessionTimeoutRef w <> Some (tid t)
                  /\ activityTimeoutRef w <> Some (tid t)).
  { split; intros Href.
    - destruct (Hw (tid t) (or_introl Href)) as [_ Hneq].
      apply (Hneq t Hin Hk). reflexivity.
    - destruct (Hw (tid t) (or_intror Href)) as [_ Hneq].
      apply (Hneq t Hin Hk). reflexivity. }
  destruct Hrefs as [Hs Ha].
  assert (Heffect : forall x, In t (timers x) ->
            sessionTimeoutRef x <> Some (tid t) ->
            activityTimeoutRef x <> Some (tid t) ->
            In t (timers (timeoutEffect x))).
  { intros x Hx Hsx Hax. destruct (live x) eqn:Hlive;
      [|rewrite timeoutEffect_idle by exact Hlive; exact Hx].
    destruct (timers_timeoutEffect x Hlive) as (-> & _).
    apply in_or_app. left. apply kept_clearTimeouts; assumption. }
  destruct (timeoutDeps w) as [old|].
  - destruct (deps_eqb old _); [exact Hin|].
    unfold timeoutCleanup.
    destruct (clearTimeouts_frame w) as (_ & _ & _ & _ & _ & _ & Es & Ea & _).
    apply Heffect.
    + apply kept_clearTimeouts; assumption.
    + rewrite Es. exact Hs.
    + rewrite Ea. exact Ha.
  - apply Heffect; assumption.
Qed.

(** A password change that succeeded ends the session: whatever the state
    of the provider was, two seconds after [changePassword] returned its
    success the session fields, the persisted token and the attached
    credential are cleared.  A success needs a new password of eight
    characters or more and notifies the user. *)
Theorem password_change_forces_relogin fuel srv currentPassword newPassword w w' dt :
  Reachable w ->
  changePassword fuel srv currentPassword newPassword w = Some (true, w') ->
  2000 <= dt ->
  cleared (elapse dt (commit w'))
  /\ (8 <= String.length newPassword)%nat
  /\ In changePasswordRequest (sent w')
  /\ In (ToastSuccess "Password changed successfully. Please log in again.")
        (toasts w').
Proof.
  intros Hr Hchange Hdt.
  pose proof (reachable_changePassword _ _ _ _ _ _ _ Hr Hchange) as Hr'.
  unfold changePassword in Hchange.
  destruct (Nat.ltb (String.length newPassword) 8) eqn:Hlen;
    [discriminate Hchange|].
  apply Nat.ltb_ge in Hlen.
  destruct (axios fuel srv defaultValidateStatus changePasswordRequest w)
    as [[r w1]|] eqn:Haxios; [|discriminate Hchange].
  destruct r as [status data|e]; [|discriminate Hchange].
  injection Hchange as <-.
  set (w2 := toast_success "Password changed successfully. Please log in again." w1) in *.
  set (t0 := {| tid := nextTimer w2; due := clock w2 + 2000; kind := ReloginTimer |}).
  assert (Hin : In t0 (timers (snd (setTimeout ReloginTimer 2000 w2)))).
  { simpl. apply in_or_app. right. left. reflexivity. }
  split; [|split; [exact Hlen|split]].
  - unfold elapse. apply elapse_to_clears.
    + apply Nat.le_refl.
    + apply rendered_commit.
    + apply well_timed_commit, reachable_well_timed, Hr'.
    + right. exists t0. split; [|split].
      * apply relogin_survives_commit;
          [apply reachable_refs_apart, Hr' | exact Hin | reflexivity].
      * discriminate.
      * rewrite clock_commit. simpl. lia.
  - destruct (axios_sent _ _ _ _ _ _ _ Haxios) as [more Hsent].
    change (In changePasswordRequest (sent w1)). rewrite Hsent.
    apply in_or_app. right. left. reflexivity.
  - simpl. apply in_or_app. right. left. reflexivity.
Qed.

Lemma password_change_forces_relogin_witness :
  cleared
    (elapse 2000
       (commit
          (match changePassword 1 (Example.always 200) "old secret" "new secret"
                   Example.signed_in with
           | Some (_, w') => w'
           | None => Example.signed_in
           end))).
Proof.
  destruct (password_change_forces_relogin 1 (Example.always 200)
              "old secret" "new secret" Example.signed_in
              (match changePassword 1 (Example.always 200) "old secret" "new secret"
                       Example.signed_in with
               | Some (_, w') => w'
               | None => Example.signed_in
               end) 2000 reachable_signed_in) as [H _].
  - vm_compute. reflexivity.
  - lia.
  - exact H.
Defined.

(** ** The password form of the profile page *)

(** A new password that differs from its confirmation, or is shorter than
    eight characters, is turned down without any request: the session, the
    credential and the pending timeouts stay as they are.  A mismatch
    changes nothing at all; a short password is reported by the notice
    "Password change failed", the message of the thrown error being
    dropped. *)
Theorem password_form_rejects_locally
    fuel srv currentPassword newPassword confirmPassword w :
  newPassword <> confirmPassword \/ (String.length newPassword < 8)%nat ->
  exists r w',
    handlePasswordSubmit fuel srv currentPassword newPassword confirmPassword w
      = Some (r, w')
    /\ r <> Changed true
    /\ sent w' = sent w
    /\ state w' = state w
    /\ storage w' = storage w
    /\ authorization w' = authorization w
    /\ timers w' = timers w
    /\ (newPassword <> confirmPassword -> r = Mismatch /\ w' = w)
    /\ (newPassword = confirmPassword ->
        r = Changed false
        /\ toasts w' = (toasts w ++ [ToastError "Password change failed"])%list).
Proof.
  intros Hcase. unfold handlePasswordSubmit.
  destruct (String.eqb_spec newPassword confirmPassword) as [Heq|Hneq]; simpl.
  - destruct Hcase as [Hneq|Hshort]; [contradiction|].
    unfold changePassword. apply Nat.ltb_lt in Hshort. rewrite Hshort.
    eexists. eexists. split; [reflexivity|].
    split; [discriminate|].
    repeat split; try reflexivity; contradiction.
  - exists Mismatch, w. split; [reflexivity|].
    split; [discriminate|].
    repeat split; try reflexivity; contradiction.
Qed.

Lemma password_form_rejects_locally_witness :
  exists w',
    handlePasswordSubmit 1 (Example.always 200) "old secret" "short" "short"
      Example.signed_in = Some (Changed false, w')
    /\ sent w' = sent Example.signed_in
    /\ toasts w'
       = (toasts Example.signed_in ++ [ToastError "Password change failed"])%list.
Proof.
  destruct (password_form_rejects_locally 1 (Example.always 200)
              "old secret" "short" "short" Example.signed_in)
    as (r & w' & Hrun & _ & Hsent & _ & _ & _ & _ & _ & Hsame).
  - right. simpl. lia.
  - destruct (Hsame eq_refl) as [-> Htoasts].
    exists w'. split; [exact Hrun|]. split; [exact Hsent | exact Htoasts].
Defined.

(** ** Profile updates *)

Lemma axios_rejected_through fuel srv validateStatus req w e :
  settle validateStatus (srv (List.length (sent w)) req) = Rejected e ->
  status_is 401 e && interceptorAuth w = false ->
  axios fuel srv validateStatus req w =
  Some (Rejected e, set_sent (sent w ++ [req]) w).
Proof.
  intros Hsettle Hquiet. unfold axios, axios_with, onRejected.
  rewrite Hsettle, Hquiet. reflexivity.
Qed.

(** A profile update never touches the token, the session expiry, the
    persisted token or the attached credential, and itself sets and clears
    no timeout, as long as its answer does not set off a refresh.  An answer
    axios accepts replaces the user by the one the answer carries, which may
    be none, marks the session authenticated and counts as activity:
    [lastActivity] moves to the clock, so that the next render of a live
    session cancels the pending pair and arms both timeouts a full window
    later.  Any other answer changes the state in nothing, so that the next
    render leaves the timeouts as they are, and is reported by the server's
    message or, without one, by "Profile update failed". *)
Theorem profile_update_keeps_credential fuel srv w :
  is_401 (srv (List.length (sent w)) profileRequest) && interceptorAuth w = false ->
  exists w',
    updateProfile fuel srv w = Some w'
    /\ sent w' = (sent w ++ [profileRequest])%list
    /\ token (state w') = token (state w)
    /\ sessionExpiry (state w') = sessionExpiry (state w)
    /\ storage w' = storage w
    /\ authorization w' = authorization w
    /\ timers w' = timers w
    /\ match settle defaultValidateStatus (srv (List.length (sent w)) profileRequest) with
       | Resolved _ data =>
           user (state w') = p_user data
           /\ isAuthenticated (state w') = true
           /\ lastActivity (state w') = clock w
           /\ toasts w' = (toasts w ++ [ToastSuccess "Profile updated successfully"])%list
           /\ (Reachable w -> JS.truthy (token (state w)) = true ->
               timeoutDeps w <> Some (true, clock w) ->
               map due (pending WarningTimer (commit w'))
                 = [clock w + (SESSION_TIMEOUT - WARNING_TIME)]
               /\ map due (pending LogoutTimer (commit w'))
                  = [clock w + SESSION_TIMEOUT])
       | Rejected e =>
           state w' = state w
           /\ toasts w'
              = (toasts w
                 ++ [ToastError (JS.or_default (response_message e)
                                   "Profile update failed")])%list
           /\ (rendered w -> timers (commit w') = timers w)
       end.
Proof.
  intros Hquiet. unfold updateProfile.
  destruct (settle defaultValidateStatus (srv (List.length (sent w)) profileRequest))
    as [status data|e] eqn:Hsettle.
  - assert (Hraw : srv (List.length (sent w)) profileRequest = HttpResponse status data
                   /\ defaultValidateStatus status = true).
    { destruct (srv (List.length (sent w)) profileRequest) as [s d|c m];
        [|discriminate Hsettle].
      simpl in Hsettle. destruct (defaultValidateStatus s) eqn:Hv;
        [|discriminate Hsettle].
      injection Hsettle as <- <-. split; [reflexivity | exact Hv]. }
    destruct Hraw as [Hraw Hv]. unfold axios.
    rewrite (axios_resolved _ srv defaultValidateStatus profileRequest w status data Hraw Hv).
    eexists. split; [reflexivity|].
    do 6 (split; [reflexivity|]).
    do 4 (split; [reflexivity|]).
    intros Hr Htok Hdeps.
    match goal with
    | |- map due (pending WarningTimer (commit ?x)) = _ /\ _ =>
        apply (pending_commit_rearmed x)
    end.
    + apply reachable_well_timed. unfold updateProfile_then, toast_success.
      apply R_toasts, R_dispatch, R_sent, Hr.
    + unfold live. simpl. exact Htok.
    + simpl. exact Hdeps.
  - assert (Hquiet' : status_is 401 e && interceptorAuth w = false).
    { destruct (srv (List.length (sent w)) profileRequest) as [s d|c m].
      - simpl in Hsettle. destruct (defaultValidateStatus s);
          [discriminate Hsettle|].
        injection Hsettle as <-. exact Hquiet.
      - injection Hsettle as <-. reflexivity. }
    rewrite (axios_rejected_through fuel srv _ _ w e Hsettle Hquiet').
    eexists. split; [reflexivity|].
    do 6 (split; [reflexivity|]).
    do 2 (split; [reflexivity|]).
    intros Hren.
    match goal with
    | |- timers (commit ?x) = _ => apply (commit_rendered x)
    end.
    exact Hren.
Qed.

(** A profile update that succeeded a minute into the session: the next
    render re-arms the two timeouts, a minute later than they were. *)
Example profile_update_counts_as_activity :
  let w := elapse 60000 Example.signed_in in
  map due (timers w) = [1501000; 1801000]
  /\ match updateProfile 1 (Example.issues Example.jwt) w with
     | Some w' => map due (timers w') = [1501000; 1801000]
                  /\ map due (timers (commit w')) = [1561000; 1861000]
     | None => False
     end.
Proof. vm_compute. repeat split; reflexivity. Qed.

Lemma profile_update_keeps_credential_witness :
  exists w',
    updateProfile 1 (Example.always 422) Example.signed_in = Some w'
    /\ state w' = state Example.signed_in
    /\ storage w' = Some Example.jwt
    /\ toasts w'
       = (toasts Example.signed_in ++ [ToastError "Profile update failed"])%list.
Proof.
  destruct (profile_update_keeps_credential 1 (Example.always 422) Example.signed_in)
    as (w' & Hrun & _ & _ & _ & Hst & _ & _ & Hcase).
  - reflexivity.
  - exists w'. split; [exact Hrun|].
    assert (Hsettle : settle defaultValidateStatus
                        (Example.always 422 (List.length (sent Example.signed_in))
                           profileRequest)
                      = Rejected {| response := Some (422, Example.empty);
                                    code := None;
                                    message := "Request failed with status code 422" |})
      by (vm_compute; reflexivity).
    rewrite Hsettle in Hcase. destruct Hcase as (Hstate & Htoasts & _).
    split; [exact Hstate|]. split; [|exact Htoasts].
    rewrite Hst. vm_compute. reflexivity.
Defined.

(** ** Start-up *)

Lemma isTokenValid_nonempty atob JSON_parse coerce now t :
  isTokenValid atob JSON_parse coerce now (Some t) = true -> t <> "".
Proof.
  intros H ->. discriminate H.
Qed.

Lemma isTokenValid_three_segments atob JSON_parse coerce now t :
  isTokenValid atob JSON_parse coerce now (Some t) = true ->
  List.length (JS.split "." t) = 3%nat.
Proof.
  unfold isTokenValid. destruct (t =? "")%string; [discriminate|].
  destruct (Nat.eqb (List.length (JS.split "." t)) 3) eqn:E; [|discriminate].
  intros _. apply Nat.eqb_eq, E.
Qed.

(** A page load with a persisted token that [isTokenValid] accepts, whose
    profile request is answered [200] with a user, restores the session:
    authenticated with that user and the stored token, which stays
    persisted and is attached; one request was made; and the render that
    follows arms the warning and the auto-logout a full window after the
    load.  The session expiry is not restored. *)
Theorem startup_restores_session atob JSON_parse coerce fuel srv t now data u :
  isTokenValid atob JSON_parse coerce now (Some t) = true ->
  srv 0%nat meRequest = HttpResponse 200 data ->
  p_user data = Some u ->
  exists w',
    initialize atob JSON_parse coerce fuel srv (Some t) now = Some w'
    /\ isAuthenticated (state w') = true
    /\ user (state w') = Some u
    /\ token (state w') = Some t
    /\ sessionExpiry (state w') = None
    /\ loading (state w') = false
    /\ isInitialized (state w') = true
    /\ storage w' = Some t
    /\ authorization w' = Some t
    /\ sent w' = [meRequest]
    /\ map due (pending WarningTimer (commit w'))
       = [now + (SESSION_TIMEOUT - WARNING_TIME)]
    /\ map due (pending LogoutTimer (commit w')) = [now + SESSION_TIMEOUT].
Proof.
  intros Hvalid Hsrv Huser.
  pose proof (isTokenValid_nonempty _ _ _ _ _ Hvalid) as Hne.
  assert (Hrun : initialize atob JSON_parse coerce fuel srv (Some t) now
                 = Some (dispatch (USER_LOADED (Some u))
                           (set_sent [meRequest]
                              (dispatch USER_LOADING
                                 (set_credential (Some t) (Some t)
                                    (mount (Some t) now)))))).
  { unfold initialize.
    rewrite (loadUser_valid atob JSON_parse coerce fuel srv (mount (Some t) now) t
               eq_refl Hvalid).
    unfold axios.
    rewrite (axios_resolved _ srv meValidateStatus meRequest
               (dispatch USER_LOADING
                  (set_credential (Some t) (Some t) (mount (Some t) now)))
               200 data Hsrv eq_refl).
    unfold loadUser_then. rewrite Huser. reflexivity. }
  eexists. split; [exact Hrun|].
  do 9 (split; [reflexivity|]).
  apply pending_commit_rearmed.
  - apply reachable_well_timed.
    apply (reachable_loadUser atob JSON_parse coerce fuel srv (mount (Some t) now)).
    + apply R_mount.
    + exact Hrun.
  - unfold live. simpl. apply truthy_Some, Hne.
  - simpl. discriminate.
Qed.

Lemma startup_restores_session_witness :
  exists w',
    initialize Host.atob Host.JSON_parse Host.coerce 1 (Example.issues Example.jwt)
      (Some Example.jwt) 1000 = Some w'
    /\ isAuthenticated (state w') = true
    /\ user (state w') = Some Example.nurse
    /\ map due (pending LogoutTimer (commit w')) = [1000 + SESSION_TIMEOUT].
Proof.
  destruct (startup_restores_session Host.atob Host.JSON_parse Host.coerce 1
              (Example.issues Example.jwt) Example.jwt 1000
              (Example.issued Example.jwt) Example.nurse)
    as (w' & Hrun & Hauth & Huser & _ & _ & _ & _ & _ & _ & _ & _ & Hout).
  - vm_compute. reflexivity.
  - reflexivity.
  - reflexivity.
  - exists w'. repeat split; assumption.
Defined.

(** A profile load that is answered below [500] without being a [200] that
    carries a user, a [401] included, ends in the error state with the
    message "Authentication verification failed", whatever the answer says:
    the persisted token and the attached credential stay, and no refresh is
    attempted. *)
Theorem startup_client_error_keeps_token
    atob JSON_parse coerce fuel srv w t status data :
  storage w = Some t ->
  isTokenValid atob JSON_parse coerce (clock w) (Some t) = true ->
  srv (List.length (sent w)) meRequest = HttpResponse status data ->
  status < 500 ->
  status <> 200 \/ p_user data = None ->
  exists w',
    loadUser atob JSON_parse coerce fuel srv w = Some w'
    /\ storage w' = Some t
    /\ authorization w' = Some t
    /\ sent w' = (sent w ++ [meRequest])%list
    /\ isAuthenticated (state w') = false
    /\ token (state w') = None
    /\ error (state w') = Some "Authentication verification failed"
    /\ loading (state w') = false
    /\ isInitialized (state w') = true.
Proof.
  intros Hst Hvalid Hsrv Hlt Hbad.
  rewrite (loadUser_valid atob JSON_parse coerce fuel srv w t Hst Hvalid).
  unfold axios.
  assert (Hv : meValidateStatus status = true) by (apply Z.ltb_lt, Hlt).
  assert (Hsrv' : srv (List.length (sent (dispatch USER_LOADING
                                            (set_credential (Some t) (Some t) w))))
                    meRequest = HttpResponse status data) by exact Hsrv.
  rewrite (axios_resolved _ srv meValidateStatus meRequest _ status data Hsrv' Hv).
  assert (Hthen : forall x,
            loadUser_then (Resolved status data) x
            = loadUser_catch (Error "Invalid user data received") x).
  { intros x. unfold loadUser_then. destruct (p_user data) as [u|]; [|reflexivity].
    destruct Hbad as [Hbad|Hbad]; [|discriminate Hbad].
    apply Z.eqb_neq in Hbad. rewrite Hbad. reflexivity. }
  rewrite Hthen. eexists. split; [reflexivity|].
  repeat split; reflexivity.
Qed.

Lemma startup_client_error_keeps_token_witness :
  exists w',
    loadUser Host.atob Host.JSON_parse Host.coerce 1 (Example.always 401)
      (mount (Some Example.jwt) 1000) = Some w'
    /\ storage w' = Some Example.jwt
    /\ authorization w' = Some Example.jwt
    /\ error (state w') = Some "Authentication verification failed".
Proof.
  destruct (startup_client_error_keeps_token Host.atob Host.JSON_parse Host.coerce
              1 (Example.always 401) (mount (Some Example.jwt) 1000) Example.jwt
              401 Example.empty)
    as (w' & Hrun & Hst & Hauth & _ & _ & _ & Herr & _).
  - reflexivity.
  - vm_compute. reflexivity.
  - reflexivity.
  - lia.
  - left. discriminate.
  - exists w'. repeat split; assumption.
Defined.

(** A page load after the session was cleared, by [logout], by the
    auto-logout or by the forced re-login, makes no request and starts
    signed out and initialized, with no timeout pending. *)
Theorem reload_after_sign_out_makes_no_request
    atob JSON_parse coerce fuel srv w now :
  cleared w ->
  exists w',
    initialize atob JSON_parse coerce fuel srv (storage w) now = Some w'
    /\ sent w' = []
    /\ isAuthenticated (state w') = false
    /\ user (state w') = None
    /\ token (state w') = None
    /\ loading (state w') = false
    /\ isInitialized (state w') = true
    /\ storage w' = None
    /\ authorization w' = None
    /\ timers (commit w') = [].
Proof.
  intros (_ & _ & _ & _ & Hst & _). rewrite Hst.
  exists (dispatch SET_INITIALIZED (mount None now)).
  split; [reflexivity|].
  do 8 (split; [reflexivity|]).
  rewrite commit_rendered; reflexivity.
Qed.

Lemma reload_after_sign_out_makes_no_request_witness :
  exists w',
    initialize Host.atob Host.JSON_parse Host.coerce 1 (Example.issues Example.jwt)
      (storage (logout Example.signed_in)) 5000 = Some w'
    /\ sent w' = []
    /\ isAuthenticated (state w') = false.
Proof.
  destruct (reload_after_sign_out_makes_no_request
              Host.atob Host.JSON_parse Host.coerce 1 (Example.issues Example.jwt)
              (logout Example.signed_in) 5000)
    as (w' & Hrun & Hsent & Hauth & _).
  - apply cleared_logout.
  - exists w'. repeat split; assumption.
Defined.

(** ** A [401] on the axios instance of the pages *)

(** A [401] answer to a request of a page removes the persisted token and
    sends the browser to the login page, nothing else: the state of the
    provider, the attached credential and the pending timeouts stay, no
    notice is shown and no refresh is attempted.  The page load that the
    navigation causes then starts signed out without a request. *)
Theorem api_401_signs_out_on_reload
    atob JSON_parse coerce fuel srv srv' hideErrorToast req w now :
  is_401 (srv (List.length (sent w)) req) = true ->
  exists r w',
    api_request srv hideErrorToast req w = (r, w', Some "/login")
    /\ state w' = state w
    /\ authorization w' = authorization w
    /\ timers w' = timers w
    /\ toasts w' = toasts w
    /\ sent w' = (sent w ++ [req])%list
    /\ storage w' = None
    /\ exists w'',
         initialize atob JSON_parse coerce fuel srv' (storage w') now = Some w''
         /\ sent w'' = []
         /\ isAuthenticated (state w'') = false.
Proof.
  intros H401. unfold api_request.
  destruct (srv (List.length (sent w)) req) as [status data|c m];
    [|discriminate H401].
  simpl in H401. apply Z.eqb_eq in H401. subst status.
  eexists. eexists. split; [reflexivity|].
  do 6 (split; [reflexivity|]).
  exists (dispatch SET_INITIALIZED (mount None now)).
  repeat split; reflexivity.
Qed.

Lemma api_401_signs_out_on_reload_witness :
  exists r w',
    api_request (Example.always 401) false (GET "/api/patients") Example.signed_in
      = (r, w', Some "/login")
    /\ isAuthenticated (state w') = true
    /\ storage w' = None.
Proof.
  destruct (api_401_signs_out_on_reload Host.atob Host.JSON_parse Host.coerce 1
              (Example.always 401) (Example.always 401) false
              (GET "/api/patients") Example.signed_in 5000)
    as (r & w' & Hrun & Hstate & _ & _ & _ & _ & Hst & _).
  - reflexivity.
  - exists r, w'. split; [exact Hrun|]. split; [|exact Hst].
    rewrite Hstate. vm_compute. reflexivity.
Defined.

(** ** Role checks and the side bar *)

Lemma strict_eq_true x y : JS.strict_eq x y = true <-> x = y.
Proof.
  destruct x as [| |a], y as [| |b]; simpl; try (split; congruence).
  rewrite String.eqb_eq. split; congruence.
Qed.

Lemma includes_In xs x : JS.includes xs x = true <-> In x xs.
Proof.
  unfold JS.includes. rewrite existsb_exists. split.
  - intros (y & Hin & Heq). apply strict_eq_true in Heq. subst y. exact Hin.
  - intros Hin. exists x. split; [exact Hin | apply strict_eq_true; reflexivity].
Qed.

(** The role gate lets through exactly the sessions that hold a user whose
    role is one of the allowed roles, and [hasAnyRole] holds exactly when
    [hasRole] holds for one of the roles listed. *)
Theorem role_gate_opens_iff_role_allowed allowedRoles s :
  (withRoleAccess allowedRoles s = Wrapped
   <-> exists u, user s = Some u /\ In (role u) allowedRoles)
  /\ (hasAnyRole s allowedRoles = true
      <-> exists r, In r allowedRoles /\ hasRole s r = true).
Proof.
  split.
  - unfold withRoleAccess, hasAnyRole, user_role.
    destruct (user s) as [u|].
    + destruct (JS.includes allowedRoles (role u)) eqn:E; simpl.
      * apply includes_In in E. split; [|reflexivity].
        intros _. exists u. split; [reflexivity | exact E].
      * split; [discriminate|]. intros (u' & [= <-] & Hin).
        apply includes_In in Hin. congruence.
    + split; [discriminate|]. intros (u & Hu & _). discriminate Hu.
  - unfold hasAnyRole, hasRole. rewrite includes_In. split.
    + intros Hin. exists (user_role s). split; [exact Hin|].
      apply strict_eq_true. reflexivity.
    + intros (r & Hin & Heq). apply strict_eq_true in Heq. subst r. exact Hin.
Qed.

(** The side bar lists, in the order of [baseItems], exactly the items
    whose roles include the role of the user; it is empty exactly for a
    session whose role is none of the four it knows, a session without a
    user among them, and otherwise starts with the dashboard. *)
Theorem sidebar_lists_items_of_role s :
  (forall item, In item (getNavigationItems s)
                <-> In item baseItems /\ hasAnyRole s (nav_roles item) = true)
  /\ (getNavigationItems s = [] <-> ~ In (user_role s) known_roles)
  /\ (In (user_role s) known_roles ->
      exists rest, map nav_path (getNavigationItems s) = "/dashboard" :: rest).
Proof.
  split; [|].
  - intros item. unfold getNavigationItems, hasAnyRole. apply filter_In.
  - assert (Hcases : In (user_role s) known_roles
                     /\ (exists rest, map nav_path (getNavigationItems s)
                                      = "/dashboard" :: rest)
                     \/ ~ In (user_role s) known_roles
                        /\ getNavigationItems s = []).
    { unfold getNavigationItems, baseItems, known_roles.
      destruct (user_role s) as [| |r].
      - right. split; [|reflexivity].
        simpl. intros [[=]|[[=]|[[=]|[[=]|[]]]]].
      - right. split; [|reflexivity].
        simpl. intros [[=]|[[=]|[[=]|[[=]|[]]]]].
      - destruct (String.eqb_spec r "admin") as [->|H1];
          [left; split; [simpl; tauto | eexists; reflexivity]|].
        destruct (String.eqb_spec r "doctor") as [->|H2];
          [left; split; [simpl; tauto | eexists; reflexivity]|].
        destruct (String.eqb_spec r "patient") as [->|H3];
          [left; split; [simpl; tauto | eexists; reflexivity]|].
        destruct (String.eqb_spec r "pharmacist") as [->|H4];
          [left; split; [simpl; tauto | eexists; reflexivity]|].
        right. split.
        + simpl. intros [[=]|[[=]|[[=]|[[=]|[]]]]]; congruence.
        + apply String.eqb_neq in H1, H2, H3, H4.
          cbn [filter nav_roles JS.includes existsb JS.strict_eq].
          rewrite H1, H2, H3, H4. reflexivity. }
    split.
    + destruct Hcases as [[Hin (rest & Hrest)] | [Hnot Hnil]].
      * split; [|contradiction]. intros Hnil. rewrite Hnil in Hrest.
        discriminate Hrest.
      * split; [intros _; exact Hnot | intros _; exact Hnil].
    + intros Hin. destruct Hcases as [[_ Hrest] | [Hnot _]];
        [exact Hrest | contradiction].
Qed.

(** ** The routes of the application *)

Lemma Routes_cases matchPath routes pathname :
  Routes matchPath routes pathname = Empty
  \/ In (Routes matchPath routes pathname) (map snd routes).
Proof.
  induction routes as [|[pattern element] rest IH]; simpl.
  - left. reflexivity.
  - destruct (matchPath pattern pathname).
    + right. left. reflexivity.
    + destruct IH as [IH|IH]; [left; exact IH | right; right; exact IH].
Qed.

(** Whatever the router's matching, a session that is not authenticated is
    never shown a protected page, nor the side bar and the navigation bar:
    while loading it sees the spinner alone, and afterwards the login page,
    the registration page, a redirect to the login page, or nothing. *)
Theorem signed_out_sees_only_auth_pages matchPath s pathname :
  isAuthenticated s = false ->
  mainBlock (App matchPath s pathname) = None
  /\ App_redirect s pathname = None
  /\ (loading s = true ->
      App matchPath s pathname
      = {| spinner := true; mainBlock := None; authBlock := None |})
  /\ (loading s = false ->
      exists e,
        App matchPath s pathname
        = {| spinner := false; mainBlock := None; authBlock := Some e |}
        /\ In e [PageOf LoginPage; PageOf RegisterPage; NavigateTo "/login"; Empty]).
Proof.
  intros Hout. unfold App, App_redirect. rewrite Hout.
  destruct (loading s) eqn:Hload; cbn [andb negb mainBlock].
  - repeat split; try reflexivity. discriminate.
  - repeat split; try reflexivity; [discriminate|].
    intros _. exists (Routes matchPath (authRoutes s) pathname).
    split; [reflexivity|].
    pose proof (Routes_cases matchPath (authRoutes s) pathname) as Hcases.
    set (e := Routes matchPath (authRoutes s) pathname) in *.
    destruct Hcases as [-> | Hin].
    + right. right. right. left. reflexivity.
    + unfold authRoutes, PublicRoute in Hin. rewrite Hload, Hout in Hin.
      cbn [map snd negb] in Hin.
      destruct Hin as [<- | [<- | [<- | []]]]; simpl; tauto.
Qed.

Lemma signed_out_sees_only_auth_pages_witness :
  mainBlock (App exact_match (state (logout Example.signed_in)) "/patients") = None
  /\ exists e,
       App exact_match (state (logout Example.signed_in)) "/patients"
       = {| spinner := false; mainBlock := None; authBlock := Some e |}
       /\ In e [PageOf LoginPage; PageOf RegisterPage; NavigateTo "/login"; Empty].
Proof.
  destruct (signed_out_sees_only_auth_pages exact_match
              (state (logout Example.signed_in)) "/patients")
    as (Hmain & _ & _ & Hshown).
  - vm_compute. reflexivity.
  - split; [exact Hmain|]. apply Hshown. vm_compute. reflexivity.
Defined.

(** Whatever the router's matching, an authenticated session that is not
    loading is never shown the login or the registration page: on their
    paths nothing is rendered and [App] navigates to the dashboard; on any
    other path it sees, inside the side bar and the navigation bar, a
    protected page, a redirect to the dashboard, or nothing.  The redirect
    to the login page that [ProtectedRoute] holds is never taken. *)
Theorem signed_in_sees_no_auth_page matchPath s pathname :
  isAuthenticated s = true -> loading s = false ->
  authBlock (App matchPath s pathname) = None
  /\ spinner (App matchPath s pathname) = false
  /\ (isAuthPage pathname = true ->
      mainBlock (App matchPath s pathname) = None
      /\ App_redirect s pathname = Some "/dashboard")
  /\ (isAuthPage pathname = false ->
      App_redirect s pathname = None
      /\ exists e,
           mainBlock (App matchPath s pathname) = Some e
           /\ (protected_page e = true \/ e = NavigateTo "/dashboard" \/ e = Empty)).
Proof.
  intros Hin Hload. unfold App, App_redirect. rewrite Hin, Hload.
  cbn [andb negb mainBlock authBlock spinner].
  split; [reflexivity|]. split; [reflexivity|]. split.
  - intros ->. split; reflexivity.
  - intros ->. split; [reflexivity|].
    exists (Routes matchPath (protectedRoutes s) pathname).
    split; [reflexivity|].
    pose proof (Routes_cases matchPath (protectedRoutes s) pathname) as Hcases.
    set (e := Routes matchPath (protectedRoutes s) pathname) in *.
    destruct Hcases as [-> | Hr].
    + right. right. reflexivity.
    + unfold protectedRoutes, ProtectedRoute in Hr. rewrite Hin, Hload in Hr.
      cbn [map snd] in Hr.
      repeat (destruct Hr as [<- | Hr]; [simpl; tauto|]). contradiction.
Qed.

Lemma signed_in_sees_no_auth_page_witness :
  mainBlock (App exact_match (state Example.signed_in) "/patients")
  = Some (PageOf PatientsPage)
  /\ App_redirect (state Example.signed_in) "/login" = Some "/dashboard".
Proof.
  destruct (signed_in_sees_no_auth_page exact_match (state Example.signed_in) "/login")
    as (_ & _ & Hauth & _); [vm_compute; reflexivity | vm_compute; reflexivity|].
  destruct (signed_in_sees_no_auth_page exact_match (state Example.signed_in) "/patients")
    as (_ & _ & _ & Hmain); [vm_compute; reflexivity | vm_compute; reflexivity|].
  split.
  - destruct (Hmain eq_refl) as (_ & e & He & _). vm_compute. reflexivity.
  - apply Hauth. reflexivity.
Defined.

(** ** The registration form *)

Lemma digit_not_space c : is_digit c = true -> is_space c = false.
Proof.
  destruct c as [b0 b1 b2 b3 b4 b5 b6 b7].
  destruct b0, b1, b2, b3, b4, b5, b6, b7; vm_compute; congruence.
Qed.

Lemma digits_then_spec n s :
  digits_then n end_of_input s = true
  <-> String.length s = n /\ all_digits s = true.
Proof.
  revert s. induction n as [|n IH]; intros s; simpl.
  - destruct s; simpl; split; try tauto; try discriminate.
    intros [H _]. discriminate H.
  - destruct s as [|c s]; simpl; [split; [discriminate | intros [H _]; discriminate H]|].
    rewrite !andb_true_iff, IH. split.
    + intros (Hc & Hlen & Hall). repeat split; congruence.
    + intros (Hlen & Hc & Hall). repeat split; congruence.
Qed.

(** [validatePhone] accepts exactly the strings of ten characters that are
    all digits: no sign, space or separator, and no trailing line break. *)
Theorem validatePhone_accepts_ten_digits phone :
  validatePhone phone = true
  <-> String.length phone = 10%nat /\ all_digits phone = true.
Proof. apply digits_then_spec. Qed.

Lemma all_spaces_trimStart s : all_spaces (trimStart s) = all_spaces s.
Proof.
  induction s as [|c s IH]; simpl; [reflexivity|].
  destruct (is_space c) eqn:E; simpl; [exact IH | rewrite E; reflexivity].
Qed.

Lemma trimEnd_empty s : trimEnd s = "" <-> all_spaces s = true.
Proof.
  induction s as [|c s IH]; simpl; [tauto|].
  destruct (is_space c); simpl.
  - destruct (String.eqb_spec (trimEnd s) "") as [E|E].
    + split; [intros _; apply IH, E | reflexivity].
    + split; [discriminate | intros H; apply IH in H; contradiction].
  - split; discriminate.
Qed.

(** [s.trim()] is empty exactly when [s] is white space only. *)
Lemma trim_empty s : (trim s =? "")%string = all_spaces s.
Proof.
  unfold trim. destruct (String.eqb_spec (trimEnd (trimStart s)) "") as [E|E].
  - apply trimEnd_empty in E. rewrite all_spaces_trimStart in E. congruence.
  - destruct (all_spaces s) eqn:Hs; [|reflexivity].
    exfalso. apply E, trimEnd_empty. rewrite all_spaces_trimStart. exact Hs.
Qed.

Lemma set_error_nonempty key msg errors : set_error key msg errors <> [].
Proof.
  destruct errors as [|[k m] rest]; simpl; [discriminate|].
  destruct (k =? key)%string; discriminate.
Qed.

Lemma when_nil b key msg errors :
  when b key msg errors = [] <-> b = false /\ errors = [].
Proof.
  unfold when. destruct b.
  - split; [intros H; destruct (set_error_nonempty _ _ _ H) | intros [H _]; discriminate H].
  - tauto.
Qed.

Lemma emailRegex_test_head s :
  emailRegex_test s = true -> s <> "" /\ all_spaces s = false.
Proof.
  unfold emailRegex_test. destruct s as [|c s]; simpl; [discriminate|].
  intros H. apply andb_prop in H. destruct H as [H _].
  unfold email_char in H. apply andb_prop in H. destruct H as [H _].
  apply negb_true_iff in H. rewrite H. split; [discriminate | reflexivity].
Qed.

Lemma phoneRegex_test_head s :
  phoneRegex_test s = true -> s <> "" /\ all_spaces s = false.
Proof.
  unfold phoneRegex_test. destruct s as [|c s]; simpl; [discriminate|].
  intros H. apply andb_prop in H. destruct H as [H _].
  rewrite (digit_not_space c H). split; [discriminate | reflexivity].
Qed.

Lemma validateForm_true formData :
  validateForm formData = true <-> validateForm_errors formData = [].
Proof.
  unfold validateForm. destruct (validateForm_errors formData).
  - tauto.
  - split; discriminate.
Qed.

(** What a form that [validateForm] passes satisfies. *)
Lemma validateForm_passed formData :
  validateForm formData = true ->
  all_spaces (r_firstName formData) = false
  /\ all_spaces (r_lastName formData) = false
  /\ emailRegex_test (r_email formData) = true
  /\ (6 <= String.length (r_password formData))%nat
  /\ r_confirmPassword formData = r_password formData
  /\ phoneRegex_test (r_phone formData) = true
  /\ (r_role formData = "patient" ->
      all_spaces (c_name (r_emergencyContact formData)) = false
      /\ phoneRegex_test (c_phone (r_emergencyContact formData)) = true).
Proof.
  rewrite validateForm_true. unfold validateForm_errors.
  rewrite !trim_empty.
  set (contact := r_emergencyContact formData).
  intros H.
    assert (Hbase : when (negb (r_phone formData =? "")%string
                          && negb (phoneRegex_test (r_phone formData)))
                      "phone" "Please enter a valid 10-digit phone number"
                      (when (negb (r_password formData =? r_confirmPassword formData)%string)
                         "confirmPassword" "Passwords do not match"
                         (when (negb (r_password formData =? "")%string
                                && Nat.ltb (String.length (r_password formData)) 6)
                            "password" "Password must be at least 6 characters long"
                            (when (negb (r_email formData =? "")%string
                                   && negb (emailRegex_test (r_email formData)))
                               "email" "Please enter a valid email address"
                               (when (all_spaces (r_phone formData))
                                  "phone" "Phone number is required"
                                  (when (r_confirmPassword formData =? "")%string
                                     "confirmPassword" "Please confirm your password"
                                     (when (r_password formData =? "")%string
                                        "password" "Password is required"
                                        (when (all_spaces (r_email formData))
                                           "email" "Email is required"
                                           (when (all_spaces (r_lastName formData))
                                              "lastName" "Last name is required"
                                              (when (all_spaces (r_firstName formData))
                                                 "firstName" "First name is required"
                                                 []))))))))) = []
                    /\ (r_role formData = "patient" ->
                        all_spaces (c_name contact) = false
                        /\ phoneRegex_test (c_phone contact) = true)).
    { destruct (String.eqb_spec (r_role formData) "patient") as [Hrole|Hrole].
      - destruct (all_spaces (c_phone contact)) eqn:Hblank.
        + destruct (set_error_nonempty _ _ _ H).
        + apply when_nil in H. destruct H as [Hphone H].
          apply when_nil in H. destruct H as [Hname H].
          split; [exact H|]. intros _. split; [exact Hname|].
          apply negb_false_iff, Hphone.
      - split; [exact H | contradiction]. }
    destruct Hbase as [Hbase Hcontact].
    apply when_nil in Hbase. destruct Hbase as [Hdigits Hbase].
    apply when_nil in Hbase. destruct Hbase as [Hmatch Hbase].
    apply when_nil in Hbase. destruct Hbase as [Hshort Hbase].
    apply when_nil in Hbase. destruct Hbase as [Hpattern Hbase].
    apply when_nil in Hbase. destruct Hbase as [Hphone Hbase].
    apply when_nil in Hbase. destruct Hbase as [_ Hbase].
    apply when_nil in Hbase. destruct Hbase as [Hpass Hbase].
    apply when_nil in Hbase. destruct Hbase as [Hmail Hbase].
    apply when_nil in Hbase. destruct Hbase as [Hlast Hbase].
    apply when_nil in Hbase. destruct Hbase as [Hfirst _].
    apply negb_false_iff, String.eqb_eq in Hmatch.
    rewrite Hpass in Hshort. cbn [negb andb] in Hshort.
    apply Nat.ltb_ge in Hshort.
    assert (Hemail : emailRegex_test (r_email formData) = true).
    { destruct (r_email formData =? "")%string eqn:E.
      - apply String.eqb_eq in E. rewrite E in Hmail. discriminate Hmail.
      - cbn [negb andb] in Hpattern. apply negb_false_iff, Hpattern. }
    assert (Hten : phoneRegex_test (r_phone formData) = true).
    { destruct (r_phone formData =? "")%string eqn:E.
      - apply String.eqb_eq in E. rewrite E in Hphone. discriminate Hphone.
      - cbn [negb andb] in Hdigits. apply negb_false_iff, Hdigits. }
    split; [exact Hfirst|]. split; [exact Hlast|]. split; [exact Hemail|].
    split; [exact Hshort|]. split; [symmetry; exact Hmatch|].
    split; [exact Hten | exact Hcontact].
Qed.

(** [validateForm] passes exactly the forms whose names are not blank,
    whose email matches the pattern, whose password has six characters or
    more and equals its confirmation, whose phone number is ten digits and,
    for the role [patient], whose emergency contact has a name that is not
    blank and a phone number of ten digits. *)
Theorem validateForm_passes_iff formData :
  validateForm formData = true
  <-> all_spaces (r_firstName formData) = false
      /\ all_spaces (r_lastName formData) = false
      /\ emailRegex_test (r_email formData) = true
      /\ (6 <= String.length (r_password formData))%nat
      /\ r_confirmPassword formData = r_password formData
      /\ phoneRegex_test (r_phone formData) = true
      /\ (r_role formData = "patient" ->
          all_spaces (c_name (r_emergencyContact formData)) = false
          /\ phoneRegex_test (c_phone (r_emergencyContact formData)) = true).
Proof.
  split; [apply validateForm_passed|].
  rewrite validateForm_true. unfold validateForm_errors.
  rewrite !trim_empty.
  set (contact := r_emergencyContact formData).
  assert (Hpw : forall s, (6 <= String.length s)%nat -> (s =? "")%string = false).
  { intros [|c s] H; [simpl in H; lia | reflexivity]. }
  intros (Hfirst & Hlast & Hemail & Hlen & Hconfirm & Hphone & Hcontact).
    destruct (emailRegex_test_head _ Hemail) as [_ Hemail'].
    destruct (phoneRegex_test_head _ Hphone) as [_ Hphone'].
    rewrite Hfirst, Hlast, Hemail', Hphone', Hemail, Hphone, Hconfirm.
    rewrite (Hpw _ Hlen), String.eqb_refl.
    assert (Hlt : Nat.ltb (String.length (r_password formData)) 6 = false)
      by (apply Nat.ltb_ge, Hlen).
    rewrite Hlt, !andb_false_r. cbn [when negb andb].
    destruct (String.eqb_spec (r_role formData) "patient") as [Hrole|Hrole];
      [|reflexivity].
    destruct (Hcontact Hrole) as [Hname Hcphone].
    destruct (phoneRegex_test_head _ Hcphone) as [_ Hcblank].
    fold contact in Hcblank, Hname, Hcphone.
    rewrite Hcblank, Hname, Hcphone. reflexivity.
Qed.

Lemma register_check_after_page formData :
  validateForm formData = true ->
  r_role formData <> "" ->
  register_validate (submitted formData)
  = (if Nat.ltb (String.length (r_password formData)) 8
     then Some "Password must be at least 8 characters long" else None).
Proof.
  intros Hvalid Hrole.
  apply validateForm_passed in Hvalid.
  destruct Hvalid as (Hfirst & Hlast & Hemail & Hlen & _).
  unfold register_validate, submitted.
  cbn [f_email f_password f_firstName f_lastName f_role].
  destruct (emailRegex_test_head _ Hemail) as [Hne _].
  apply String.eqb_neq in Hne, Hrole. rewrite Hne, Hrole, Hemail.
  assert (Hnb : forall s, all_spaces s = false -> (s =? "")%string = false).
  { intros [|c s] H; [discriminate H | reflexivity]. }
  rewrite (Hnb _ Hfirst), (Hnb _ Hlast).
  destruct (r_password formData) as [|c s]; [simpl in Hlen; lia|].
  reflexivity.
Qed.

(** The page and the provider disagree on the shortest password: a form
    that [validateForm] passes and that names a role goes to the request
    exactly when its password has eight characters or more; with six or
    seven, [register] is called, makes no request, and reports "Password
    must be at least 8 characters long" as a notice and as the error of the
    session, leaving the persisted token and the credential as they
    were. *)
Theorem register_page_lets_short_password_through fuel srv formData w :
  validateForm formData = true ->
  r_role formData <> "" ->
  register_validate (submitted formData)
  = (if Nat.ltb (String.length (r_password formData)) 8
     then Some "Password must be at least 8 characters long" else None)
  /\ ((String.length (r_password formData) < 8)%nat ->
      exists w',
        Register_onSubmit fuel srv formData w
        = Some (Some (Failure "Password must be at least 8 characters long"), w')
        /\ sent w' = sent w
        /\ toasts w'
           = (toasts w
              ++ [ToastError "Password must be at least 8 characters long"])%list
        /\ error (state w') = Some "Password must be at least 8 characters long"
        /\ isAuthenticated (state w') = false
        /\ storage w' = storage w
        /\ authorization w' = authorization w).
Proof.
  intros Hvalid Hrole.
  pose proof (register_check_after_page formData Hvalid Hrole) as Hcheck.
  split; [exact Hcheck|].
  intros Hshort. apply Nat.ltb_lt in Hshort. rewrite Hshort in Hcheck.
  unfold Register_onSubmit, register. rewrite Hvalid, Hcheck.
  eexists. split; [reflexivity|]. repeat split; reflexivity.
Qed.

Lemma register_page_lets_short_password_through_witness :
  exists w',
    Register_onSubmit 1 (Example.issues Example.jwt)
      {| r_firstName := "Ada"; r_lastName := "Lovelace";
         r_email := "ada@example.org"; r_password := "secret1";
         r_confirmPassword := "secret1"; r_phone := "0123456789";
         r_role := "doctor";
         r_emergencyContact :=
           {| c_name := ""; c_relationship := ""; c_phone := "" |} |}
      Example.started
    = Some (Some (Failure "Password must be at least 8 characters long"), w')
    /\ sent w' = sent Example.started.
Proof.
  destruct (register_page_lets_short_password_through 1 (Example.issues Example.jwt)
              {| r_firstName := "Ada"; r_lastName := "Lovelace";
                 r_email := "ada@example.org"; r_password := "secret1";
                 r_confirmPassword := "secret1"; r_phone := "0123456789";
                 r_role := "doctor";
                 r_emergencyContact :=
                   {| c_name := ""; c_relationship := ""; c_phone := "" |} |}
              Example.started) as [_ Hshort].
  - vm_compute. reflexivity.
  - discriminate.
  - destruct Hshort as (w' & Hrun & Hsent & _); [simpl; lia|].
    exists w'. split; [exact Hrun | exact Hsent].
Defined.

(** ** [debounce] *)

Lemma executedFunction_single {A : Type} wait (args : A) d :
  d_single d ->
  executedFunction wait args d
  = {| d_timeout := Some (d_next d);
       d_pending := [{| s_handle := d_next d; s_due := d_now d + d_delay wait;
                        s_args := args |}];
       d_next := S (d_next d); d_now := d_now d; d_calls := d_calls d |}.
Proof.
  unfold d_single, executedFunction, d_clearTimeout.
  destruct d as [timeout pending next now calls]. simpl.
  destruct pending as [|e [|e' rest]]; [| |contradiction].
  - intros _. destruct timeout; reflexivity.
  - intros ->. simpl. rewrite Nat.eqb_refl. reflexivity.
Qed.

Lemma d_elapse_waiting {A : Type} dt (e : Scheduled A) d :
  d_pending d = [e] -> d_now d + dt < s_due e ->
  d_elapse dt d = d_set_now (d_now d + dt) d.
Proof.
  intros Hp Hlate. unfold d_elapse. rewrite Hp. simpl.
  unfold d_next_due. rewrite Hp. simpl.
  apply Z.leb_gt in Hlate. rewrite Hlate. reflexivity.
Qed.

Lemma d_elapse_due {A : Type} dt (e : Scheduled A) d :
  d_pending d = [e] -> d_timeout d = Some (s_handle e) ->
  s_due e <= d_now d + dt ->
  d_elapse dt d
  = {| d_timeout := d_timeout d; d_pending := []; d_next := d_next d;
       d_now := d_now d + dt; d_calls := d_calls d ++ [s_args e] |}.
Proof.
  intros Hp Ht Hdue. unfold d_elapse. rewrite Hp. simpl.
  unfold d_next_due. rewrite Hp. simpl.
  apply Z.leb_le in Hdue. rewrite Hdue. simpl.
  unfold d_fire, later, d_clearTimeout, d_set_now. simpl.
  rewrite Hp, Ht. simpl. rewrite Nat.eqb_refl. reflexivity.
Qed.

Lemma d_delay_in_range wait : 0 <= wait < 2 ^ 31 -> d_delay wait = wait.
Proof.
  intros Hrange. unfold d_delay, ToInt32.
  change (2 ^ 32) with 4294967296. change (2 ^ 31) with 2147483648 in *.
  rewrite Z.mod_small by lia.
  destruct (Z.ltb_spec wait 2147483648); lia.
Qed.

Lemma last_cons_default {A : Type} (a d : A) l : last (a :: l) d = last l a.
Proof.
  revert a d. induction l as [|b l IH]; intros a d; [reflexivity|].
  change (last (a :: b :: l) d) with (last (b :: l) d).
  rewrite (IH b d), (IH b a). reflexivity.
Qed.

(** A burst of calls of the debounced function, each less than the delay
    after the one before, calls [func] once: not during the burst, not
    before the delay has passed since the last call, and then with the
    arguments of the last call; no timeout is left pending.  The delay is
    [wait] for a [wait] from [0] to [2^31 - 1]. *)
Theorem debounce_burst_calls_once {A : Type} wait (calls : list (Z * A)) args d :
  d_single d ->
  Forall (fun c => 0 <= fst c < d_delay wait) calls ->
  d_calls (d_burst wait calls (executedFunction wait args d)) = d_calls d
  /\ (forall dt, 0 <= dt < d_delay wait ->
      d_calls (d_elapse dt (d_burst wait calls (executedFunction wait args d)))
      = d_calls d)
  /\ (forall dt, d_delay wait <= dt ->
      d_calls (d_elapse dt (d_burst wait calls (executedFunction wait args d)))
      = (d_calls d ++ [last (map snd calls) args])%list
      /\ d_pending (d_elapse dt (d_burst wait calls (executedFunction wait args d)))
         = [])
  /\ (0 <= wait < 2 ^ 31 -> d_delay wait = wait).
Proof.
  intros Hsingle Hgaps.
  cut (d_calls (d_burst wait calls (executedFunction wait args d)) = d_calls d
       /\ (forall dt, 0 <= dt < d_delay wait ->
           d_calls (d_elapse dt (d_burst wait calls (executedFunction wait args d)))
           = d_calls d)
       /\ (forall dt, d_delay wait <= dt ->
           d_calls (d_elapse dt (d_burst wait calls (executedFunction wait args d)))
           = (d_calls d ++ [last (map snd calls) args])%list
           /\ d_pending (d_elapse dt (d_burst wait calls (executedFunction wait args d)))
              = [])).
  { intros (H1 & H2 & H3). repeat split; try assumption; try apply H3; try assumption.
    apply d_delay_in_range. }
  revert args d Hsingle.
  induction Hgaps as [|[gap a] more Hgap _ IH]; intros args d Hsingle.
  - rewrite (executedFunction_single wait args d Hsingle). simpl.
    split; [reflexivity|]. split.
    + intros dt Hdt. erewrite d_elapse_waiting; [reflexivity|reflexivity|].
      simpl. lia.
    + intros dt Hdt. erewrite d_elapse_due; [|reflexivity|reflexivity|simpl; lia].
      split; reflexivity.
  - simpl in Hgap. cbn [d_burst map snd].
    rewrite (executedFunction_single wait args d Hsingle).
    erewrite d_elapse_waiting; [|reflexivity|simpl; lia].
    match goal with
    | |- context [executedFunction wait a ?x] => set (d2 := x)
    end.
    assert (Hsingle2 : d_single d2) by reflexivity.
    destruct (IH a d2 Hsingle2) as (Hduring & Hbefore & Hafter).
    rewrite last_cons_default.
    split; [exact Hduring|]. split; [exact Hbefore | exact Hafter].
Qed.

Lemma debounce_burst_calls_once_witness :
  d_calls (d_elapse 300
             (d_burst 300 [(100, "ab"); (299, "abc")]
                (executedFunction 300 "a" (debounce 1 0))))
  = ["abc"].
Proof.
  destruct (debounce_burst_calls_once 300 [(100, "ab"); (299, "abc")] "a"
              (debounce 1 0)) as (_ & _ & Hafter & _).
  - exact I.
  - change (d_delay 300) with 300. repeat constructor; simpl; lia.
  - destruct (Hafter 300) as [Hcalls _]; [change (d_delay 300) with 300; lia|].
    exact Hcalls.
Defined.

(** ** Registration from the page to the session *)

(** A form that the page passes, with a role and a password of eight
    characters or more, is posted once; when the answer is accepted by axios
    and carries a token of three segments and a user, the visitor is signed
    in: the session holds that user and token, the token is persisted and
    attached, the greeting names the user, and [App] leaves the registration
    page for the dashboard. *)
Theorem registration_signs_in fuel srv formData w status data t u :
  validateForm formData = true ->
  r_role formData <> "" ->
  (8 <= String.length (r_password formData))%nat ->
  srv (List.length (sent w)) registerRequest = HttpResponse status data ->
  defaultValidateStatus status = true ->
  p_token data = Some t -> t <> "" ->
  List.length (JS.split "." t) = 3%nat ->
  p_user data = Some u ->
  exists w',
    Register_onSubmit fuel srv formData w = Some (Some (Success u), w')
    /\ sent w' = (sent w ++ [registerRequest])%list
    /\ isAuthenticated (state w') = true
    /\ user (state w') = Some u
    /\ token (state w') = Some t
    /\ loading (state w') = false
    /\ storage w' = Some t
    /\ authorization w' = Some t
    /\ toasts w'
       = (toasts w
          ++ [ToastSuccess ("Welcome to the hospital management system, "
                            ++ firstName u ++ "!")])%list
    /\ App_redirect (state w') "/register" = Some "/dashboard".
Proof.
  intros Hvalid Hrole Hlen Hsrv Hok Htok Hne Hseg Huser.
  pose proof (register_check_after_page formData Hvalid Hrole) as Hcheck.
  apply Nat.ltb_ge in Hlen. rewrite Hlen in Hcheck.
  unfold Register_onSubmit, register. rewrite Hvalid, Hcheck. unfold axios.
  rewrite (axios_resolved _ srv defaultValidateStatus registerRequest
             (dispatch USER_LOADING w) status data Hsrv Hok).
  unfold register_then, auth_then.
  rewrite Htok, (truthy_Some t Hne), (setAuthToken_three_segments t _ Hne Hseg), Huser.
  eexists. split; [reflexivity|].
  unfold App_redirect. simpl. rewrite Htok, Huser. repeat split; reflexivity.
Qed.

Lemma registration_signs_in_witness :
  exists w',
    Register_onSubmit 1 (Example.issues Example.jwt)
      {| r_firstName := "Ada"; r_lastName := "Lovelace";
         r_email := "ada@example.org"; r_password := "secret12";
         r_confirmPassword := "secret12"; r_phone := "0123456789";
         r_role := "doctor";
         r_emergencyContact :=
           {| c_name := ""; c_relationship := ""; c_phone := "" |} |}
      Example.started
    = Some (Some (Success Example.nurse), w')
    /\ isAuthenticated (state w') = true
    /\ storage w' = Some Example.jwt.
Proof.
  destruct (registration_signs_in 1 (Example.issues Example.jwt)
              {| r_firstName := "Ada"; r_lastName := "Lovelace";
                 r_email := "ada@example.org"; r_password := "secret12";
                 r_confirmPassword := "secret12"; r_phone := "0123456789";
                 r_role := "doctor";
                 r_emergencyContact :=
                   {| c_name := ""; c_relationship := ""; c_phone := "" |} |}
              Example.started 200 (Example.issued Example.jwt) Example.jwt
              Example.nurse)
    as (w' & Hrun & _ & Hauth & _ & _ & _ & Hst & _).
  - vm_compute. reflexivity.
  - discriminate.
  - simpl. lia.
  - reflexivity.
  - reflexivity.
  - reflexivity.
  - discriminate.
  - reflexivity.
  - reflexivity.
  - exists w'. repeat split; assumption.
Defined.

(** ** [logout] against [logoutSilent] (C6) *)

(** [LOGOUT] and [LOGOUT_SILENT] differ in one field: [LOGOUT] sets
    [isInitialized], [LOGOUT_SILENT] keeps it.  That shows on a session that
    was never initialized only, where neither is called. *)
Lemma logout_differs_from_logoutSilent :
  state (logout (mount None 0)) <> state (logoutSilent (mount None 0))
  /\ isInitialized (state (logout (mount None 0))) = true
  /\ isInitialized (state (logoutSilent (mount None 0))) = false.
Proof.
  split; [|split; reflexivity].
  intros H. apply (f_equal isInitialized) in H. discriminate H.
Qed.

(** No action takes [isInitialized] back, and every action that leaves the
    session authenticated leaves it initialized. *)
Lemma reducer_stays_initialized now s a :
  isInitialized s = true -> isInitialized (authReducer now s a) = true.
Proof. intros H. destruct a; simpl; auto. Qed.

Lemma reducer_authenticated_initialized now s a :
  (isAuthenticated s = true -> isInitialized s = true) ->
  isAuthenticated (authReducer now s a) = true ->
  isInitialized (authReducer now s a) = true.
Proof. intros IH. destruct a; simpl; intros H; auto; discriminate. Qed.

Lemma timers_fire_subset t w t' :
  In t' (timers (fire t w)) -> In t' (timers w).
Proof.
  assert (Hcut : forall x, In x (timers (clearTimeout (tid t) w)) ->
                           In x (timers w)).
  { intros x H. unfold clearTimeout in H. simpl in H.
    apply filter_In in H. tauto. }
  unfold fire. destruct (kind t).
  - apply Hcut.
  - unfold toast_error, logoutSilent, removeCredential, dispatch.
    cbn [timers set_toasts set_state].
    rewrite timers_clearTimeouts. intros H.
    apply filter_In in H. destruct H as [H _].
    apply filter_In in H. destruct H as [H _]. apply Hcut, H.
  - unfold logout, toast_success, removeCredential, dispatch.
    cbn [timers set_toasts set_state].
    rewrite timers_clearTimeouts. intros H.
    apply filter_In in H. destruct H as [H _].
    apply filter_In in H. destruct H as [H _]. apply Hcut, H.
Qed.

Lemma interceptorAuth_fire t w : interceptorAuth (fire t w) = interceptorAuth w.
Proof.
  unfold fire. destruct (kind t).
  - reflexivity.
  - change (interceptorAuth (toast_error ?m ?x)) with (interceptorAuth x).
    rewrite interceptorAuth_logoutSilent. reflexivity.
  - unfold logout, toast_success, dispatch, removeCredential.
    cbn [interceptorAuth set_toasts set_state].
    rewrite interceptorAuth_clearTimeouts. reflexivity.
Qed.

(** Where the provider calls [logout] or [logoutSilent], the session has
    been initialized: it is authenticated (the log-out button), it was when
    the interceptor was installed (the failed refresh), or a warning or
    auto-logout timeout is pending (the auto-logout). *)
Lemma reachable_call_sites_initialized w :
  Reachable w ->
  (isAuthenticated (state w) = true -> isInitialized (state w) = true)
  /\ (interceptorAuth w = true -> isInitialized (state w) = true)
  /\ (forall t, In t (timers w) -> kind t <> ReloginTimer ->
        isInitialized (state w) = true).
Proof.
  induction 1 as [stored now | a w _ IH | s h w _ IH | w _ IH | ts w _ IH
                 | rs w _ IH | w _ IH | t w _ IH Hin Hdue | t w _ IH Hle
                 | w Hr IH].
  - unfold mount. rewrite state_commit. cbn.
    split; [discriminate|]. split; [discriminate|]. intros t [].
  - destruct IH as (IH1 & IH2 & IH3).
    change (state (dispatch a w)) with (authReducer (clock w) (state w) a).
    split; [|split].
    + apply reducer_authenticated_initialized, IH1.
    + intros Hi. apply reducer_stays_initialized, IH2, Hi.
    + intros t Hin Hk. apply reducer_stays_initialized, (IH3 t Hin Hk).
  - exact IH.
  - destruct IH as (IH1 & IH2 & IH3).
    rewrite state_clearTimeouts, interceptorAuth_clearTimeouts.
    split; [exact IH1|]. split; [exact IH2|].
    intros t Hin. rewrite timers_clearTimeouts in Hin.
    apply filter_In in Hin. destruct Hin as [Hin _].
    apply filter_In in Hin. destruct Hin as [Hin _]. apply IH3, Hin.
  - exact IH.
  - exact IH.
  - destruct IH as (IH1 & IH2 & IH3).
    split; [exact IH1|]. split; [exact IH2|].
    intros t Hin Hk. simpl in Hin. apply in_app_or in Hin.
    destruct Hin as [Hin | [<- | []]]; [apply (IH3 t Hin Hk)|].
    contradiction Hk. reflexivity.
  - destruct IH as (IH1 & IH2 & IH3). rewrite state_fire.
    split; [|split].
    + apply reducer_authenticated_initialized, IH1.
    + intros Hi. apply reducer_stays_initialized, IH2.
      rewrite <- Hi. symmetry. apply interceptorAuth_fire.
    + intros t' Hin' Hk. apply reducer_stays_initialized.
      apply (IH3 t'); [apply (timers_fire_subset t w t' Hin') | exact Hk].
  - exact IH.
  - destruct IH as (IH1 & IH2 & IH3). rewrite state_commit.
    split; [exact IH1|]. split.
    + intros Hi. apply IH1. rewrite <- Hi. reflexivity.
    + intros t Hin Hk. destruct (live w) eqn:Hlive.
      * apply IH1. unfold live in Hlive. apply andb_prop in Hlive. tauto.
      * apply (IH3 t); [apply (commit_idle_timers w t Hlive Hin) | exact Hk].
Qed.



(** ** The two session timeouts (C7), from arming to expiry *)

Lemma filter_absorb {A} (f g : A -> bool) l :
  (forall x, In x l -> f x = true -> g x = true) ->
  filter f (filter g l) = filter f l.
Proof.
  induction l as [|a l IH]; simpl; intros H; [reflexivity|].
  assert (IH' : filter f (filter g l) = filter f l)
    by (apply IH; intros x Hx; apply H; right; exact Hx).
  destruct (g a) eqn:Eg; simpl.
  - rewrite IH'. reflexivity.
  - destruct (f a) eqn:Ef; [|exact IH'].
    rewrite (H a (or_introl eq_refl) Ef) in Eg. discriminate Eg.
Qed.

Lemma filter_keeps_all {A} (f : A -> bool) l :
  (forall x, In x l -> f x = true) -> filter f l = l.
Proof.
  induction l as [|a l IH]; simpl; intros H; [reflexivity|].
  rewrite (H a (or_introl eq_refl)), IH; [reflexivity|].
  intros x Hx. apply H. right. exact Hx.
Qed.

Lemma timeoutDeps_fire t w : timeoutDeps (fire t w) = timeoutDeps w.
Proof.
  unfold fire. destruct (kind t).
  - reflexivity.
  - unfold toast_error, logoutSilent, removeCredential, dispatch.
    cbn [timeoutDeps set_toasts set_state].
    rewrite timeoutDeps_clearTimeouts. reflexivity.
  - unfold logout, toast_success, dispatch, removeCredential.
    cbn [timeoutDeps set_toasts set_state].
    rewrite timeoutDeps_clearTimeouts. reflexivity.
Qed.

(** The warning changes neither [isAuthenticated] nor [lastActivity]: the
    render that follows it leaves the timeouts alone. *)
Lemma rendered_fire_warning t w :
  rendered w -> kind t = WarningTimer -> rendered (fire t w).
Proof.
  unfold rendered. intros Hren Hk. rewrite timeoutDeps_fire, Hren.
  pose proof (fire_session t w) as Hfire. rewrite Hk in Hfire.
  destruct Hfire as (-> & _ & _ & _ & -> & _). reflexivity.
Qed.

Lemma timers_fire_warning t w :
  kind t = WarningTimer ->
  timers (fire t w) = filter (fun x => negb (Nat.eqb (tid x) (tid t))) (timers w).
Proof. intros Hk. unfold fire. rewrite Hk. reflexivity. Qed.

(** While only warnings are due, time passing removes the timeouts that
    were due and nothing else. *)
Lemma elapse_to_warnings fuel target w :
  (List.length (timers w) <= fuel)%nat ->
  rendered w -> well_timed w ->
  (forall t, In t (timers w) -> due t <= target -> kind t = WarningTimer) ->
  timers (elapse_to fuel target w) = filter (fun t => target <? due t) (timers w).
Proof.
  revert w. induction fuel as [|fuel IH]; intros w Hlen Hren Hwt Hw.
  - simpl. change (timers (set_clock target w)) with (timers w).
    destruct (timers w); [reflexivity | simpl in Hlen; lia].
  - simpl. destruct (next_due target w) as [t|] eqn:Hnext.
    + pose proof (next_due_spec target w t Hnext) as [Hin Hdue].
      pose proof (Hw t Hin Hdue) as Hk.
      set (w0 := set_clock (Z.max (clock w) (due t)) w).
      assert (Hren0 : rendered w0) by exact Hren.
      assert (Htimers : timers (commit (fire t w0))
                        = filter (fun x => negb (Nat.eqb (tid x) (tid t))) (timers w)).
      { rewrite commit_rendered by (apply rendered_fire_warning; assumption).
        apply (timers_fire_warning t w0 Hk). }
      rewrite IH.
      * rewrite Htimers. apply filter_absorb.
        intros x Hx Hlate. apply negb_true_iff, Nat.eqb_neq. intros Htid.
        destruct Hwt as (Hnd & _).
        pose proof (NoDup_map_injective tid (timers w) x t Hnd Hx Hin Htid) as ->.
        apply Z.ltb_lt in Hlate. lia.
      * pose proof (length_after_fire t w0 Hren0 Hin) as Hshort.
        change (timers w0) with (timers w) in Hshort. lia.
      * apply rendered_commit.
      * apply well_timed_commit, well_timed_fire. exact Hwt.
      * intros x Hx. rewrite Htimers in Hx. apply filter_In in Hx.
        apply Hw, Hx.
    + change (timers (set_clock target w)) with (timers w).
      symmetry. apply filter_keeps_all. intros x Hx.
      apply Z.ltb_lt. apply (next_due_none target w x Hnext Hx).
Qed.

Lemma rendered_elapse_to fuel target w :
  rendered w -> rendered (elapse_to fuel target w).
Proof.
  revert w. induction fuel as [|fuel IH]; intros w Hren; simpl.
  - exact Hren.
  - destruct (next_due target w); [|exact Hren].
    apply IH, rendered_commit.
Qed.

(** The timeouts pending after a render that armed a live session on which
    no re-login is scheduled: the warning and the auto-logout, and nothing
    else. *)
Lemma armed_timers w :
  well_timed w -> live w = true ->
  timeoutDeps w <> Some (isAuthenticated (state w), lastActivity (state w)) ->
  pending ReloginTimer w = [] ->
  timers (commit w)
  = [{| tid := nextTimer w; due := clock w + (SESSION_TIMEOUT - WARNING_TIME);
        kind := WarningTimer |};
     {| tid := S (nextTimer w); due := clock w + SESSION_TIMEOUT;
        kind := LogoutTimer |}].
Proof.
  intros Hwt Hlive Hdeps Hnone. unfold commit.
  match goal with
  | |- timers (set_rendered ?d ?c ?x) = _ =>
      change (timers (set_rendered d c x)) with (timers x)
  end.
  assert (Hempty : forall x, well_timed x ->
            (forall t, In t (timers x) -> In t (timers w)) ->
            timers (clearTimeouts x) = []).
  { intros x Hx Hsub.
    pose proof (clearTimeouts_only_relogin x Hx) as Hrel.
    rewrite Forall_forall in Hrel.
    destruct (timers (clearTimeouts x)) as [|t l] eqn:E; [reflexivity|].
    exfalso.
    assert (Hin : In t (timers (clearTimeouts x))) by (rewrite E; left; reflexivity).
    assert (Hp : In t (pending ReloginTimer w)).
    { unfold pending. apply filter_In. split.
      - apply Hsub. rewrite timers_clearTimeouts in Hin.
        apply filter_In in Hin. destruct Hin as [Hin _].
        apply filter_In in Hin. tauto.
      - rewrite (Hrel t (or_introl eq_refl)). reflexivity. }
    rewrite Hnone in Hp. contradiction. }
  assert (Harmed : forall x, well_timed x -> live x = true ->
            clock x = clock w -> nextTimer x = nextTimer w ->
            (forall t, In t (timers x) -> In t (timers w)) ->
            timers (timeoutEffect x)
            = [{| tid := nextTimer w;
                  due := clock w + (SESSION_TIMEOUT - WARNING_TIME);
                  kind := WarningTimer |};
               {| tid := S (nextTimer w); due := clock w + SESSION_TIMEOUT;
                  kind := LogoutTimer |}]).
  { intros x Hx Hlx Hclock Hnext Hsub.
    destruct (timers_timeoutEffect x Hlx) as (-> & _).
    rewrite (Hempty x Hx Hsub), Hclock, Hnext. reflexivity. }
  destruct (timeoutDeps w) as [old|].
  - destruct (deps_eqb old _) eqn:E.
    + apply deps_eqb_eq in E. subst old. contradiction Hdeps. reflexivity.
    + unfold timeoutCleanup. apply Harmed.
      * apply well_timed_clearTimeouts, Hwt.
      * unfold live. rewrite state_clearTimeouts. exact Hlive.
      * apply clock_clearTimeouts.
      * apply nextTimer_clearTimeouts.
      * intros t Hin. rewrite timers_clearTimeouts in Hin.
        apply filter_In in Hin. destruct Hin as [Hin _].
        apply filter_In in Hin. tauto.
  - apply Harmed; try assumption; try reflexivity. tauto.
Qed.

(** Once a render has found the session unauthenticated, no warning and no
    auto-logout timeout is pending until a later render arms them. *)
Lemma reachable_idle_untimed w :
  Reachable w ->
  exists a la,
    timeoutDeps w = Some (a, la)
    /\ (a = false -> Forall (fun t => kind t = ReloginTimer) (timers w)).
Proof.
  induction 1 as [stored now | a w _ IH | s h w _ IH | w _ IH | ts w _ IH
                 | rs w _ IH | w _ IH | t w _ IH Hin Hdue | t w _ IH Hle
                 | w Hr IH].
  - exists false, now. split; [reflexivity|]. intros _. constructor.
  - exact IH.
  - exact IH.
  - destruct IH as (a & la & Hd & Hrel). exists a, la.
    rewrite timeoutDeps_clearTimeouts. split; [exact Hd|].
    intros Ha. rewrite timers_clearTimeouts.
    apply Forall_filter, Forall_filter, Hrel, Ha.
  - exact IH.
  - exact IH.
  - destruct IH as (a & la & Hd & Hrel). exists a, la.
    split; [exact Hd|]. intros Ha. simpl. apply Forall_app. split.
    + apply Hrel, Ha.
    + repeat constructor.
  - destruct IH as (a & la & Hd & Hrel). exists a, la.
    rewrite timeoutDeps_fire. split; [exact Hd|].
    intros Ha. apply Forall_forall. intros x Hx.
    apply timers_fire_subset in Hx.
    specialize (Hrel Ha). rewrite Forall_forall in Hrel. apply Hrel, Hx.
  - exact IH.
  - destruct IH as (a & la & Hd & Hrel).
    exists (isAuthenticated (state w)), (lastActivity (state w)).
    split; [reflexivity|]. intros Hout.
    assert (Hlive : live w = false) by (unfold live; rewrite Hout; reflexivity).
    unfold commit.
    match goal with
    | |- Forall _ (timers (set_rendered ?d ?c ?x)) =>
        change (timers (set_rendered d c x)) with (timers x)
    end.
    rewrite Hd.
    destruct (deps_eqb (a, la) _) eqn:E.
    + apply deps_eqb_eq in E. injection E as -> ->. apply Hrel, Hout.
    + unfold timeoutCleanup. rewrite timeoutEffect_idle.
      * apply clearTimeouts_only_relogin, reachable_well_timed, Hr.
      * unfold live. rewrite state_clearTimeouts. exact Hlive.
Qed.

(** C7, amended.  At no reachable moment is more than one warning timeout
    or more than one auto-logout timeout pending.  A render that finds
    [isAuthenticated] and [lastActivity] as the last one did leaves the
    timeouts as they are; any other render cancels the pending pair and,
    when the session is not live, leaves neither pending.  When the session
    is live (the first render after a login, and the one after every
    [updateActivity] that moved [lastActivity]) it arms both anew: exactly
    one warning timeout and exactly one auto-logout timeout are then
    pending, due [SESSION_TIMEOUT - WARNING_TIME] and [SESSION_TIMEOUT]
    after the new timestamp.  As time passes from there with no re-login
    scheduled, exactly these two stay pending until the warning is due; the
    warning is a one-shot, so from then until the auto-logout is due the
    session is live with exactly the auto-logout timeout pending and no
    warning timeout; when the auto-logout is due the session is cleared and
    neither is pending.  [logout], [logoutSilent] and unmounting leave
    neither pending. *)
Theorem session_timers_single_rearmed_cancelled w :
  Reachable w ->
  ((List.length (pending WarningTimer w) <= 1)%nat
   /\ (List.length (pending LogoutTimer w) <= 1)%nat
   /\ (rendered w -> timers (commit w) = timers w)
   /\ (live w = false ->
       timeoutDeps w <> Some (isAuthenticated (state w), lastActivity (state w)) ->
       forall k, k <> ReloginTimer -> pending k (commit w) = []))
  /\ (live w = true ->
      timeoutDeps w <> Some (isAuthenticated (state w), lastActivity (state w)) ->
      map due (pending WarningTimer (commit w))
        = [clock w + (SESSION_TIMEOUT - WARNING_TIME)]
      /\ map due (pending LogoutTimer (commit w)) = [clock w + SESSION_TIMEOUT]
      /\ (pending ReloginTimer w = [] ->
          forall dt, 0 <= dt ->
            (dt < SESSION_TIMEOUT - WARNING_TIME ->
             map due (pending WarningTimer (elapse dt (commit w)))
               = [clock w + (SESSION_TIMEOUT - WARNING_TIME)]
             /\ map due (pending LogoutTimer (elapse dt (commit w)))
                = [clock w + SESSION_TIMEOUT]
             /\ live (elapse dt (commit w)) = true)
            /\ (SESSION_TIMEOUT - WARNING_TIME <= dt < SESSION_TIMEOUT ->
                pending WarningTimer (elapse dt (commit w)) = []
                /\ map due (pending LogoutTimer (elapse dt (commit w)))
                   = [clock w + SESSION_TIMEOUT]
                /\ live (elapse dt (commit w)) = true)
            /\ (SESSION_TIMEOUT <= dt ->
                pending WarningTimer (elapse dt (commit w)) = []
                /\ pending LogoutTimer (elapse dt (commit w)) = []
                /\ cleared (elapse dt (commit w)))))
  /\ (live w = true -> timeoutDeps w <> Some (true, clock w) ->
      map due (pending WarningTimer (commit (updateActivity w)))
        = [clock w + (SESSION_TIMEOUT - WARNING_TIME)]
      /\ map due (pending LogoutTimer (commit (updateActivity w)))
        = [clock w + SESSION_TIMEOUT])
  /\ (forall k, k <> ReloginTimer ->
        pending k (logout w) = []
        /\ pending k (logoutSilent w) = []
        /\ pending k (unmount w) = []).
Proof.
  intros Hr. pose proof (reachable_well_timed w Hr) as Hw.
  split; [|split; [|split]].
  - split; [|split; [|split]].
    + apply pending_at_most_one; [exact Hw | discriminate].
    + apply pending_at_most_one; [exact Hw | discriminate].
    + apply commit_rendered.
    + intros Hidle Hdeps k Hk.
      destruct (reachable_idle_untimed w Hr) as (a & la & Hd & _).
      unfold pending, commit.
      match goal with
      | |- context [timers (set_rendered ?d ?c ?x)] =>
          change (timers (set_rendered d c x)) with (timers x)
      end.
      rewrite Hd in *.
      destruct (deps_eqb (a, la) _) eqn:E.
      * apply deps_eqb_eq in E. rewrite E in Hdeps. contradiction Hdeps.
        reflexivity.
      * unfold timeoutCleanup. rewrite timeoutEffect_idle.
        -- apply (pending_after_clear k w Hw Hk).
        -- unfold live. rewrite state_clearTimeouts. exact Hidle.
  - intros Hlive Hdeps.
    destruct (pending_commit_rearmed w Hw Hlive Hdeps) as [Hwarn Hout].
    split; [exact Hwarn|]. split; [exact Hout|].
    intros Hnone dt Hdt.
    pose proof (armed_timers w Hw Hlive Hdeps Hnone) as Harmed.
    set (w1 := commit w) in *.
    assert (Hren : rendered w1) by apply rendered_commit.
    assert (Hwt1 : well_timed w1) by (apply well_timed_commit, Hw).
    assert (Hclock : clock w1 = clock w) by apply clock_commit.
    assert (Hlive1 : live w1 = true)
      by (unfold live, w1; rewrite state_commit; exact Hlive).
    assert (Hbefore : dt < SESSION_TIMEOUT ->
              timers (elapse dt w1)
              = filter (fun t => clock w + dt <? due t) (timers w1)
              /\ live (elapse dt w1) = true).
    { intros Hlt. unfold elapse. rewrite Hclock. split.
      - apply elapse_to_warnings; [apply Nat.le_refl | exact Hren | exact Hwt1 |].
        intros t Hin Hdue. rewrite Harmed in Hin.
        destruct Hin as [<- | [<- | []]]; [reflexivity|].
        cbn [due] in Hdue. unfold SESSION_TIMEOUT, WARNING_TIME in *. lia.
      - destruct (elapse_to_keeps (List.length (timers w1)) (clock w + dt) w1 Hren)
          as (E1 & E2 & _).
        + intros t Hin Hk. rewrite Harmed in Hin.
          destruct Hin as [<- | [<- | []]]; [contradiction Hk; reflexivity|].
          cbn [due]. unfold SESSION_TIMEOUT, WARNING_TIME in *. lia.
        + unfold live. rewrite E1, E2. exact Hlive1. }
    split; [|split].
    + intros Hearly.
      destruct Hbefore as [Htimers Hl];
        [unfold SESSION_TIMEOUT, WARNING_TIME in *; lia|].
      unfold pending. rewrite Htimers, Harmed. cbn [filter due].
      assert (E1 : (clock w + dt <? clock w + (SESSION_TIMEOUT - WARNING_TIME)) = true)
        by (apply Z.ltb_lt; unfold SESSION_TIMEOUT, WARNING_TIME in *; lia).
      assert (E2 : (clock w + dt <? clock w + SESSION_TIMEOUT) = true)
        by (apply Z.ltb_lt; unfold SESSION_TIMEOUT, WARNING_TIME in *; lia).
      rewrite E1, E2. split; [reflexivity|]. split; [reflexivity | exact Hl].
    + intros [Hlate Hlt]. destruct Hbefore as [Htimers Hl]; [exact Hlt|].
      unfold pending. rewrite Htimers, Harmed. cbn [filter due].
      assert (E1 : (clock w + dt <? clock w + (SESSION_TIMEOUT - WARNING_TIME)) = false)
        by (apply Z.ltb_ge; unfold SESSION_TIMEOUT, WARNING_TIME in *; lia).
      assert (E2 : (clock w + dt <? clock w + SESSION_TIMEOUT) = true)
        by (apply Z.ltb_lt; unfold SESSION_TIMEOUT, WARNING_TIME in *; lia).
      rewrite E1, E2. split; [reflexivity|]. split; [reflexivity | exact Hl].
    + intros Hdue.
      assert (Hcleared : cleared (elapse dt w1)).
      { unfold elapse. apply elapse_to_clears;
          [apply Nat.le_refl | exact Hren | exact Hwt1 |].
        right. eexists. split; [rewrite Harmed; right; left; reflexivity|].
        split; [discriminate|].
        cbn [due]. unfold SESSION_TIMEOUT, WARNING_TIME in *. lia. }
      assert (Hrel : Forall (fun t => kind t = ReloginTimer) (timers (elapse dt w1))).
      { destruct (reachable_idle_untimed (elapse dt w1)) as (a & la & Hd & Hrel).
        - apply reachable_elapse; [apply R_commit, Hr | exact Hdt].
        - apply Hrel.
          assert (Hren' : rendered (elapse dt w1))
            by (apply rendered_elapse_to, Hren).
          unfold rendered in Hren'. rewrite Hd in Hren'.
          destruct Hcleared as (Hidle & _). rewrite Hidle in Hren'.
          congruence. }
      split; [|split; [|exact Hcleared]];
        apply pending_none_of_relogin; try exact Hrel; discriminate.
  - intros Hlive Hdeps.
    assert (Hauth : isAuthenticated (state w) = true).
    { unfold live in Hlive. apply andb_prop in Hlive. tauto. }
    apply (pending_commit_rearmed (updateActivity w)).
    + exact Hw.
    + exact Hlive.
    + simpl. rewrite Hauth. exact Hdeps.
  - intros k Hk. split; [|split].
    + apply (pending_after_clear k (set_credential None None w) Hw Hk).
    + apply (pending_after_clear k (set_credential None None w) Hw Hk).
    + apply (pending_after_clear k w Hw Hk).
Qed.

Lemma session_timers_single_rearmed_cancelled_witness :
  Reachable (updateActivity (elapse 60000 Example.signed_in))
  /\ live (updateActivity (elapse 60000 Example.signed_in)) = true
  /\ map due (pending WarningTimer
                (commit (updateActivity (elapse 60000 Example.signed_in))))
     = [61000 + (SESSION_TIMEOUT - WARNING_TIME)]
  /\ map due (pending LogoutTimer
                (commit (updateActivity (elapse 60000 Example.signed_in))))
     = [61000 + SESSION_TIMEOUT]
  /\ pending WarningTimer
       (elapse (SESSION_TIMEOUT - WARNING_TIME)
          (commit (updateActivity (elapse 60000 Example.signed_in)))) = []
  /\ map due (pending LogoutTimer
                (elapse (SESSION_TIMEOUT - WARNING_TIME)
                   (commit (updateActivity (elapse 60000 Example.signed_in)))))
     = [61000 + SESSION_TIMEOUT]
  /\ pending LogoutTimer
       (logout (updateActivity (elapse 60000 Example.signed_in))) = [].
Proof.
  assert (Hr : Reachable (updateActivity (elapse 60000 Example.signed_in))).
  { apply R_dispatch, reachable_elapse; [apply reachable_signed_in | discriminate]. }
  destruct (session_timers_single_rearmed_cancelled
              (updateActivity (elapse 60000 Example.signed_in)) Hr)
    as (_ & Harm & _ & Hcancel).
  split; [exact Hr|]. split; [vm_compute; reflexivity|].
  destruct Harm as (Hwarn & Hout & Hlife).
  - vm_compute. reflexivity.
  - vm_compute. discriminate.
  - split; [exact Hwarn|]. split; [exact Hout|].
    destruct (Hlife eq_refl (SESSION_TIMEOUT - WARNING_TIME)) as (_ & Hmid & _);
      [discriminate|].
    destruct Hmid as (Hnow & Hlater & _);
      [split; [apply Z.le_refl | reflexivity]|].
    split; [exact Hnow|]. split; [exact Hlater|].
    apply (Hcancel LogoutTimer). discriminate.
Defined.
